(** * flynn-test runner: instance lifecycle and privileged exec bridge

    A shallow embedding of the two runner backends of flynn-test
    (the UML backend of [runner/instance.go] and the QEMU backend, whose
    instance file has the same shape) together with the exec bridge
    ([execReq.start] / [maybeExec]) they share.

    Conventions.
    - Go strings are byte strings: [string]; byte buffers are [list ascii].
    - Go [int] is a 64-bit integer, modelled as [Z] with the range predicate
      [Gob.int64]; [uint64] is [N] with [Gob.uint64].
    - A Go [error] is [option error] ([None] is [nil]).
    - The operating system, the tap allocator and external tools are an
      oracle ([OS]) that fixes the result of every call; every call that has
      an effect is recorded in the [trace] of the [World].
    - [*UMLConfig] / [*VMConfig] are pointers into the [heap] of the world,
      so two holders of one pointer observe each other's writes.
    - A nil-pointer dereference is the outcome [Panicked]; deferred calls
      still run, as in Go. *)

From Stdlib Require Import ZArith NArith List String Ascii Lia.
From stdpp Require Import gmap strings list pretty.

Open Scope string_scope.
Open Scope list_scope.

(** ** Standard encoding of [encoding/base64]

    [base64.StdEncoding] (RFC 4648 with padding), as used through
    [base64.NewEncoder] / [base64.NewDecoder]: three input bytes become four
    characters of the alphabet, a final group of one or two bytes is padded
    with [=]; the decoder skips carriage returns and newlines. *)
Module Base64.

Definition encodeStd : string :=
  "ABCDEFGHIJKLMNOPQRSTUVWXYZabcdefghijklmnopqrstuvwxyz0123456789+/".

Definition padChar : ascii := "="%char.

Definition enc (i : N) : ascii :=
  match String.get (N.to_nat i) encodeStd with
  | Some c => c
  | None => padChar
  end.

(** [decodeMap]: position of a character in the alphabet, [None] for a
    character outside it. *)
Fixpoint index_from (c : ascii) (s : string) (i : N) : option N :=
  match s with
  | EmptyString => None
  | String d s' => if Ascii.eqb c d then Some i else index_from c s' (N.succ i)
  end.

Definition dec (c : ascii) : option N := index_from c encodeStd 0.

(** The encoder: full quanta, then the padded final quantum. *)
Fixpoint Encode (src : list ascii) : list ascii :=
  match src with
  | [] => []
  | [a] =>
      let a := N_of_ascii a in
      [enc (a / 4); enc ((a mod 4) * 16); padChar; padChar]
  | [a; b] =>
      let a := N_of_ascii a in
      let b := N_of_ascii b in
      [enc (a / 4); enc ((a mod 4) * 16 + b / 16); enc ((b mod 16) * 4); padChar]
  | a :: b :: c :: rest =>
      let a := N_of_ascii a in
      let b := N_of_ascii b in
      let c := N_of_ascii c in
      enc (a / 4) :: enc ((a mod 4) * 16 + b / 16)
        :: enc ((b mod 16) * 4 + c / 64) :: enc (c mod 64) :: Encode rest
  end.

Definition isNewline (c : ascii) : bool :=
  Ascii.eqb c "010"%char || Ascii.eqb c "013"%char.

Definition byte1 (s0 s1 : N) : ascii := ascii_of_N ((s0 * 4 + s1 / 16) mod 256).
Definition byte2 (s1 s2 : N) : ascii := ascii_of_N ((s1 * 16 + s2 / 4) mod 256).
Definition byte3 (s2 s3 : N) : ascii := ascii_of_N ((s2 * 64 + s3) mod 256).

(** The decoder on input without newlines: padding is accepted only in the
    final quantum. *)
Fixpoint decodeQuanta (src : list ascii) : option (list ascii) :=
  match src with
  | [] => Some []
  | [c0; c1; p2; p3] =>
      match dec c0, dec c1 with
      | Some s0, Some s1 =>
          match dec p2, dec p3 with
          | Some s2, Some s3 => Some [byte1 s0 s1; byte2 s1 s2; byte3 s2 s3]
          | Some s2, None =>
              if Ascii.eqb p3 padChar then Some [byte1 s0 s1; byte2 s1 s2] else None
          | None, _ =>
              if Ascii.eqb p2 padChar && Ascii.eqb p3 padChar
              then Some [byte1 s0 s1] else None
          end
      | _, _ => None
      end
  | c0 :: c1 :: c2 :: c3 :: rest =>
      match dec c0, dec c1, dec c2, dec c3, decodeQuanta rest with
      | Some s0, Some s1, Some s2, Some s3, Some out =>
          Some (byte1 s0 s1 :: byte2 s1 s2 :: byte3 s2 s3 :: out)
      | _, _, _, _, _ => None
      end
  | _ => None
  end.

Definition Decode (src : list ascii) : option (list ascii) :=
  decodeQuanta (List.filter (fun c => negb (isNewline c)) src).

(** The check that the alphabet and [decodeMap] agree on a sextet and that
    its character is no newline. *)
Definition sextet_ok (i : N) : bool :=
  match dec (enc i) with Some j => N.eqb i j | None => false end
  && negb (isNewline (enc i)).

End Base64.

Arguments Base64.dec : simpl never.
Arguments Base64.enc : simpl never.
(** ** Wire format of [encoding/gob]

    The part of gob that a struct of [int], [string] and [[]string] fields
    exercises. A stream is a sequence of length-prefixed messages; a message
    with a negative type id defines a type (a [wireType] value), one with a
    non-negative id carries a value of that type. User types are numbered
    from 65 in the order the encoder first sends them. *)
Module Gob.

Definition uint64 (x : N) : Prop := (x < 2 ^ 64)%N.
Definition int64 (i : Z) : Prop := (- 2 ^ 63 <= i < 2 ^ 63)%Z.

Definition uint64Size : N := 8.
Definition firstUserId : Z := 64.
Definition tInt : Z := 2.
Definition tString : Z := 6.

(** [n] bytes of [x], most significant first. *)
Fixpoint be_bytes (n : nat) (x : N) : list ascii :=
  match n with
  | O => []
  | S n' => be_bytes n' (x / 256) ++ [ascii_of_N (x mod 256)]
  end.

Definition from_be (bs : list ascii) : N :=
  fold_left (fun x b => x * 256 + N_of_ascii b)%N bs 0%N.

(** [encodeUint]: a value up to 127 is one byte; otherwise the negated byte
    count, then the bytes big-endian with leading zeros dropped
    ([bc] is [bits.LeadingZeros64(x) >> 3]). *)
Definition encodeUint (x : N) : list ascii :=
  if (x <=? 127)%N then [ascii_of_N x]
  else
    let bc := ((63 - N.log2 x) / 8)%N in
    let n := (uint64Size - bc)%N in
    ascii_of_N (256 - n) :: be_bytes (N.to_nat n) x.

(** [decodeUint]: [256 - v] is [-int(int8(b))]. *)
Definition decodeUint (bs : list ascii) : option (N * list ascii) :=
  match bs with
  | [] => None
  | b :: rest =>
      let v := N_of_ascii b in
      if (v <=? 127)%N then Some (v, rest)
      else
        let n := (256 - v)%N in
        if (uint64Size <? n)%N then None
        else if (N.of_nat (length rest) <? n)%N then None
        else Some (from_be (take (N.to_nat n) rest), drop (N.to_nat n) rest)
  end.

(** [encodeInt]: bit 0 says whether to complement, the value is shifted up
    by one. *)
Definition encodeInt (i : Z) : list ascii :=
  let x := if (i <? 0)%Z
           then Z.lor (Z.shiftl (Z.lnot i) 1) 1
           else Z.shiftl i 1 in
  encodeUint (Z.to_N x).

Definition decodeInt (bs : list ascii) : option (Z * list ascii) :=
  match decodeUint bs with
  | None => None
  | Some (x, rest) =>
      if (N.land x 1 =? 0)%N
      then Some (Z.of_N (N.shiftr x 1), rest)
      else Some (Z.lnot (Z.of_N (N.shiftr x 1)), rest)
  end.

(** The field types and values that occur. *)
Inductive gtype := TInt | TString | TStrings.
Inductive gval :=
| VInt (i : Z)
| VString (s : string)
| VStrings (l : list string).

Definition gtype_eqb (a b : gtype) : bool :=
  match a, b with
  | TInt, TInt | TString, TString | TStrings, TStrings => true
  | _, _ => false
  end.

Definition zeroValue (t : gtype) : gval :=
  match t with
  | TInt => VInt 0
  | TString => VString EmptyString
  | TStrings => VStrings []
  end.

Definition isZero (v : gval) : bool :=
  match v with
  | VInt i => (i =? 0)%Z
  | VString s => (String.length s =? 0)%nat
  | VStrings l => (length l =? 0)%nat
  end.

(** A string is its length and its bytes; a slice its length and its
    elements, which are sent even when they are zero. *)
Definition encodeString (s : string) : list ascii :=
  encodeUint (N.of_nat (String.length s)) ++ list_ascii_of_string s.

Definition encodeValue (v : gval) : list ascii :=
  match v with
  | VInt i => encodeInt i
  | VString s => encodeString s
  | VStrings l =>
      encodeUint (N.of_nat (length l)) ++ concat (map encodeString l)
  end.

(** Decoding one value of a given type. A length beyond the remaining input
    is an error. *)
Definition decodeString (bs : list ascii) : option (string * list ascii) :=
  match decodeUint bs with
  | None => None
  | Some (n, rest) =>
      if (N.of_nat (length rest) <? n)%N then None
      else Some (string_of_list_ascii (take (N.to_nat n) rest),
                 drop (N.to_nat n) rest)
  end.

Fixpoint decodeElems (n : nat) (bs : list ascii)
  : option (list string * list ascii) :=
  match n with
  | O => Some ([], bs)
  | S n' =>
      match decodeString bs with
      | None => None
      | Some (s, rest) =>
          match decodeElems n' rest with
          | None => None
          | Some (l, rest') => Some (s :: l, rest')
          end
      end
  end.

Definition decodeValue (t : gtype) (bs : list ascii)
  : option (gval * list ascii) :=
  match t with
  | TInt =>
      match decodeInt bs with
      | Some (i, rest) => Some (VInt i, rest)
      | None => None
      end
  | TString =>
      match decodeString bs with
      | Some (s, rest) => Some (VString s, rest)
      | None => None
      end
  | TStrings =>
      match decodeUint bs with
      | None => None
      | Some (n, rest) =>
          if (N.of_nat (length rest) <? n)%N then None
          else
            match decodeElems (N.to_nat n) rest with
            | Some (l, rest') => Some (VStrings l, rest')
            | None => None
            end
      end
  end.

(** A struct is a sequence of (field delta, value) pairs ended by a zero
    delta; a field holding the zero value of its type is not sent.
    [fieldnum] is the number of the last field sent. *)
Fixpoint encodeFields (fieldnum i : Z) (vs : list gval) : list ascii :=
  match vs with
  | [] => []
  | v :: vs' =>
      if isZero v then encodeFields fieldnum (i + 1) vs'
      else encodeUint (Z.to_N (i - fieldnum)) ++ encodeValue v
             ++ encodeFields i (i + 1) vs'
  end.

Definition encodeStruct (vs : list gval) : list ascii :=
  encodeFields (-1) 0 vs ++ encodeUint 0.

(** The decoder's engine maps each field number of the sender's struct to a
    slot of the receiver's struct ([None]: the receiver has no such field and
    the value is skipped) and the type to decode. The loop of [decodeStruct]
    runs while the buffer is not empty; every turn consumes a byte, so the
    length of the buffer bounds the turns. *)
Definition decInstr : Type := option nat * gtype.

Fixpoint decodeFields (fuel : nat) (engine : list decInstr) (fieldnum : Z)
    (acc : list gval) (bs : list ascii) : option (list gval * list ascii) :=
  match bs with
  | [] => Some (acc, [])
  | _ :: _ =>
      match fuel with
      | O => None
      | S fuel' =>
          match decodeUint bs with
          | None => None
          | Some (delta, rest) =>
              if (delta =? 0)%N then Some (acc, rest)
              else
                let fieldnum' := (fieldnum + Z.of_N delta)%Z in
                match engine !! Z.to_nat fieldnum' with
                | None => None
                | Some (slot, t) =>
                    match decodeValue t rest with
                    | None => None
                    | Some (v, rest') =>
                        let acc' := match slot with
                                    | Some k => <[k := v]> acc
                                    | None => acc
                                    end in
                        decodeFields fuel' engine fieldnum' acc' rest'
                    end
                end
          end
      end
  end.

Definition decodeStruct (engine : list decInstr) (acc : list gval)
    (bs : list ascii) : option (list gval * list ascii) :=
  decodeFields (S (length bs)) engine (-1) acc bs.

(** Type descriptors. [wireType] is a struct with one non-nil field:
    [SliceT] (field 1) or [StructT] (field 2); both start with a
    [CommonType] of name and id. Array and map descriptors do not occur and
    are rejected by [decodeWireType]. *)
Inductive wireType :=
| WSlice (name : string) (id : Z) (elem : Z)
| WStruct (name : string) (id : Z) (fields : list (string * Z)).

Definition commonTypeEngine : list decInstr := [(Some 0%nat, TString); (Some 1%nat, TInt)].

Definition encodeCommonType (name : string) (id : Z) : list ascii :=
  encodeStruct [VString name; VInt id].

Definition decodeNamedId (bs : list ascii) : option (string * Z * list ascii) :=
  match decodeStruct commonTypeEngine [VString EmptyString; VInt 0] bs with
  | Some ([VString name; VInt id], rest) => Some (name, id, rest)
  | _ => None
  end.

Definition encodeWireType (w : wireType) : list ascii :=
  match w with
  | WSlice name id elem =>
      encodeUint 2
        ++ (encodeUint 1 ++ encodeCommonType name id
            ++ encodeUint 1 ++ encodeInt elem
            ++ encodeUint 0)
        ++ encodeUint 0
  | WStruct name id fields =>
      encodeUint 3
        ++ (encodeUint 1 ++ encodeCommonType name id
            ++ encodeUint 1 ++ encodeUint (N.of_nat (length fields))
            ++ concat (map (fun f => encodeCommonType (fst f) (snd f)) fields)
            ++ encodeUint 0)
        ++ encodeUint 0
  end.

Fixpoint decodeFieldTypes (n : nat) (bs : list ascii)
  : option (list (string * Z) * list ascii) :=
  match n with
  | O => Some ([], bs)
  | S n' =>
      match decodeNamedId bs with
      | None => None
      | Some (name, id, rest) =>
          match decodeFieldTypes n' rest with
          | None => None
          | Some (l, rest') => Some ((name, id) :: l, rest')
          end
      end
  end.

Definition expectUint (k : N) (bs : list ascii) : option (list ascii) :=
  match decodeUint bs with
  | Some (d, rest) => if (d =? k)%N then Some rest else None
  | None => None
  end.

Definition decodeWireType (bs : list ascii) : option wireType :=
  match decodeUint bs with
  | Some (2%N, bs) =>
      bs ← expectUint 1 bs;
      '(name, id, bs) ← decodeNamedId bs;
      bs ← expectUint 1 bs;
      '(elem, bs) ← decodeInt bs;
      bs ← expectUint 0 bs;
      _ ← expectUint 0 bs;
      Some (WSlice name id elem)
  | Some (3%N, bs) =>
      bs ← expectUint 1 bs;
      '(name, id, bs) ← decodeNamedId bs;
      bs ← expectUint 1 bs;
      '(n, bs) ← decodeUint bs;
      if (N.of_nat (length bs) <? n)%N then None
      else
        '(fields, bs) ← decodeFieldTypes (N.to_nat n) bs;
        bs ← expectUint 0 bs;
        _ ← expectUint 0 bs;
        Some (WStruct name id fields)
  | _ => None
  end.

(** The receiver's (and sender's) view of a Go struct type: its name and
    exported fields in declaration order. *)
Record structInfo := {
  sname : string;
  sfields : list (string * gtype);
}.

Definition structId : Z := 65.
Definition stringsId : Z := 66.

Definition typeId (t : gtype) : Z :=
  match t with
  | TInt => tInt
  | TString => tString
  | TStrings => stringsId
  end.

Definition structWire (info : structInfo) : wireType :=
  WStruct (sname info) structId
    (map (fun f => (fst f, typeId (snd f))) (sfields info)).

Definition stringsWire : wireType := WSlice "[]string" stringsId tString.

(** A message is its length and its body. *)
Definition message (body : list ascii) : list ascii :=
  encodeUint (N.of_nat (length body)) ++ body.

Definition usesStrings (info : structInfo) : bool :=
  existsb (fun f => gtype_eqb (snd f) TStrings) (sfields info).

(** [Encoder.Encode] of a struct value on a fresh encoder: the descriptor
    of the struct, the descriptors of its field types that need one, then
    the value. Encoding cannot fail for these types. *)
Definition Encode (info : structInfo) (vs : list gval) : list ascii :=
  message (encodeInt (- structId) ++ encodeWireType (structWire info))
    ++ (if usesStrings info
        then message (encodeInt (- stringsId) ++ encodeWireType stringsWire)
        else [])
    ++ message (encodeInt structId ++ encodeStruct vs).

Definition recvMessage (stream : list ascii)
  : option (list ascii * list ascii) :=
  match decodeUint stream with
  | None => None
  | Some (n, rest) =>
      if (N.of_nat (length rest) <? n)%N then None
      else Some (take (N.to_nat n) rest, drop (N.to_nat n) rest)
  end.

(** [Decoder.decodeTypeSequence]: read messages, recording type
    definitions, until one carries a value. *)
Fixpoint decodeTypeSequence (fuel : nat) (wire : gmap Z wireType)
    (stream : list ascii) : option (Z * gmap Z wireType * list ascii) :=
  match fuel with
  | O => None
  | S fuel' =>
      '(buf, stream') ← recvMessage stream;
      '(id, buf) ← decodeInt buf;
      if (0 <=? id)%Z then Some (id, wire, buf)
      else
        let id := (- id)%Z in
        if (id <? firstUserId)%Z then None
        else
          match wire !! id with
          | Some _ => None
          | None =>
              w ← decodeWireType buf;
              decodeTypeSequence fuel' (<[id := w]> wire) stream'
          end
  end.

(** [compileDec]: match the sender's fields to the receiver's by name; a
    field the receiver lacks is skipped, a field of another type is an
    error. *)
Definition remoteType (wire : gmap Z wireType) (tid : Z) : option gtype :=
  if (tid =? tInt)%Z then Some TInt
  else if (tid =? tString)%Z then Some TString
  else
    match wire !! tid with
    | Some (WSlice _ _ elem) => if (elem =? tString)%Z then Some TStrings else None
    | _ => None
    end.

Fixpoint fieldIndex (name : string) (fs : list (string * gtype)) (i : nat)
  : option (nat * gtype) :=
  match fs with
  | [] => None
  | (n, t) :: fs' =>
      if String.eqb n name then Some (i, t) else fieldIndex name fs' (S i)
  end.

Fixpoint compileFields (wire : gmap Z wireType) (info : structInfo)
    (rfields : list (string * Z)) : option (list decInstr) :=
  match rfields with
  | [] => Some []
  | (name, tid) :: rest =>
      rt ← remoteType wire tid;
      engine ← compileFields wire info rest;
      match fieldIndex name (sfields info) 0 with
      | None => Some ((None, rt) :: engine)
      | Some (k, lt) =>
          if gtype_eqb rt lt then Some ((Some k, rt) :: engine) else None
      end
  end.

Definition compileDec (wire : gmap Z wireType) (info : structInfo) (id : Z)
  : option (list decInstr) :=
  match wire !! id with
  | Some (WStruct _ _ rfields) => compileFields wire info rfields
  | _ => None
  end.

(** [Decoder.Decode] into a zero value of the struct on a fresh
    decoder. *)
Definition Decode (info : structInfo) (stream : list ascii)
  : option (list gval) :=
  '(id, wire, buf) ← decodeTypeSequence (S (length stream)) ∅ stream;
  engine ← compileDec wire info id;
  '(vs, _) ← decodeStruct engine (map (fun f => zeroValue (snd f)) (sfields info)) buf;
  Some vs.

Definition typeOf (v : gval) : gtype :=
  match v with
  | VInt _ => TInt
  | VString _ => TString
  | VStrings _ => TStrings
  end.

(** Values that exist in a Go program: integers in range, lengths that fit
    a machine word. *)
Definition wfString (s : string) : Prop := uint64 (N.of_nat (String.length s)).

Definition wfVal (v : gval) : Prop :=
  match v with
  | VInt i => int64 i
  | VString s => wfString s
  | VStrings l => uint64 (N.of_nat (length l)) /\ Forall wfString l
  end.

End Gob.

(** ** Paths, formatting and the environment *)

(** [filepath.Clean] on a Unix path, by components: empty components and [.]
    are dropped, [..] removes the component before it when there is one to
    remove, is dropped at the root, and is kept otherwise. *)
Module filepath.

Fixpoint splitSlash (s : string) : list string :=
  match s with
  | EmptyString => [EmptyString]
  | String c s' =>
      if Ascii.eqb c "/"%char then EmptyString :: splitSlash s'
      else
        match splitSlash s' with
        | h :: t => String c h :: t
        | [] => [String c EmptyString]
        end
  end.

Fixpoint joinSlash (comps : list string) : string :=
  match comps with
  | [] => EmptyString
  | [c] => c
  | c :: rest => c +:+ "/" +:+ joinSlash rest
  end.

(** [out] is the output so far, last component first. *)
Definition cleanStep (rooted : bool) (out : list string) (c : string)
  : list string :=
  if String.eqb c EmptyString || String.eqb c "." then out
  else if String.eqb c ".." then
    match out with
    | top :: below =>
        if String.eqb top ".." then ".." :: out else below
    | [] => if rooted then [] else [".."]
    end
  else c :: out.

Definition isRooted (path : string) : bool :=
  match path with
  | String c _ => Ascii.eqb c "/"%char
  | EmptyString => false
  end.

Definition Clean (path : string) : string :=
  match path with
  | EmptyString => "."
  | _ =>
      let rooted := isRooted path in
      let out := rev (fold_left (cleanStep rooted) (splitSlash path) []) in
      if rooted then "/" +:+ joinSlash out
      else match out with
           | [] => "."
           | _ => joinSlash out
           end
  end.

(** [filepath.Join] of two elements: empty leading elements are ignored, the
    rest is joined with the separator and cleaned. *)
Definition Join (a b : string) : string :=
  match a, b with
  | EmptyString, EmptyString => EmptyString
  | EmptyString, _ => Clean b
  | _, _ => Clean (a +:+ "/" +:+ b)
  end.

(** A plain file name: one component that [Clean] keeps. *)
Definition plain (name : string) : Prop :=
  splitSlash name = [name]
  /\ (name =? EmptyString)%string = false /\ (name =? ".")%string = false
  /\ (name =? "..")%string = false.

End filepath.

(** [os.Getenv] on an environment block of [key=value] entries; the first
    entry for a key wins, an absent key reads as the empty string. *)
Fixpoint stripPrefix (p s : string) : option string :=
  match p, s with
  | EmptyString, _ => Some s
  | String a p', String b s' => if Ascii.eqb a b then stripPrefix p' s' else None
  | String _ _, EmptyString => None
  end.

Fixpoint Getenv (environ : list string) (key : string) : string :=
  match environ with
  | [] => EmptyString
  | kv :: rest =>
      match stripPrefix (key +:+ "=") kv with
      | Some v => v
      | None => Getenv rest key
      end
  end.

(** ** The world outside the program *)

Definition error : Type := string.

Inductive result (A : Type) : Type :=
| Ok (a : A)
| Err (e : error).
Arguments Ok {A} a.
Arguments Err {A} e.

(** What a call can do: return, or panic on a nil pointer. *)
Inductive outcome (A : Type) : Type :=
| Returned (a : A)
| Panicked.
Arguments Returned {A} a.
Arguments Panicked {A}.

(** The network endpoint handed out by the tap allocator. *)
Record Tap := {
  Name : string;
  RemoteIP : string;
}.

(** [exec.Cmd] as far as the runner uses it: [Process] is set once
    [cmd.Start] has succeeded. *)
Record Cmd := {
  cmd_Path : string;
  cmd_Env : list string;
  cmd_Stdout : option string;
  cmd_Stderr : option string;
  Process : option nat;
}.

(** Calls with an effect outside the program, in the order they are made.
    [EvTempDir] records a directory that was created; the other events record
    the call whether or not it succeeds. *)
Inductive Event :=
| EvCreateLog (path : string)
| EvNewTap (uid gid : Z)
| EvTempDir (dir : string)
| EvChmod (path : string)
| EvChown (path : string) (uid gid : Z)
| EvCreate (path : string)
| EvTapWrite (tap : string)
| EvRemoveAll (path : string)
| EvTapClose (tap : string)
| EvRun (argv : list string)
| EvSpawn (env : list string)
| EvWait (pid : nat)
| EvKill (pid : nat).

(** The answers of the operating system, of the tap allocator and of the
    external tools. [os_TempDir n] and [taps_NewTap n] answer the [n]-th call;
    [os_Run] gives the exit error of a command and what it printed. *)
Record OS := {
  os_Args0 : string;
  os_HOME : string;
  os_Create : string -> option error;
  os_TempDir : nat -> result string;
  os_Chmod : string -> option error;
  os_Chown : string -> Z -> Z -> option error;
  os_Run : list string -> option error * string;
  os_Start : list string -> result nat;
  os_Wait : nat -> option error;
  os_Kill : nat -> option error;
  taps_NewTap : nat -> Z -> Z -> result Tap;
  tap_WriteInterfaceConfig : Tap -> option error;
}.

(** The state threaded through the runner, for a backend whose config
    struct is [C]: the oracle, the calls made so far, the number of temp
    directories and taps asked for, and the config structs behind the
    pointers the program holds. *)
Record World (C : Type) := mkWorld {
  os : OS;
  trace : list Event;
  ntemp : nat;
  ntap : nat;
  heap : gmap nat C;
}.
Arguments mkWorld {C} os trace ntemp ntap heap.
Arguments os {C} w.
Arguments trace {C} w.
Arguments ntemp {C} w.
Arguments ntap {C} w.
Arguments heap {C} w.

Definition M (C A : Type) : Type := World C -> outcome A * World C.

Section Monad.
Context {C : Type}.

#[export] Instance M_ret : MRet (M C) := fun A a w => (Returned a, w).

#[export] Instance M_bind : MBind (M C) := fun A B f m w =>
  match m w with
  | (Returned a, w') => f a w'
  | (Panicked, w') => (Panicked, w')
  end.

Definition panic {A} : M C A := fun w => (Panicked, w).

Definition ask : M C OS := fun w => (Returned (os w), w).

Definition emit (ev : Event) : M C unit := fun w =>
  (Returned tt, mkWorld (os w) (trace w ++ [ev]) (ntemp w) (ntap w) (heap w)).

(** Reading and writing through a config pointer; a pointer to nothing is
    nil. *)
Definition load (p : nat) : M C C := fun w =>
  match heap w !! p with
  | Some c => (Returned c, w)
  | None => (Panicked, w)
  end.

Definition store (p : nat) (c : C) : M C unit := fun w =>
  match heap w !! p with
  | Some _ =>
      (Returned tt, mkWorld (os w) (trace w) (ntemp w) (ntap w) (<[p := c]> (heap w)))
  | None => (Panicked, w)
  end.

(** [defer d; body]: [d] runs when [body] has returned or panicked, and a
    panic goes on after it. *)
Definition defer {A B} (d : M C B) (body : M C A) : M C (A * B) := fun w =>
  match body w with
  | (Returned a, w1) =>
      match d w1 with
      | (Returned b, w2) => (Returned (a, b), w2)
      | (Panicked, w2) => (Panicked, w2)
      end
  | (Panicked, w1) => (Panicked, snd (d w1))
  end.

(** *** Calls *)

Definition os_create_log (path : string) : M C (option error) :=
  o ← ask; _ ← emit (EvCreateLog path); mret (os_Create o path).

Definition NewTap (uid gid : Z) : M C (option Tap * option error) := fun w =>
  let w' := mkWorld (os w) (trace w ++ [EvNewTap uid gid]) (ntemp w)
              (S (ntap w)) (heap w) in
  match taps_NewTap (os w) (ntap w) uid gid with
  | Ok t => (Returned (Some t, None), w')
  | Err e => (Returned (None, Some e), w')
  end.

Definition TempDir : M C (result string) := fun w =>
  match os_TempDir (os w) (ntemp w) with
  | Ok dir =>
      (Returned (Ok dir),
       mkWorld (os w) (trace w ++ [EvTempDir dir]) (S (ntemp w)) (ntap w) (heap w))
  | Err e =>
      (Returned (Err e),
       mkWorld (os w) (trace w) (S (ntemp w)) (ntap w) (heap w))
  end.

Definition Chmod (path : string) : M C (option error) :=
  o ← ask; _ ← emit (EvChmod path); mret (os_Chmod o path).

Definition Chown (path : string) (uid gid : Z) : M C (option error) :=
  o ← ask; _ ← emit (EvChown path uid gid); mret (os_Chown o path uid gid).

Definition Create (path : string) : M C (option error) :=
  o ← ask; _ ← emit (EvCreate path); mret (os_Create o path).

Definition RemoveAll (path : string) : M C unit := emit (EvRemoveAll path).

Definition WriteInterfaceConfig (t : Tap) : M C (option error) :=
  o ← ask; _ ← emit (EvTapWrite (Name t)); mret (tap_WriteInterfaceConfig o t).

Definition TapClose (t : Tap) : M C unit := emit (EvTapClose (Name t)).

(** [cmd.Run] of an external tool with no output attached: the exit error
    is returned, what the tool printed is dropped. *)
Definition Run (argv : list string) : M C (option error) :=
  o ← ask; _ ← emit (EvRun argv); mret (fst (os_Run o argv)).

(** [cmd.Start], [cmd.Wait] and [Process.Kill]. *)
Definition CmdStart (c : Cmd) : M C (Cmd * option error) :=
  o ← ask; _ ← emit (EvSpawn (cmd_Env c));
  match os_Start o (cmd_Env c) with
  | Ok pid =>
      mret ({| cmd_Path := cmd_Path c; cmd_Env := cmd_Env c;
               cmd_Stdout := cmd_Stdout c; cmd_Stderr := cmd_Stderr c;
               Process := Some pid |}, None)
  | Err e => mret (c, Some e)
  end.

Definition CmdWait (c : option Cmd) : M C (option error) :=
  match c with
  | None => panic
  | Some c =>
      match Process c with
      | None => mret (Some "exec: not started")
      | Some pid => o ← ask; _ ← emit (EvWait pid); mret (os_Wait o pid)
      end
  end.

Definition ProcessKill (c : option Cmd) : M C (option error) :=
  match c with
  | None => panic
  | Some c =>
      match Process c with
      | None => panic
      | Some pid => o ← ask; _ ← emit (EvKill pid); mret (os_Kill o pid)
      end
  end.

(** [wp m Q w]: running [m] in world [w] ends in an outcome and a world
    that satisfy [Q]. Every [m] ends, so this is total correctness. *)
Definition wp {A} (m : M C A) (Q : outcome A -> World C -> Prop)
    (w : World C) : Prop :=
  Q (fst (m w)) (snd (m w)).

End Monad.

(** ** The privileged exec bridge ([execReq.start], [maybeExec]) *)
Module Bridge.

Record execReq := {
  Uid : Z;
  Gid : Z;
  Path : string;
  Argv : list string;
  Env : list string;
  Dir : string;
}.

(** The struct as gob sees it. *)
Definition execReqInfo : Gob.structInfo :=
  {| Gob.sname := "execReq";
     Gob.sfields := [("Uid", Gob.TInt); ("Gid", Gob.TInt); ("Path", Gob.TString);
                     ("Argv", Gob.TStrings); ("Env", Gob.TStrings);
                     ("Dir", Gob.TString)] |}.

Definition execReq_fields (r : execReq) : list Gob.gval :=
  [Gob.VInt (Uid r); Gob.VInt (Gid r); Gob.VString (Path r);
   Gob.VStrings (Argv r); Gob.VStrings (Env r); Gob.VString (Dir r)].

Definition execReq_of_fields (vs : list Gob.gval) : option execReq :=
  match vs with
  | [Gob.VInt u; Gob.VInt g; Gob.VString p; Gob.VStrings a; Gob.VStrings e;
     Gob.VString d] =>
      Some {| Uid := u; Gid := g; Path := p; Argv := a; Env := e; Dir := d |}
  | _ => None
  end.

(** [gob.NewEncoder(b64).Encode(r)] followed by [b64.Close()]: the content
    of [buf] in [start]. *)
Definition encodeReq (r : execReq) : string :=
  string_of_list_ascii
    (Base64.Encode (Gob.Encode execReqInfo (execReq_fields r))).

(** [gob.NewDecoder(base64.NewDecoder(..., data)).Decode(&req)] in
    [maybeExec]; [None] is a decoding error. *)
Definition decodeReq (data : string) : option execReq :=
  bytes ← Base64.Decode (list_ascii_of_string data);
  vs ← Gob.Decode execReqInfo bytes;
  execReq_of_fields vs.

(** A request a Go program can hold: its integers are 64-bit, its lengths
    and its encoding fit a machine word. *)
Definition wfReq (r : execReq) : Prop :=
  Gob.int64 (Uid r) /\ Gob.int64 (Gid r) /\ Gob.wfString (Path r)
  /\ (Gob.uint64 (N.of_nat (length (Argv r))) /\ Forall Gob.wfString (Argv r))
  /\ (Gob.uint64 (N.of_nat (length (Env r))) /\ Forall Gob.wfString (Env r))
  /\ Gob.wfString (Dir r)
  /\ Gob.uint64 (N.of_nat (length (Gob.encodeInt Gob.structId
                                     ++ Gob.encodeStruct (execReq_fields r)))).

(** [execReq.start]: the request travels in the environment of a copy of
    the running executable. The command is returned also when starting it
    fails. *)
Definition start {C : Type} (r : execReq) (out : option string)
  : M C (option Cmd * option error) :=
  let buf := encodeReq r in
  o ← ask;
  let cmd := {| cmd_Path := os_Args0 o;
                cmd_Env := ["_EXEC_REQ=" +:+ buf];
                cmd_Stdout := out;
                cmd_Stderr := out;
                Process := None |} in
  '(cmd, err) ← CmdStart cmd;
  mret (Some cmd, err).

(** *** The receiving side *)

Inductive SysEvent :=
| SysSetgid (gid : Z)
| SysSetuid (uid : Z)
| SysChdir (dir : string)
| SysPrintln (path : string) (argv : list string)
| SysExec (path : string) (argv env : list string).

Record Sys := {
  sys_Setgid : Z -> option error;
  sys_Setuid : Z -> option error;
  sys_Chdir : string -> option error;
  sys_Exec : string -> list string -> list string -> option error;
}.

(** [log.Fatalf] ends the process with exit status 1; the cases are the
    five messages of [maybeExec]. *)
Inductive fatal :=
| FatalDecode
| FatalSetgid (gid : Z) (e : error)
| FatalSetuid (uid : Z) (e : error)
| FatalChdir (dir : string) (e : error)
| FatalExec (path : string) (e : error).

(** How the process stops running this program: a fatal exit, or its image
    replaced by the target binary. *)
Inductive halt :=
| Fatal (f : fatal)
| Replaced.

Definition exitStatus (h : halt) : option Z :=
  match h with
  | Fatal _ => Some 1%Z
  | Replaced => None
  end.

Definition P (A : Type) : Type := list SysEvent -> (A + halt) * list SysEvent.

#[export] Instance P_ret : MRet P := fun A a tr => (inl a, tr).

#[export] Instance P_bind : MBind P := fun A B f m tr =>
  match m tr with
  | (inl a, tr') => f a tr'
  | (inr h, tr') => (inr h, tr')
  end.

Definition Fatalf {A} (f : fatal) : P A := fun tr => (inr (Fatal f), tr).

Definition call (ev : SysEvent) (r : option error) : P (option error) :=
  fun tr => (inl r, tr ++ [ev]).

(** [syscall.Exec] returns only when it fails. *)
Definition Exec (sys : Sys) (path : string) (argv env : list string) : P error :=
  fun tr =>
    match sys_Exec sys path argv env with
    | None => (inr Replaced, tr ++ [SysExec path argv env])
    | Some e => (inl e, tr ++ [SysExec path argv env])
    end.

Definition maybeExec (sys : Sys) (environ : list string) : P unit :=
  let data := Getenv environ "_EXEC_REQ" in
  if String.eqb data EmptyString then mret tt
  else
    req ← match decodeReq data with
          | Some req => mret req
          | None => Fatalf FatalDecode
          end;
    _ ← (if (0 <? Gid req)%Z then
           err ← call (SysSetgid (Gid req)) (sys_Setgid sys (Gid req));
           match err with
           | Some e => Fatalf (FatalSetgid (Gid req) e)
           | None => mret tt
           end
         else mret tt);
    _ ← (if (0 <? Uid req)%Z then
           err ← call (SysSetuid (Uid req)) (sys_Setuid sys (Uid req));
           match err with
           | Some e => Fatalf (FatalSetuid (Uid req) e)
           | None => mret tt
           end
         else mret tt);
    _ ← (if negb (String.eqb (Dir req) EmptyString) then
           err ← call (SysChdir (Dir req)) (sys_Chdir sys (Dir req));
           match err with
           | Some e => Fatalf (FatalChdir (Dir req) e)
           | None => mret tt
           end
         else mret tt);
    _ ← call (SysPrintln (Path req) (Argv req)) None;
    e ← Exec sys (Path req) (Argv req) (Env req);
    Fatalf (FatalExec (Path req) e).

(** The steps [maybeExec] is meant to take for a request, in order, and
    whether the system lets a step through. *)
Definition plan (req : execReq) : list SysEvent :=
  (if (0 <? Gid req)%Z then [SysSetgid (Gid req)] else [])
  ++ (if (0 <? Uid req)%Z then [SysSetuid (Uid req)] else [])
  ++ (if String.eqb (Dir req) EmptyString then [] else [SysChdir (Dir req)])
  ++ [SysPrintln (Path req) (Argv req);
      SysExec (Path req) (Argv req) (Env req)].

Definition stepError (sys : Sys) (ev : SysEvent) : option fatal :=
  match ev with
  | SysSetgid g => FatalSetgid g <$> sys_Setgid sys g
  | SysSetuid u => FatalSetuid u <$> sys_Setuid sys u
  | SysChdir d => FatalChdir d <$> sys_Chdir sys d
  | SysPrintln _ _ => None
  | SysExec p a e => FatalExec p <$> sys_Exec sys p a e
  end.

(** Taking the steps of a list one by one until one fails. *)
Fixpoint attempt (sys : Sys) (steps : list SysEvent)
  : list SysEvent * halt :=
  match steps with
  | [] => ([], Replaced)
  | ev :: rest =>
      match stepError sys ev with
      | Some f => ([ev], Fatal f)
      | None => let '(tr, h) := attempt sys rest in (ev :: tr, h)
      end
  end.

Definition isPrivilegeCall (ev : SysEvent) : bool :=
  match ev with
  | SysSetgid _ | SysSetuid _ => true
  | _ => false
  end.

End Bridge.

(** [io.Writer] values the runner meets: a sink of the caller, a log file,
    or the nil file that [os.Create] returns with an error. *)
Inductive Writer :=
| Sink (name : string)
| File (path : string)
| NilFile.

Definition writerName (o : option Writer) : option string :=
  match o with
  | Some (Sink n) => Some n
  | Some (File p) => Some p
  | _ => None
  end.

(** ** Backend A: user-mode Linux ([runner/instance.go]) *)
Module UML.

Record UMLDrive := {
  FS : string;
  COW : string;
  TempCOW : bool;
}.

Record UMLConfig := {
  Path : string;
  User : Z;
  Group : Z;
  Memory : string;
  Drives : list UMLDrive;
  Args : list string;
  Out : option Writer;
  hostFS : string;
}.

Definition set_Path (v : string) (c : UMLConfig) : UMLConfig :=
  {| Path := v; User := User c; Group := Group c; Memory := Memory c;
     Drives := Drives c; Args := Args c; Out := Out c; hostFS := hostFS c |}.

Definition set_Out (v : option Writer) (c : UMLConfig) : UMLConfig :=
  {| Path := Path c; User := User c; Group := Group c; Memory := Memory c;
     Drives := Drives c; Args := Args c; Out := v; hostFS := hostFS c |}.

Definition set_Args (v : list string) (c : UMLConfig) : UMLConfig :=
  {| Path := Path c; User := User c; Group := Group c; Memory := Memory c;
     Drives := Drives c; Args := v; Out := Out c; hostFS := hostFS c |}.

Definition set_hostFS (v : string) (c : UMLConfig) : UMLConfig :=
  {| Path := Path c; User := User c; Group := Group c; Memory := Memory c;
     Drives := Drives c; Args := Args c; Out := Out c; hostFS := v |}.

(** [taps] lives in the world ([ntap]). *)
Record UMLManager := {
  nextID : N;
}.

(** [config] is the embedded [*UMLConfig]. *)
Record uml := {
  ID : string;
  config : nat;
  tap : option Tap;
  cmd : option Cmd;
  tempFiles : list string;
}.

Definition set_tap (v : option Tap) (u : uml) : uml :=
  {| ID := ID u; config := config u; tap := v; cmd := cmd u;
     tempFiles := tempFiles u |}.

Definition set_cmd (v : option Cmd) (u : uml) : uml :=
  {| ID := ID u; config := config u; tap := tap u; cmd := v;
     tempFiles := tempFiles u |}.

Definition set_tempFiles (v : list string) (u : uml) : uml :=
  {| ID := ID u; config := config u; tap := tap u; cmd := cmd u;
     tempFiles := v |}.

(** [u.Args = append(u.Args, ...)]: a write through the config pointer. *)
Definition appendArgs (u : uml) (args : list string) : M UMLConfig unit :=
  c ← load (config u);
  store (config u) (set_Args (Args c ++ args) c).

(** [u.tap.X] on a nil tap panics. *)
Definition theTap (u : uml) : M UMLConfig Tap :=
  match tap u with
  | Some t => mret t
  | None => panic
  end.

(** [NewInstance] returns the pair [(Instance, error)] as Go does: each
    component can be nil ([None]) or not on its own. *)
Definition NewInstance (m : UMLManager) (c : nat)
  : M UMLConfig (UMLManager * option uml * option error) :=
  let next := ((nextID m + 1) mod 2 ^ 64)%N in
  let id := ((next + 2 ^ 64 - 1) mod 2 ^ 64)%N in
  let m' := {| nextID := next |} in
  let inst := {| ID := "flynn" +:+ pretty id; config := c; tap := None;
                 cmd := None; tempFiles := [] |} in
  let allocate : M UMLConfig (UMLManager * option uml * option error) :=
    cfg ← load c;
    '(t, err) ← NewTap (User cfg) (Group cfg);
    mret (m', Some (set_tap t inst), err) in
  cfg ← load c;
  _ ← (if String.eqb (Path cfg) EmptyString then store c (set_Path "linux" cfg)
       else mret tt);
  cfg ← load c;
  match Out cfg with
  | None =>
      err ← os_create_log (ID inst +:+ ".log");
      match err with
      | Some e =>
          _ ← store c (set_Out (Some NilFile) cfg);
          mret (m', None, Some e)
      | None =>
          _ ← store c (set_Out (Some (File (ID inst +:+ ".log"))) cfg);
          allocate
      end
  | Some _ => allocate
  end.

Definition writeInterfaceConfig (u : uml) : M UMLConfig (uml * option error) :=
  r ← TempDir;
  match r with
  | Err e => mret (u, Some e)
  | Ok dir =>
      let u := set_tempFiles (tempFiles u ++ [dir]) u in
      c ← load (config u);
      _ ← store (config u) (set_hostFS dir c);
      err ← Chmod dir;
      match err with
      | Some e => _ ← RemoveAll dir; mret (u, Some e)
      | None =>
          err ← Create (filepath.Join dir "eth0");
          match err with
          | Some e => _ ← RemoveAll dir; mret (u, Some e)
          | None =>
              t ← theTap u;
              err ← WriteInterfaceConfig t;
              mret (u, err)
          end
      end
  end.

Fixpoint removeAllOf (files : list string) : M UMLConfig unit :=
  match files with
  | [] => mret tt
  | f :: rest => _ ← RemoveAll f; removeAllOf rest
  end.

Definition cleanup (u : uml) : M UMLConfig uml :=
  _ ← removeAllOf (tempFiles u);
  t ← theTap u;
  _ ← TapClose t;
  mret (set_tempFiles [] u).

Definition tempCOW (u : uml) : M UMLConfig (uml * string * option error) :=
  r ← TempDir;
  match r with
  | Err e => mret (u, EmptyString, Some e)
  | Ok dir =>
      c ← load (config u);
      err ← Chown dir (User c) (Group c);
      match err with
      | Some e => mret (u, EmptyString, Some e)
      | None =>
          mret (set_tempFiles (tempFiles u ++ [dir]) u,
                filepath.Join dir "fs.cow1", None)
      end
  end.

(** The [range u.Drives] loop of [Start], from index [i] on; [Some] error
    means [Start] has cleaned up and returns it. *)
Fixpoint startDrives (u : uml) (i : nat) (ds : list UMLDrive)
  : M UMLConfig (uml * option error) :=
  match ds with
  | [] => mret (u, None)
  | d :: rest =>
      '(u, cow, err) ← (if TempCOW d then tempCOW u
                        else mret (u, COW d, None));
      match err with
      | Some e => u ← cleanup u; mret (u, Some e)
      | None =>
          _ ← appendArgs u
                [if String.eqb cow EmptyString
                 then "ubd" +:+ pretty i +:+ "=" +:+ FS d
                 else "ubd" +:+ pretty i +:+ "=" +:+ cow +:+ "," +:+ FS d];
          startDrives u (S i) rest
      end
  end.

Definition Start (u : uml) : M UMLConfig (uml * option error) :=
  '(u, _) ← writeInterfaceConfig u;
  t ← theTap u;
  c ← load (config u);
  _ ← appendArgs u
        ["umid=" +:+ ID u;
         "con0=fd:0,fd:1";
         "con=pts";
         "rw";
         "eth0=tuntap," +:+ Name t;
         "hostfs=" +:+ hostFS c];
  c ← load (config u);
  _ ← (if String.eqb (Memory c) EmptyString then mret tt
       else appendArgs u ["mem=" +:+ Memory c]);
  c ← load (config u);
  '(u, err) ← startDrives u 0 (Drives c);
  match err with
  | Some e => mret (u, Some e)
  | None =>
      c ← load (config u);
      o ← ask;
      '(cmd, err) ← Bridge.start
                      {| Bridge.Uid := User c;
                         Bridge.Gid := Group c;
                         Bridge.Path := Path c;
                         Bridge.Argv := "linux" :: Args c;
                         Bridge.Env := ["HOME=" +:+ os_HOME o];
                         Bridge.Dir := EmptyString |}
                      (writerName (Out c));
      let u := set_cmd cmd u in
      match err with
      | Some e => u ← cleanup u; mret (u, Some e)
      | None => mret (u, None)
      end
  end.

Definition Wait (u : uml) : M UMLConfig (option error * uml) :=
  defer (cleanup u) (CmdWait (cmd u)).

Definition Kill (u : uml) : M UMLConfig (option error * uml) :=
  defer (cleanup u) (ProcessKill (cmd u)).

Definition IP (u : uml) : M UMLConfig string :=
  t ← theTap u; mret (RemoteIP t).

(** The flags every [Start] of this backend appends, and the memory flag,
    for stating what [Start] does to [Args]. *)
Definition backendFlags (id tapName hostfs : string) : list string :=
  ["umid=" +:+ id; "con0=fd:0,fd:1"; "con=pts"; "rw";
   "eth0=tuntap," +:+ tapName; "hostfs=" +:+ hostfs].

Definition memFlag (c : UMLConfig) : list string :=
  if String.eqb (Memory c) EmptyString then [] else ["mem=" +:+ Memory c].

(** The request [Start] hands to the bridge for a config. *)
Definition request (c : UMLConfig) (home : string) : Bridge.execReq :=
  {| Bridge.Uid := User c;
     Bridge.Gid := Group c;
     Bridge.Path := Path c;
     Bridge.Argv := "linux" :: Args c;
     Bridge.Env := ["HOME=" +:+ home];
     Bridge.Dir := EmptyString |}.

End UML.

(** ** Backend B: QEMU

    The instance file of the QEMU runner. [Drives] is a Go map; [range] visits
    its keys in an order the language leaves open, which [Start] takes as
    [order]. *)
Module VM.

Record VMDrive := {
  FS : string;
  COW : string;
  TempCOW : bool;
}.

Record VMConfig := {
  Kernel : string;
  User : Z;
  Group : Z;
  Memory : string;
  Drives : gmap string VMDrive;
  Args : list string;
  Out : option Writer;
  netFS : string;
}.

Definition set_Kernel (v : string) (c : VMConfig) : VMConfig :=
  {| Kernel := v; User := User c; Group := Group c; Memory := Memory c;
     Drives := Drives c; Args := Args c; Out := Out c; netFS := netFS c |}.

Definition set_Out (v : option Writer) (c : VMConfig) : VMConfig :=
  {| Kernel := Kernel c; User := User c; Group := Group c; Memory := Memory c;
     Drives := Drives c; Args := Args c; Out := v; netFS := netFS c |}.

Definition set_Args (v : list string) (c : VMConfig) : VMConfig :=
  {| Kernel := Kernel c; User := User c; Group := Group c; Memory := Memory c;
     Drives := Drives c; Args := v; Out := Out c; netFS := netFS c |}.

Definition set_netFS (v : string) (c : VMConfig) : VMConfig :=
  {| Kernel := Kernel c; User := User c; Group := Group c; Memory := Memory c;
     Drives := Drives c; Args := Args c; Out := Out c; netFS := v |}.

Record VMManager := {
  nextID : N;
}.

Record vm := {
  ID : string;
  config : nat;
  tap : option Tap;
  cmd : option Cmd;
  tempFiles : list string;
}.

Definition set_tap (v : option Tap) (u : vm) : vm :=
  {| ID := ID u; config := config u; tap := v; cmd := cmd u;
     tempFiles := tempFiles u |}.

Definition set_cmd (v : option Cmd) (u : vm) : vm :=
  {| ID := ID u; config := config u; tap := tap u; cmd := v;
     tempFiles := tempFiles u |}.

Definition set_tempFiles (v : list string) (u : vm) : vm :=
  {| ID := ID u; config := config u; tap := tap u; cmd := cmd u;
     tempFiles := v |}.

Definition qemu : string := "/usr/bin/qemu-system-x86_64".

Definition dquote : string := String "034"%char EmptyString.

Definition appendArgs (u : vm) (args : list string) : M VMConfig unit :=
  c ← load (config u);
  store (config u) (set_Args (Args c ++ args) c).

Definition theTap (u : vm) : M VMConfig Tap :=
  match tap u with
  | Some t => mret t
  | None => panic
  end.

Definition NewInstance (m : VMManager) (c : nat)
  : M VMConfig (VMManager * option vm * option error) :=
  let next := ((nextID m + 1) mod 2 ^ 64)%N in
  let id := ((next + 2 ^ 64 - 1) mod 2 ^ 64)%N in
  let m' := {| nextID := next |} in
  let inst := {| ID := "flynn" +:+ pretty id; config := c; tap := None;
                 cmd := None; tempFiles := [] |} in
  let allocate : M VMConfig (VMManager * option vm * option error) :=
    cfg ← load c;
    '(t, err) ← NewTap (User cfg) (Group cfg);
    mret (m', Some (set_tap t inst), err) in
  cfg ← load c;
  _ ← (if String.eqb (Kernel cfg) EmptyString then store c (set_Kernel "vmlinuz" cfg)
       else mret tt);
  cfg ← load c;
  match Out cfg with
  | None =>
      err ← os_create_log (ID inst +:+ ".log");
      match err with
      | Some e =>
          _ ← store c (set_Out (Some NilFile) cfg);
          mret (m', None, Some e)
      | None =>
          _ ← store c (set_Out (Some (File (ID inst +:+ ".log"))) cfg);
          allocate
      end
  | Some _ => allocate
  end.

Definition writeInterfaceConfig (u : vm) : M VMConfig (vm * option error) :=
  r ← TempDir;
  match r with
  | Err e => mret (u, Some e)
  | Ok dir =>
      let u := set_tempFiles (tempFiles u ++ [dir]) u in
      c ← load (config u);
      _ ← store (config u) (set_netFS dir c);
      err ← Chmod dir;
      match err with
      | Some e => _ ← RemoveAll dir; mret (u, Some e)
      | None =>
          err ← Create (filepath.Join dir "eth0");
          match err with
          | Some e => _ ← RemoveAll dir; mret (u, Some e)
          | None =>
              t ← theTap u;
              err ← WriteInterfaceConfig t;
              mret (u, err)
          end
      end
  end.

Fixpoint removeAllOf (files : list string) : M VMConfig unit :=
  match files with
  | [] => mret tt
  | f :: rest => _ ← RemoveAll f; removeAllOf rest
  end.

Definition cleanup (u : vm) : M VMConfig vm :=
  _ ← removeAllOf (tempFiles u);
  t ← theTap u;
  _ ← TapClose t;
  mret (set_tempFiles [] u).

Definition tempCOW (u : vm) (image : string)
  : M VMConfig (vm * string * option error) :=
  r ← TempDir;
  match r with
  | Err e => mret (u, EmptyString, Some e)
  | Ok dir =>
      let u := set_tempFiles (tempFiles u ++ [dir]) u in
      c ← load (config u);
      err ← Chown dir (User c) (Group c);
      match err with
      | Some e => mret (u, EmptyString, Some e)
      | None =>
          let path := filepath.Join dir "fs.img" in
          err ← Run ["qemu-img"; "create"; "-f"; "qcow2"; "-b"; image; path];
          match err with
          | Some e =>
              mret (u, EmptyString, Some ("failed to create COW filesystem: " +:+ e))
          | None =>
              c ← load (config u);
              err ← Chown path (User c) (Group c);
              match err with
              | Some e => mret (u, EmptyString, Some e)
              | None => mret (u, path, None)
              end
          end
      end
  end.

(** The [range u.Drives] loop of [Start] over the keys still to visit. *)
Fixpoint startDrives (u : vm) (drives : gmap string VMDrive)
    (order : list string) : M VMConfig (vm * option error) :=
  match order with
  | [] => mret (u, None)
  | i :: rest =>
      match drives !! i with
      | None => startDrives u drives rest
      | Some d =>
          '(u, fs, err) ← (if TempCOW d then tempCOW u (FS d)
                           else mret (u, FS d, None));
          match err with
          | Some e => u ← cleanup u; mret (u, Some e)
          | None =>
              _ ← appendArgs u ["-" +:+ i; fs];
              startDrives u drives rest
          end
      end
  end.

Definition Start (order : list string) (u : vm) : M VMConfig (vm * option error) :=
  '(u, _) ← writeInterfaceConfig u;
  t ← theTap u;
  c ← load (config u);
  _ ← appendArgs u
        ["-kernel"; Kernel c;
         "-append"; dquote +:+ "root=/dev/sda" +:+ dquote;
         "-net"; "nic";
         "-net"; "tap,ifname=" +:+ Name t +:+ ",script=no,downscript=no";
         "-virtfs"; "fsdriver=local,path=" +:+ netFS c
                    +:+ ",security_model=passthrough,readonly,mount_tag=netfs";
         "-nographic"];
  c ← load (config u);
  _ ← (if String.eqb (Memory c) EmptyString then mret tt
       else appendArgs u ["-m"; Memory c]);
  c ← load (config u);
  '(u, err) ← startDrives u (Drives c) order;
  match err with
  | Some e => mret (u, Some e)
  | None =>
      c ← load (config u);
      o ← ask;
      '(cmd, err) ← Bridge.start
                      {| Bridge.Uid := User c;
                         Bridge.Gid := Group c;
                         Bridge.Path := qemu;
                         Bridge.Argv := qemu :: Args c;
                         Bridge.Env := ["HOME=" +:+ os_HOME o];
                         Bridge.Dir := EmptyString |}
                      (writerName (Out c));
      let u := set_cmd cmd u in
      match err with
      | Some e => u ← cleanup u; mret (u, Some e)
      | None => mret (u, None)
      end
  end.

Definition Wait (u : vm) : M VMConfig (option error * vm) :=
  defer (cleanup u) (CmdWait (cmd u)).

Definition Kill (u : vm) : M VMConfig (option error * vm) :=
  defer (cleanup u) (ProcessKill (cmd u)).

Definition IP (u : vm) : M VMConfig string :=
  t ← theTap u; mret (RemoteIP t).

(** The command line of the overlay tool, for stating what [tempCOW]
    runs. *)
Definition qemuImg (image path : string) : list string :=
  ["qemu-img"; "create"; "-f"; "qcow2"; "-b"; image; path].

(** A pair of neighbours in an argv. *)
Definition hasPair (argv : list string) (flag value : string) : Prop :=
  exists l1 l2 : list string, argv = l1 ++ [flag; value] ++ l2.

(** The flags [Start] appends for the machine itself, the memory flag, and
    the request it hands to the bridge, for stating what [Start] leaves in
    the config. *)
Definition backendFlags (kernel tapName netfs : string) : list string :=
  ["-kernel"; kernel;
   "-append"; dquote +:+ "root=/dev/sda" +:+ dquote;
   "-net"; "nic";
   "-net"; "tap,ifname=" +:+ tapName +:+ ",script=no,downscript=no";
   "-virtfs"; "fsdriver=local,path=" +:+ netfs
              +:+ ",security_model=passthrough,readonly,mount_tag=netfs";
   "-nographic"].

Definition memFlag (c : VMConfig) : list string :=
  if String.eqb (Memory c) EmptyString then [] else ["-m"; Memory c].

Definition request (c : VMConfig) (home : string) : Bridge.execReq :=
  {| Bridge.Uid := User c;
     Bridge.Gid := Group c;
     Bridge.Path := qemu;
     Bridge.Argv := qemu :: Args c;
     Bridge.Env := ["HOME=" +:+ home];
     Bridge.Dir := EmptyString |}.

End VM.

(** ** Sample worlds

    Concrete oracles, configs and instances on which the statements below
    are run. *)
Module Sample.

Definition tapOf (n : nat) : Tap :=
  {| Name := "flynntap" +:+ pretty n; RemoteIP := "10.0.0.2" |}.

(** An oracle by its points of failure: the answers to [TempDir], to
    [Chown], to the external tool, to the tap allocator and to
    [cmd.Start]; every other call succeeds. *)
Definition oracle (tempdir : nat -> result string)
    (chown : string -> option error) (run : option error * string)
    (newtap : nat -> result Tap) (spawn : result nat) : OS :=
  {| os_Args0 := "runner";
     os_HOME := "/root";
     os_Create := fun _ => None;
     os_TempDir := tempdir;
     os_Chmod := fun _ => None;
     os_Chown := fun path _ _ => chown path;
     os_Run := fun _ => run;
     os_Start := fun _ => spawn;
     os_Wait := fun _ => None;
     os_Kill := fun _ => None;
     taps_NewTap := fun n _ _ => newtap n;
     tap_WriteInterfaceConfig := fun _ => None |}.

Definition tmpOk (n : nat) : result string := Ok ("/tmp/" +:+ pretty n).

Definition osOk : OS :=
  oracle tmpOk (fun _ => None) (None, EmptyString) (fun n => Ok (tapOf n)) (Ok 42%nat).

(** The tap allocator has no device left. *)
Definition osNoTap : OS :=
  oracle tmpOk (fun _ => None) (None, EmptyString)
    (fun _ => Err "no tap device available") (Ok 42%nat).

(** The first temp directory (the one for the interface descriptor) cannot
    be created. *)
Definition osNoScratch : OS :=
  oracle (fun n => match n with
                   | O => Err "mkdir /tmp/0: no space left on device"
                   | _ => tmpOk n
                   end)
    (fun _ => None) (None, EmptyString) (fun n => Ok (tapOf n)) (Ok 42%nat).

(** Changing the owner of a directory is refused. *)
Definition osNoChown : OS :=
  oracle tmpOk (fun _ => Some "chown: operation not permitted") (None, EmptyString)
    (fun n => Ok (tapOf n)) (Ok 42%nat).

(** The overlay tool exits with status 1 after printing a diagnosis. *)
Definition toolOutput : string :=
  "qemu-img: rootfs.img: Could not open: No such file or directory".

Definition osToolFails : OS :=
  oracle tmpOk (fun _ => None) (Some "exit status 1", toolOutput)
    (fun n => Ok (tapOf n)) (Ok 42%nat).

Definition umlConfig : UML.UMLConfig :=
  {| UML.Path := "linux"; UML.User := 1000; UML.Group := 1000;
     UML.Memory := "512MB";
     UML.Drives := [{| UML.FS := "rootfs.img"; UML.COW := EmptyString;
                       UML.TempCOW := true |}];
     UML.Args := []; UML.Out := None; UML.hostFS := EmptyString |}.

Definition umlConfigNoDrives : UML.UMLConfig :=
  {| UML.Path := "linux"; UML.User := 1000; UML.Group := 1000;
     UML.Memory := "512MB"; UML.Drives := [];
     UML.Args := []; UML.Out := Some (Sink "console"); UML.hostFS := EmptyString |}.

Definition umlWorld (o : OS) (c : UML.UMLConfig) : World UML.UMLConfig :=
  mkWorld o [] 0 0 {[ 1%nat := c ]}.

Definition umlManager : UML.UMLManager := {| UML.nextID := 0 |}.

(** An instance as [NewInstance] leaves it, with the first tap. *)
Definition umlInst : UML.uml :=
  {| UML.ID := "flynn0"; UML.config := 1; UML.tap := Some (tapOf 0);
     UML.cmd := None; UML.tempFiles := [] |}.

Definition vmConfig : VM.VMConfig :=
  {| VM.Kernel := "vmlinuz"; VM.User := 1000; VM.Group := 1000;
     VM.Memory := "512";
     VM.Drives :=
       {[ "hda" := {| VM.FS := "rootfs.img"; VM.COW := EmptyString;
                      VM.TempCOW := true |};
          "hdb" := {| VM.FS := "data.img"; VM.COW := EmptyString;
                      VM.TempCOW := false |} ]};
     VM.Args := []; VM.Out := Some (Sink "console"); VM.netFS := EmptyString |}.

Definition vmWorld (o : OS) : World VM.VMConfig :=
  mkWorld o [] 0 0 {[ 1%nat := vmConfig ]}.

Definition vmInst : VM.vm :=
  {| VM.ID := "flynn0"; VM.config := 1; VM.tap := Some (tapOf 0);
     VM.cmd := None; VM.tempFiles := [] |}.

Definition req : Bridge.execReq :=
  {| Bridge.Uid := 1000; Bridge.Gid := 1000; Bridge.Path := "linux";
     Bridge.Argv := ["linux"; "mem=512MB"; EmptyString];
     Bridge.Env := ["HOME=/root"]; Bridge.Dir := "/var/empty" |}.

Definition sysOk : Bridge.Sys :=
  {| Bridge.sys_Setgid := fun _ => None;
     Bridge.sys_Setuid := fun _ => None;
     Bridge.sys_Chdir := fun _ => None;
     Bridge.sys_Exec := fun _ _ _ => None |}.

(** What a run lets one see: its outcome and the calls it made. *)
Definition observe {C A : Type} (r : outcome A * World C)
  : outcome A * list Event :=
  (fst r, trace (snd r)).

Definition count (ev : Event -> bool) (tr : list Event) : nat :=
  length (List.filter ev tr).

Definition isTapClose (ev : Event) : bool :=
  match ev with
  | EvTapClose _ => true
  | _ => false
  end.

Definition isRemoveAll (path : string) (ev : Event) : bool :=
  match ev with
  | EvRemoveAll p => String.eqb p path
  | _ => false
  end.

End Sample.

(** ** Vocabulary of the lifecycle statements *)

(** The config as [NewInstance] of backend A defaults it. *)
Definition defaulted (c : UML.UMLConfig) : UML.UMLConfig :=
  if (UML.Path c =? EmptyString)%string then UML.set_Path "linux" c else c.

(** The calls of a cleanup: every file of the list removed in order, then
    the tap closed, at the end of [evs]. *)
Definition cleanedUp (t : Tap) (files : list string) (evs : list Event) : Prop :=
  exists pre, evs = pre ++ map EvRemoveAll files ++ [EvTapClose (Name t)].

(** The flag of the [i]-th drive as the loop of backend A formats it. *)
Definition driveFlag (i : nat) (d : UML.UMLDrive) : string :=
  if String.eqb (UML.COW d) EmptyString
  then "ubd" +:+ pretty i +:+ "=" +:+ UML.FS d
  else "ubd" +:+ pretty i +:+ "=" +:+ UML.COW d +:+ "," +:+ UML.FS d.

(** The flags of the drive under key [i] as the loop of backend B formats
    them when the drive has no temp overlay; a key with no drive gives
    none. *)
Definition vmDriveFlags (drives : gmap string VM.VMDrive) (i : string)
  : list string :=
  match drives !! i with
  | Some d => ["-" +:+ i; VM.FS d]
  | None => []
  end.

(** ** The image file of the runners

    [createFS] of the two [main] files: a sparse file of [size + 1] bytes
    with a file system made in it. The two differ in the tool they run
    ([mkfs.ext4 -Fq] and [mkfs.btrfs]), which is a parameter here, as is the
    [%q] quoting of the tool's output. The errors of [Chown], [Close] and
    [Remove] are dropped by the code, so their answers are not consulted. *)
Module Image.

(** Calls on the file system, in the order they are made. [FTempFile]
    records a file that was created; the other events record the call
    whether or not it succeeds. *)
Inductive FileEvent :=
| FTempFile (name : string)
| FSeek (name : string) (offset : Z)
| FWrite (name : string) (bytes : list ascii)
| FChown (name : string) (uid gid : Z)
| FClose (name : string)
| FRemove (name : string)
| FCommand (argv : list string).

Record Files := {
  io_TempFile : result string;
  f_Seek : string -> Z -> option error;
  f_Write : string -> list ascii -> option error;
  cmd_CombinedOutput : list string -> list ascii * option error;
}.

Section CreateFS.
Variable tool : string.
Variable flags : list string.
Variable quote : list ascii -> string.

Definition mkfs (name : string) : list string := tool :: flags ++ [name].

Definition createFS (o : Files) (size uid gid : Z)
  : (string * option error) * list FileEvent :=
  match io_TempFile o with
  | Err e => ((EmptyString, Some e), [])
  | Ok name =>
      match f_Seek o name size with
      | Some e =>
          ((EmptyString, Some e),
           [FTempFile name; FSeek name size; FClose name; FRemove name])
      | None =>
          match f_Write o name ["000"%char] with
          | Some e =>
              ((EmptyString, Some e),
               [FTempFile name; FSeek name size; FWrite name ["000"%char];
                FClose name; FRemove name])
          | None =>
              let tr := [FTempFile name; FSeek name size;
                         FWrite name ["000"%char]; FChown name uid gid;
                         FClose name; FCommand (mkfs name)] in
              match cmd_CombinedOutput o (mkfs name) with
              | (res, Some e) =>
                  ((EmptyString,
                    Some (tool +:+ " error " +:+ e +:+ " - " +:+ quote res)),
                   tr)
              | (_, None) => ((name, None), tr)
              end
          end
      end
  end.

End CreateFS.

End Image.

(** [createFS] of the UML runner. *)
Module UMLRunner.
Definition createFS (quote : list ascii -> string) :=
  Image.createFS "mkfs.ext4" ["-Fq"] quote.
End UMLRunner.

(** [createFS] of the QEMU runner. *)
Module QEMURunner.
Definition createFS (quote : list ascii -> string) :=
  Image.createFS "mkfs.btrfs" [] quote.
End QEMURunner.

(** ** Further sample worlds *)
Module Cases.

(** The bridge cannot be spawned. *)
Definition osNoSpawn : OS :=
  Sample.oracle Sample.tmpOk (fun _ => None) (None, EmptyString)
    (fun n => Ok (Sample.tapOf n)) (Err "fork/exec runner: permission denied").

(** The image file is created and written, and the tool then fails. *)
Definition filesToolFails : Image.Files :=
  {| Image.io_TempFile := Ok "/tmp/img";
     Image.f_Seek := fun _ _ => None;
     Image.f_Write := fun _ _ => None;
     Image.cmd_CombinedOutput := fun _ =>
       (list_ascii_of_string "mkfs: bad", Some "exit status 1") |}.

End Cases.


(** * Properties *)

Ltac Zify.zify_post_hook ::= Z.to_euclidean_division_equations.

(** A property checked on every number below a bound holds below it. *)
Lemma N_forallb_lt (P : N -> bool) (n : nat) :
  forallb P (map N.of_nat (seq 0 n)) = true ->
  forall i : N, (i < N.of_nat n)%N -> P i = true.
Proof.
  intros H i Hi. rewrite forallb_forall in H. apply H.
  apply in_map_iff. exists (N.to_nat i). split; [lia|].
  apply in_seq. lia.
Qed.

Module Base64Facts.
Import Base64.

Lemma sextet_ok_all i : (i < 64)%N -> sextet_ok i = true.
Proof. apply (N_forallb_lt sextet_ok 64). vm_compute. reflexivity. Qed.

Lemma dec_enc i : (i < 64)%N -> dec (enc i) = Some i.
Proof.
  intros H. apply sextet_ok_all in H. unfold sextet_ok in H.
  apply andb_true_iff in H as [H _].
  destruct (dec (enc i)) as [j|]; [|discriminate].
  apply N.eqb_eq in H. congruence.
Qed.

Lemma enc_not_newline i : (i < 64)%N -> isNewline (enc i) = false.
Proof.
  intros H. apply sextet_ok_all in H. unfold sextet_ok in H.
  apply andb_true_iff in H as [_ H]. by apply negb_true_iff in H.
Qed.

Lemma dec_pad : dec "="%char = None.
Proof. reflexivity. Qed.

Lemma byte_lt (a : ascii) : (N_of_ascii a < 256)%N.
Proof. apply N_ascii_bounded. Qed.

Lemma list_ind3 {A} (P : list A -> Prop) :
  P [] -> (forall a, P [a]) -> (forall a b, P [a; b]) ->
  (forall a b c l, P l -> P (a :: b :: c :: l)) ->
  forall l, P l.
Proof.
  intros H0 H1 H2 H3.
  fix IH 1. intros [|a [|b [|c l]]]; [exact H0 | exact (H1 a) | exact (H2 a b) |].
  apply H3. apply IH.
Qed.

Lemma Encode_no_newline (src : list ascii) :
  List.filter (fun c => negb (isNewline c)) (Encode src) = Encode src.
Proof.
  induction src as [|a|a b|a b c l IH] using list_ind3; [done|..];
    pose proof (byte_lt a); try pose proof (byte_lt b); try pose proof (byte_lt c);
    cbn [Encode List.filter];
    rewrite ?enc_not_newline by lia; cbn; rewrite ?IH; reflexivity.
Qed.

Lemma bytes_recombine1 (a b : N) :
  (a < 256)%N -> (b < 256)%N ->
  ((a / 4 * 4 + (a mod 4 * 16 + b / 16) / 16) mod 256 = a)%N.
Proof. lia. Qed.

Lemma bytes_recombine2 (a b c : N) :
  (a < 256)%N -> (b < 256)%N -> (c < 256)%N ->
  (((a mod 4 * 16 + b / 16) * 16 + (b mod 16 * 4 + c / 64) / 4) mod 256 = b)%N.
Proof. lia. Qed.

Lemma bytes_recombine3 (b c : N) :
  (b < 256)%N -> (c < 256)%N ->
  (((b mod 16 * 4 + c / 64) * 64 + c mod 64) mod 256 = c)%N.
Proof. lia. Qed.

Lemma decodeQuanta_full c0 c1 c2 c3 rest s0 s1 s2 s3 :
  dec c0 = Some s0 -> dec c1 = Some s1 -> dec c2 = Some s2 -> dec c3 = Some s3 ->
  decodeQuanta (c0 :: c1 :: c2 :: c3 :: rest) =
  match decodeQuanta rest with
  | Some out => Some (byte1 s0 s1 :: byte2 s1 s2 :: byte3 s2 s3 :: out)
  | None => None
  end.
Proof.
  intros H0 H1 H2 H3. destruct rest; simpl; rewrite H0, H1, H2, H3; reflexivity.
Qed.

Lemma decodeQuanta_Encode (src : list ascii) :
  decodeQuanta (Encode src) = Some src.
Proof.
  induction src as [|a|a b|a b c l IH] using list_ind3; [done|..];
    pose proof (byte_lt a) as Ha; try pose proof (byte_lt b) as Hb;
    try pose proof (byte_lt c) as Hc.
  - simpl. rewrite !dec_enc by lia. rewrite ?dec_pad. simpl.
    unfold byte1.
    replace ((N_of_ascii a / 4 * 4 + N_of_ascii a mod 4 * 16 / 16) mod 256)%N
      with (N_of_ascii a) by lia.
    by rewrite ascii_N_embedding.
  - simpl. rewrite !dec_enc by lia. rewrite ?dec_pad. simpl.
    unfold byte1, byte2.
    rewrite bytes_recombine1 by lia.
    replace (((N_of_ascii a mod 4 * 16 + N_of_ascii b / 16) * 16
              + N_of_ascii b mod 16 * 4 / 4) mod 256)%N
      with (N_of_ascii b) by lia.
    by rewrite !ascii_N_embedding.
  - cbn [Encode].
    erewrite decodeQuanta_full by (apply dec_enc; lia).
    rewrite IH. unfold byte1, byte2, byte3.
    rewrite bytes_recombine1, bytes_recombine2, bytes_recombine3 by lia.
    by rewrite !ascii_N_embedding.
Qed.

Lemma Decode_Encode (src : list ascii) : Decode (Encode src) = Some src.
Proof. unfold Decode. rewrite Encode_no_newline. apply decodeQuanta_Encode. Qed.

End Base64Facts.

Module GobFacts.
Import Gob Bridge.


Lemma length_be_bytes n x : length (be_bytes n x) = n.
Proof.
  revert x. induction n as [|n IH]; intros x; simpl; [done|].
  rewrite length_app, IH. simpl. lia.
Qed.

Lemma from_be_snoc l b : from_be (l ++ [b]) = (from_be l * 256 + N_of_ascii b)%N.
Proof. unfold from_be. by rewrite fold_left_app. Qed.

Lemma from_be_be_bytes n x :
  (x < 256 ^ N.of_nat n)%N -> from_be (be_bytes n x) = x.
Proof.
  revert x. induction n as [|n IH]; intros x Hx.
  - simpl in *. unfold from_be. simpl. lia.
  - simpl. rewrite from_be_snoc, IH.
    + rewrite N_ascii_embedding by lia. lia.
    + rewrite Nat2N.inj_succ, N.pow_succ_r' in Hx. lia.
Qed.

Lemma encodeUint_nonempty x : exists b bs, encodeUint x = b :: bs.
Proof. unfold encodeUint. destruct (x <=? 127)%N; eauto. Qed.

Lemma length_encodeUint_pos x : (1 <= length (encodeUint x))%nat.
Proof. destruct (encodeUint_nonempty x) as (b & bs & ->). simpl. lia. Qed.

Lemma byte_count_bound x :
  (127 < x)%N -> uint64 x ->
  let n := (uint64Size - (63 - N.log2 x) / 8)%N in
  (1 <= n <= 8)%N /\ (x < 256 ^ n)%N.
Proof.
  intros Hlo Hhi n. unfold uint64 in Hhi.
  assert (Hpos : (0 < x)%N) by lia.
  destruct (N.log2_spec x Hpos) as [Hl Hu].
  assert (N.log2 x < 64)%N as Hlog.
  { apply N.log2_lt_pow2; [lia|]. exact Hhi. }
  assert (7 <= N.log2 x)%N as Hlog7.
  { apply N.log2_le_pow2; [lia|]. simpl. lia. }
  unfold n, uint64Size. split; [lia|].
  eapply N.lt_le_trans; [exact Hu|].
  change 256%N with (2 ^ 8)%N. rewrite <- N.pow_mul_r.
  apply N.pow_le_mono_r; lia.
Qed.

Lemma decodeUint_encodeUint x rest :
  uint64 x -> decodeUint (encodeUint x ++ rest) = Some (x, rest).
Proof.
  intros Hx. unfold encodeUint.
  destruct (x <=? 127)%N eqn:Hsmall.
  - apply N.leb_le in Hsmall. simpl.
    rewrite N_ascii_embedding by lia.
    apply N.leb_le in Hsmall. by rewrite Hsmall.
  - apply N.leb_gt in Hsmall.
    destruct (byte_count_bound x Hsmall Hx) as [Hn Hpow].
    set (n := (uint64Size - (63 - N.log2 x) / 8)%N) in *.
    cbn [app decodeUint].
    rewrite N_ascii_embedding by lia.
    replace (256 - n <=? 127)%N with false by (symmetry; apply N.leb_gt; lia).
    replace (256 - (256 - n))%N with n by lia.
    replace (uint64Size <? n)%N with false
      by (symmetry; apply N.ltb_ge; unfold uint64Size; lia).
    rewrite length_app, length_be_bytes.
    replace (N.of_nat (N.to_nat n + length rest) <? n)%N with false
      by (symmetry; apply N.ltb_ge; lia).
    rewrite take_app_length', drop_app_length' by (by rewrite length_be_bytes).
    rewrite from_be_be_bytes by (rewrite N2Nat.id; exact Hpow).
    reflexivity.
Qed.

Lemma lor_shiftl_1 a : (0 <= a)%Z -> Z.lor (Z.shiftl a 1) 1 = (2 * a + 1)%Z.
Proof. intros Ha. destruct a; [reflexivity|reflexivity|lia]. Qed.

Lemma shiftl_1 a : Z.shiftl a 1 = (2 * a)%Z.
Proof. destruct a; reflexivity. Qed.

Lemma decodeInt_encodeInt i rest :
  int64 i -> decodeInt (encodeInt i ++ rest) = Some (i, rest).
Proof.
  intros Hi. unfold int64 in Hi. unfold encodeInt, decodeInt.
  destruct (i <? 0)%Z eqn:Hneg.
  - apply Z.ltb_lt in Hneg.
    rewrite lor_shiftl_1 by (unfold Z.lnot; lia).
    rewrite decodeUint_encodeUint by (unfold uint64, Z.lnot; lia).
    rewrite (N.land_ones _ 1), N.shiftr_div_pow2.
    change (2 ^ 1)%N with 2%N.
    replace (Z.to_N (2 * Z.lnot i + 1) mod 2 =? 0)%N with false
      by (symmetry; apply N.eqb_neq; unfold Z.lnot; lia).
    f_equal. f_equal. unfold Z.lnot. lia.
  - apply Z.ltb_ge in Hneg. rewrite shiftl_1.
    rewrite decodeUint_encodeUint by (unfold uint64; lia).
    rewrite (N.land_ones _ 1), N.shiftr_div_pow2.
    change (2 ^ 1)%N with 2%N.
    replace (Z.to_N (2 * i) mod 2 =? 0)%N with true
      by (symmetry; apply N.eqb_eq; lia).
    f_equal. f_equal. lia.
Qed.

Lemma length_list_ascii_of_string s :
  length (list_ascii_of_string s) = String.length s.
Proof. induction s; simpl; congruence. Qed.


Lemma decodeString_encodeString s rest :
  wfString s -> decodeString (encodeString s ++ rest) = Some (s, rest).
Proof.
  intros Hs. unfold decodeString, encodeString.
  rewrite <- app_assoc, decodeUint_encodeUint by exact Hs.
  rewrite length_app, length_list_ascii_of_string.
  replace (N.of_nat (String.length s + length rest) <? N.of_nat (String.length s))%N
    with false by (symmetry; apply N.ltb_ge; lia).
  rewrite Nat2N.id.
  rewrite take_app_length', drop_app_length' by (by rewrite length_list_ascii_of_string).
  by rewrite string_of_list_ascii_of_string.
Qed.

Lemma decodeElems_encode l rest :
  Forall wfString l ->
  decodeElems (length l) (concat (map encodeString l) ++ rest) = Some (l, rest).
Proof.
  induction 1 as [|s l Hs Hl IH]; [done|].
  simpl. rewrite <- app_assoc, decodeString_encodeString by done.
  by rewrite IH.
Qed.

Lemma length_concat_encodeString l :
  (length l <= length (concat (map encodeString l)))%nat.
Proof.
  induction l as [|s l IH]; simpl; [lia|].
  rewrite length_app. unfold encodeString at 1. rewrite length_app.
  pose proof (length_encodeUint_pos (N.of_nat (String.length s))). lia.
Qed.

Lemma decodeValue_encodeValue v rest :
  wfVal v -> decodeValue (typeOf v) (encodeValue v ++ rest) = Some (v, rest).
Proof.
  destruct v as [i|s|l]; simpl; intros Hv.
  - by rewrite decodeInt_encodeInt.
  - by rewrite decodeString_encodeString.
  - destruct Hv as [Hn Hl].
    rewrite <- app_assoc, decodeUint_encodeUint by done.
    pose proof (length_concat_encodeString l).
    rewrite length_app.
    replace (N.of_nat (length (concat (map encodeString l)) + length rest)
             <? N.of_nat (length l))%N
      with false by (symmetry; apply N.ltb_ge; lia).
    by rewrite Nat2N.id, decodeElems_encode.
Qed.

Lemma isZero_zeroValue v : isZero v = true -> zeroValue (typeOf v) = v.
Proof.
  destruct v as [i|s|l]; simpl; intros H.
  - apply Z.eqb_eq in H. by subst.
  - destruct s; [done|discriminate].
  - destruct l; [done|discriminate].
Qed.

Lemma decodeFields_step fuel engine fieldnum acc b bs :
  decodeFields (S fuel) engine fieldnum acc (b :: bs) =
  match decodeUint (b :: bs) with
  | None => None
  | Some (delta, rest) =>
      if (delta =? 0)%N then Some (acc, rest)
      else
        let fieldnum' := (fieldnum + Z.of_N delta)%Z in
        match engine !! Z.to_nat fieldnum' with
        | None => None
        | Some (slot, t) =>
            match decodeValue t rest with
            | None => None
            | Some (v, rest') =>
                let acc' := match slot with
                            | Some k => <[k := v]> acc
                            | None => acc
                            end in
                decodeFields fuel engine fieldnum' acc' rest'
            end
        end
  end.
Proof. reflexivity. Qed.

Lemma decodeFields_step_uint fuel engine fieldnum acc x rest :
  uint64 x ->
  decodeFields (S fuel) engine fieldnum acc (encodeUint x ++ rest) =
  if (x =? 0)%N then Some (acc, rest)
  else
    let fieldnum' := (fieldnum + Z.of_N x)%Z in
    match engine !! Z.to_nat fieldnum' with
    | None => None
    | Some (slot, t) =>
        match decodeValue t rest with
        | None => None
        | Some (v, rest') =>
            let acc' := match slot with
                        | Some k => <[k := v]> acc
                        | None => acc
                        end in
            decodeFields fuel engine fieldnum' acc' rest'
        end
    end.
Proof.
  intros Hx. pose proof (decodeUint_encodeUint x rest Hx) as Hd.
  destruct (encodeUint_nonempty x) as (b & bs & Heq).
  rewrite Heq in *. cbn [app] in *.
  by rewrite decodeFields_step, Hd.
Qed.

Lemma decodeFields_encodeFields (vs : list gval) :
  forall (pre : list gval) engine fuel fieldnum (rest : list ascii),
    Forall wfVal vs ->
    (forall k v, (pre ++ vs) !! k = Some v ->
                 engine !! k = Some (Some k, typeOf v)) ->
    (-1 <= fieldnum < Z.of_nat (length pre))%Z ->
    uint64 (N.of_nat (length (pre ++ vs))) ->
    (length (encodeFields fieldnum (Z.of_nat (length pre)) vs
               ++ encodeUint 0 ++ rest) < fuel)%nat ->
    decodeFields fuel engine fieldnum
      (pre ++ map (fun v => zeroValue (typeOf v)) vs)
      (encodeFields fieldnum (Z.of_nat (length pre)) vs ++ encodeUint 0 ++ rest)
    = Some (pre ++ vs, rest).
Proof.
  induction vs as [|v vs IH]; intros pre engine fuel fieldnum rest Hwf Heng Hfn Hlen Hfuel.
  - cbn [encodeFields map app] in *. destruct fuel as [|fuel]; [lia|].
    rewrite decodeFields_step_uint by (unfold uint64; lia). done.
  - inversion Hwf as [|? ? Hv Hvs]; subst.
    assert (Hlen' : length (pre ++ [v]) = S (length pre))
      by (rewrite length_app; simpl; lia).
    assert (Hsplit : forall l : list gval, pre ++ v :: l = (pre ++ [v]) ++ l)
      by (intros l; by rewrite <- app_assoc).
    assert (Heng' : forall k w, ((pre ++ [v]) ++ vs) !! k = Some w ->
                                engine !! k = Some (Some k, typeOf w))
      by (intros k w Hk; apply Heng; by rewrite Hsplit).
    assert (Hidx : (Z.of_nat (length pre) + 1)%Z = Z.of_nat (length (pre ++ [v])))
      by lia.
    cbn [encodeFields map] in *.
    destruct (isZero v) eqn:Hz.
    + rewrite (isZero_zeroValue v Hz), (Hsplit vs), (Hsplit (map _ vs)), Hidx.
      rewrite Hidx in Hfuel.
      apply IH; [exact Hvs | exact Heng' | lia | by rewrite <- Hsplit | exact Hfuel].
    + rewrite <- !app_assoc. rewrite <- !app_assoc in Hfuel.
      destruct fuel as [|fuel]; [simpl in Hfuel; lia|].
      assert (Hux : uint64 (Z.to_N (Z.of_nat (length pre) - fieldnum))).
      { unfold uint64 in *. rewrite length_app in Hlen. simpl in Hlen. lia. }
      rewrite decodeFields_step_uint by exact Hux.
      replace (Z.to_N (Z.of_nat (length pre) - fieldnum) =? 0)%N with false
        by (symmetry; apply N.eqb_neq; lia).
      cbv zeta.
      replace (fieldnum + Z.of_N (Z.to_N (Z.of_nat (length pre) - fieldnum)))%Z
        with (Z.of_nat (length pre)) by lia.
      rewrite Nat2Z.id.
      rewrite (Heng (length pre) v) by (by rewrite list_lookup_middle).
      rewrite decodeValue_encodeValue by done.
      rewrite insert_app_r_alt by lia.
      rewrite Nat.sub_diag. cbn [insert list_insert].
      rewrite (Hsplit vs), (Hsplit (map _ vs)), Hidx.
      apply IH; [exact Hvs | exact Heng' | lia | by rewrite <- Hsplit |].
      rewrite !length_app in Hfuel. rewrite <- Hidx, !length_app.
      pose proof (length_encodeUint_pos (Z.to_N (Z.of_nat (length pre) - fieldnum))).
      simpl in *. lia.
Qed.

Lemma decodeStruct_encodeStruct (vs : list gval) engine :
  Forall wfVal vs ->
  uint64 (N.of_nat (length vs)) ->
  (forall k v, vs !! k = Some v -> engine !! k = Some (Some k, typeOf v)) ->
  decodeStruct engine (map (fun v => zeroValue (typeOf v)) vs) (encodeStruct vs)
  = Some (vs, []).
Proof.
  intros Hwf Hlen Heng. unfold decodeStruct, encodeStruct.
  pose proof (decodeFields_encodeFields vs [] engine
                (S (length (encodeFields (-1) 0 vs ++ encodeUint 0))) (-1) []) as H.
  rewrite !app_nil_r in H. cbn [app length] in H.
  change (Z.of_nat 0) with 0%Z in H.
  apply H; [exact Hwf | exact Heng | lia | exact Hlen | lia].
Qed.

Lemma recvMessage_message body rest :
  uint64 (N.of_nat (length body)) ->
  recvMessage (message body ++ rest) = Some (body, rest).
Proof.
  intros Hlen. unfold recvMessage, message.
  rewrite <- app_assoc, decodeUint_encodeUint by exact Hlen.
  rewrite length_app.
  replace (N.of_nat (length body + length rest) <? N.of_nat (length body))%N
    with false by (symmetry; apply N.ltb_ge; lia).
  by rewrite Nat2N.id, take_app_length, drop_app_length.
Qed.

Lemma decodeTypeSequence_type fuel wire id w rest :
  uint64 (N.of_nat (length (encodeInt (- id) ++ encodeWireType w))) ->
  int64 id -> (firstUserId <= id)%Z ->
  wire !! id = None ->
  decodeWireType (encodeWireType w) = Some w ->
  decodeTypeSequence (S fuel) wire
    (message (encodeInt (- id) ++ encodeWireType w) ++ rest)
  = decodeTypeSequence fuel (<[id := w]> wire) rest.
Proof.
  intros Hlen Hid Hfirst Hfresh Hw. unfold firstUserId, int64 in *.
  cbn [decodeTypeSequence].
  rewrite recvMessage_message by exact Hlen. cbn [mbind option_bind].
  rewrite decodeInt_encodeInt by (unfold int64; lia). cbn [mbind option_bind].
  replace (0 <=? - id)%Z with false by (symmetry; apply Z.leb_gt; lia).
  rewrite Z.opp_involutive.
  replace (id <? firstUserId)%Z with false
    by (symmetry; apply Z.ltb_ge; unfold firstUserId; lia).
  by rewrite Hfresh, Hw.
Qed.

Lemma decodeTypeSequence_value fuel wire id body rest :
  uint64 (N.of_nat (length (encodeInt id ++ body))) ->
  int64 id -> (0 <= id)%Z ->
  decodeTypeSequence (S fuel) wire (message (encodeInt id ++ body) ++ rest)
  = Some (id, wire, body).
Proof.
  intros Hlen Hid Hpos. cbn [decodeTypeSequence].
  rewrite recvMessage_message by exact Hlen. cbn [mbind option_bind].
  rewrite decodeInt_encodeInt by exact Hid. cbn [mbind option_bind].
  by replace (0 <=? id)%Z with true by (symmetry; apply Z.leb_le; lia).
Qed.

Lemma Decode_Encode_execReq r :
  wfReq r ->
  Decode execReqInfo (Encode execReqInfo (execReq_fields r))
  = Some (execReq_fields r).
Proof.
  intros (Hu & Hg & Hp & Ha & He & Hd & Hlen).
  unfold Decode, Encode.
  change (usesStrings execReqInfo) with true. cbv iota.
  set (m1 := message (encodeInt (- structId) ++ _)).
  set (m2 := message (encodeInt (- stringsId) ++ _)).
  set (m3 := message (encodeInt structId ++ encodeStruct (execReq_fields r))).
  set (stream := m1 ++ m2 ++ m3).
  assert (Hfuel : exists k, S (length stream) = S (S (S k))).
  { exists (length stream - 2)%nat. subst stream.
    rewrite !length_app.
    assert (0 < length m1)%nat by (vm_compute; lia).
    assert (0 < length m2)%nat by (vm_compute; lia).
    lia. }
  destruct Hfuel as [k ->]. subst stream m1 m2.
  rewrite decodeTypeSequence_type;
    [| by vm_compute | by vm_compute | by vm_compute | by vm_compute | by vm_compute].
  rewrite <- (app_nil_r m3).
  rewrite decodeTypeSequence_type;
    [| by vm_compute | by vm_compute | by vm_compute | by vm_compute | by vm_compute].
  subst m3.
  rewrite decodeTypeSequence_value; [| exact Hlen | by vm_compute | by vm_compute].
  cbn [mbind option_bind].
  set (wire := <[stringsId := _]> _).
  assert (Heng : compileDec wire execReqInfo structId =
            Some [(Some 0%nat, TInt); (Some 1%nat, TInt); (Some 2%nat, TString);
                  (Some 3%nat, TStrings); (Some 4%nat, TStrings);
                  (Some 5%nat, TString)]) by (by vm_compute).
  rewrite Heng. cbn [mbind option_bind].
  change (map (fun f => zeroValue (snd f)) (sfields execReqInfo))
    with (map (fun v => zeroValue (typeOf v)) (execReq_fields r)).
  rewrite decodeStruct_encodeStruct; [done | | by vm_compute |].
  - unfold execReq_fields. repeat (apply Forall_cons; split; [done|]). apply Forall_nil_2.
  - intros [|[|[|[|[|[|j]]]]]] v Hv; simpl in Hv; inversion Hv; reflexivity.
Qed.

End GobFacts.

(** ** The exec bridge *)
Module BridgeFacts.
Import Bridge.

Lemma decodeReq_encodeReq (r : execReq) :
  wfReq r -> decodeReq (encodeReq r) = Some r.
Proof.
  intros Hr. unfold decodeReq, encodeReq.
  rewrite list_ascii_of_string_of_list_ascii, Base64Facts.Decode_Encode.
  cbn [mbind option_bind].
  rewrite (GobFacts.Decode_Encode_execReq r Hr). cbn [mbind option_bind].
  destruct r; reflexivity.
Qed.

Lemma Gob_Encode_nonempty info vs : Gob.Encode info vs <> [].
Proof.
  unfold Gob.Encode, Gob.message.
  destruct (GobFacts.encodeUint_nonempty
              (N.of_nat (length (Gob.encodeInt (- Gob.structId)
                                   ++ Gob.encodeWireType (Gob.structWire info)))))
    as (b & bs & ->).
  discriminate.
Qed.

Lemma Base64_Encode_nonempty (src : list ascii) :
  src <> [] -> Base64.Encode src <> [].
Proof. destruct src as [|a [|b [|c l]]]; [done|discriminate..]. Qed.

Lemma encodeReq_nonempty (r : execReq) : encodeReq r <> EmptyString.
Proof.
  unfold encodeReq.
  pose proof (Base64_Encode_nonempty _ (Gob_Encode_nonempty execReqInfo
                                          (execReq_fields r))) as H.
  destruct (Base64.Encode _); [done|discriminate].
Qed.

Lemma Getenv_exec_req (buf : string) :
  Getenv ["_EXEC_REQ=" +:+ buf] "_EXEC_REQ" = buf.
Proof. reflexivity. Qed.

Lemma maybeExec_absent sys environ tr :
  Getenv environ "_EXEC_REQ" = EmptyString -> maybeExec sys environ tr = (inl tt, tr).
Proof. intros H. unfold maybeExec. rewrite H. reflexivity. Qed.

(** [maybeExec] on a request that decodes: its calls and its end are those
    of taking the steps of the plan until one fails. *)
Lemma maybeExec_attempt sys environ req :
  Getenv environ "_EXEC_REQ" <> EmptyString ->
  decodeReq (Getenv environ "_EXEC_REQ") = Some req ->
  maybeExec sys environ [] =
  (inr (snd (attempt sys (plan req))), fst (attempt sys (plan req))).
Proof.
  intros Hne Hdec. unfold maybeExec.
  apply String.eqb_neq in Hne. rewrite Hne, Hdec.
  unfold plan, mbind, P_bind, mret, P_ret, call, Fatalf, Exec.
  destruct (0 <? Gid req)%Z, (0 <? Uid req)%Z, (Dir req =? EmptyString)%string; simpl;
    repeat match goal with
      | |- context [sys_Setgid ?s ?g] => destruct (sys_Setgid s g); simpl
      | |- context [sys_Setuid ?s ?g] => destruct (sys_Setuid s g); simpl
      | |- context [sys_Chdir ?s ?g] => destruct (sys_Chdir s g); simpl
      | |- context [sys_Exec ?s ?p ?a ?e] => destruct (sys_Exec s p a e); simpl
      end; reflexivity.
Qed.

Lemma attempt_prefix sys steps : fst (attempt sys steps) `prefix_of` steps.
Proof.
  induction steps as [|ev rest IH]; simpl; [done|].
  destruct (stepError sys ev).
  - simpl. by apply prefix_cons, prefix_nil.
  - destruct (attempt sys rest) as [tr h]. simpl in *. by apply prefix_cons.
Qed.

(** Every attempted step but the last went through; the process is replaced
    exactly when all did, and otherwise dies of the step that failed, which
    is the last one attempted. *)
Lemma attempt_outcome sys steps :
  let tr := fst (attempt sys steps) in
  let h := snd (attempt sys steps) in
  (forall i ev, tr !! i = Some ev -> (S i < length tr)%nat ->
                stepError sys ev = None)
  /\ ((h = Replaced /\ tr = steps
       /\ forall ev, ev ∈ tr -> stepError sys ev = None)
      \/ (exists ev f, h = Fatal f /\ last tr = Some ev
                       /\ stepError sys ev = Some f)).
Proof.
  induction steps as [|ev rest IH]; simpl.
  - split; [intros i ev H; by rewrite lookup_nil in H|].
    left. repeat split. intros ev H. by apply elem_of_nil in H.
  - destruct (stepError sys ev) as [f|] eqn:Hev; simpl.
    + split.
      * intros [|i] ev' H Hlt; simpl in *; lia.
      * right. exists ev, f. done.
    + destruct (attempt sys rest) as [tr h]. simpl in *.
      destruct IH as [IH1 IH2]. split.
      * intros [|i] ev' H Hlt; simpl in *.
        -- by inversion H; subst.
        -- apply (IH1 i ev' H). lia.
      * destruct IH2 as [(-> & -> & Hall)|(ev' & f & -> & Hlast & Hf)].
        -- left. repeat split. intros ev' [->|H]%elem_of_cons; auto.
        -- right. exists ev', f. repeat split; [|done].
           destruct tr; [done|]. done.
Qed.

End BridgeFacts.

(** C3. The request that [execReq.start] puts into [_EXEC_REQ] (gob, then
    base64) is read back from the environment of the child as the same
    request: same uid, gid, path, argv, env and dir, and the variable is
    not empty, so [maybeExec] does not skip it. *)
Theorem exec_request_round_trip (C : Type) (r : Bridge.execReq)
    (out : option string) (w : World C) :
  Bridge.wfReq r ->
  exists cmd err w',
    Bridge.start r out w = (Returned (Some cmd, err), w')
    /\ Getenv (cmd_Env cmd) "_EXEC_REQ" = Bridge.encodeReq r
    /\ Getenv (cmd_Env cmd) "_EXEC_REQ" <> EmptyString
    /\ Bridge.decodeReq (Getenv (cmd_Env cmd) "_EXEC_REQ") = Some r.
Proof.
  intros Hr. unfold Bridge.start, CmdStart, ask, emit, mbind, M_bind, mret, M_ret.
  cbn [os cmd_Env].
  destruct (os_Start (os w) _) as [pid|e];
    (do 3 eexists; split; [reflexivity|]; cbn [cmd_Env];
     rewrite BridgeFacts.Getenv_exec_req;
     split; [reflexivity|];
     split; [apply BridgeFacts.encodeReq_nonempty
            |by apply BridgeFacts.decodeReq_encodeReq]).
Qed.


Module PlanFacts.
Import Bridge.

Ltac plan_cases req :=
  unfold plan; destruct (0 <? Gid req)%Z eqn:?, (0 <? Uid req)%Z eqn:?,
    (Dir req =? EmptyString)%string eqn:?.

Ltac index_cases i :=
  destruct i as [|[|[|[|[|i]]]]]; simpl in *; try discriminate.

Lemma plan_setgid req i g :
  plan req !! i = Some (SysSetgid g) -> g = Gid req /\ (0 < g)%Z /\ i = 0%nat.
Proof.
  plan_cases req; intros H; index_cases i; inversion H; subst;
    repeat split; lia.
Qed.

Lemma plan_setuid req i u :
  plan req !! i = Some (SysSetuid u) ->
  u = Uid req /\ (0 < u)%Z /\ (i <= 1)%nat
  /\ forall g, plan req !! i <> Some (SysSetgid g).
Proof.
  plan_cases req; intros H; index_cases i; inversion H; subst;
    repeat split; try lia; intros g' Hg; discriminate.
Qed.

Lemma plan_gid_before_uid req i j g u :
  plan req !! i = Some (SysSetgid g) -> plan req !! j = Some (SysSetuid u) ->
  (i < j)%nat.
Proof.
  intros Hi Hj. destruct (plan_setgid req i g Hi) as (_ & _ & ->).
  destruct j; [|lia]. destruct (plan_setuid req 0 u Hj) as (_ & _ & _ & Hno).
  by destruct (Hno g).
Qed.

Lemma plan_exec_last req i p a e :
  plan req !! i = Some (SysExec p a e) ->
  S i = length (plan req)
  /\ p = Path req /\ a = Argv req /\ e = Env req.
Proof.
  plan_cases req; intros H; index_cases i; inversion H; subst; done.
Qed.

Lemma plan_before_exec req i j ev p a e :
  plan req !! i = Some ev -> plan req !! j = Some (SysExec p a e) ->
  i <> j -> (i < j)%nat.
Proof.
  intros Hi Hj Hne. destruct (plan_exec_last req j p a e Hj) as [Hlen _].
  apply lookup_lt_Some in Hi. lia.
Qed.

Lemma plan_chdir req i d :
  plan req !! i = Some (SysChdir d) -> d = Dir req /\ d <> EmptyString.
Proof.
  plan_cases req; intros H; index_cases i; inversion H; subst;
    split; try done; by apply String.eqb_neq.
Qed.

Lemma plan_unprivileged req ev :
  Uid req = 0%Z -> Gid req = 0%Z -> ev ∈ plan req -> isPrivilegeCall ev = false.
Proof.
  intros Hu Hg. unfold plan. rewrite Hu, Hg. simpl.
  destruct (Dir req =? EmptyString)%string; intros Hin;
    repeat (apply elem_of_cons in Hin as [->|Hin]; [reflexivity|]);
    by apply elem_of_nil in Hin.
Qed.

End PlanFacts.

(** C4. For a request that decodes, [maybeExec] takes the steps of
    [Bridge.plan] in order and stops at the first that fails: setgid only
    for a gid above 0 and before setuid, setuid only for a uid above 0,
    chdir only for a non-empty dir and before exec, exec last. With uid and
    gid 0 there is no setgid or setuid call. A failing step is the last call
    made and ends the process with exit status 1; when no step fails the
    whole plan has run and the process image is replaced. *)
Theorem maybeExec_privilege_drop (sys : Bridge.Sys) (environ : list string)
    (req : Bridge.execReq) :
  Getenv environ "_EXEC_REQ" <> EmptyString ->
  Bridge.decodeReq (Getenv environ "_EXEC_REQ") = Some req ->
  exists tr h,
    Bridge.maybeExec sys environ [] = (inr h, tr)
    /\ Bridge.attempt sys (Bridge.plan req) = (tr, h)
    /\ tr `prefix_of` Bridge.plan req
    /\ (forall i g, tr !! i = Some (Bridge.SysSetgid g) ->
                    g = Bridge.Gid req /\ (0 < g)%Z)
    /\ (forall i u, tr !! i = Some (Bridge.SysSetuid u) ->
                    u = Bridge.Uid req /\ (0 < u)%Z)
    /\ (forall i j g u, tr !! i = Some (Bridge.SysSetgid g) ->
                        tr !! j = Some (Bridge.SysSetuid u) -> (i < j)%nat)
    /\ (forall i d, tr !! i = Some (Bridge.SysChdir d) ->
                    d = Bridge.Dir req /\ d <> EmptyString)
    /\ (forall i p a e, tr !! i = Some (Bridge.SysExec p a e) ->
                        S i = length tr
                        /\ p = Bridge.Path req /\ a = Bridge.Argv req
                        /\ e = Bridge.Env req)
    /\ (Bridge.Uid req = 0%Z -> Bridge.Gid req = 0%Z ->
        forall ev, ev ∈ tr -> Bridge.isPrivilegeCall ev = false)
    /\ (forall i ev, tr !! i = Some ev -> (S i < length tr)%nat ->
                     Bridge.stepError sys ev = None)
    /\ ((h = Bridge.Replaced /\ tr = Bridge.plan req
         /\ forall ev, ev ∈ tr -> Bridge.stepError sys ev = None)
        \/ (exists ev f, h = Bridge.Fatal f /\ last tr = Some ev
                         /\ Bridge.stepError sys ev = Some f
                         /\ Bridge.exitStatus h = Some 1%Z)).
Proof.
  intros Hne Hdec.
  pose proof (BridgeFacts.maybeExec_attempt sys environ req Hne Hdec) as Hrun.
  pose proof (BridgeFacts.attempt_prefix sys (Bridge.plan req)) as Hpre.
  pose proof (BridgeFacts.attempt_outcome sys (Bridge.plan req)) as [Hmid Hend].
  destruct (Bridge.attempt sys (Bridge.plan req)) as [tr h] eqn:Hatt.
  cbn [fst snd] in *.
  assert (Hlk : forall i ev, tr !! i = Some ev -> Bridge.plan req !! i = Some ev)
    by (intros i ev Hi; by eapply prefix_lookup_Some).
  exists tr, h. split; [exact Hrun|]. split; [reflexivity|]. split; [exact Hpre|].
  split.
  { intros i g H. destruct (PlanFacts.plan_setgid req i g (Hlk _ _ H)); tauto. }
  split.
  { intros i u H. destruct (PlanFacts.plan_setuid req i u (Hlk _ _ H)); tauto. }
  split.
  { intros i j g u Hi Hj.
    exact (PlanFacts.plan_gid_before_uid req i j g u (Hlk _ _ Hi) (Hlk _ _ Hj)). }
  split.
  { intros i d H. exact (PlanFacts.plan_chdir req i d (Hlk _ _ H)). }
  split.
  { intros i p a e H.
    destruct (PlanFacts.plan_exec_last req i p a e (Hlk _ _ H)) as (Hlen & Hp).
    split; [|exact Hp].
    pose proof (prefix_length _ _ Hpre). apply lookup_lt_Some in H. lia. }
  split.
  { intros Hu Hg ev Hin. apply (PlanFacts.plan_unprivileged req ev Hu Hg).
    destruct Hpre as [k ->]. apply elem_of_app. by left. }
  split; [exact Hmid|].
  destruct Hend as [H|(ev & f & -> & Hlast & Hf)]; [by left|].
  right. exists ev, f. done.
Qed.

(** ** Paths *)
Module PathFacts.
Import filepath.

Lemma splitSlash_nonempty s : (1 <= length (splitSlash s))%nat.
Proof.
  induction s as [|c s IH]; simpl; [lia|].
  destruct (Ascii.eqb c "/"); simpl; [lia|].
  destruct (splitSlash s); simpl; lia.
Qed.

Lemma splitSlash_app a b :
  splitSlash (a +:+ String "/" b) = splitSlash a ++ splitSlash b.
Proof.
  induction a as [|c a IH]; simpl; [done|].
  destruct (Ascii.eqb c "/"); simpl; [by rewrite IH|].
  rewrite IH. pose proof (splitSlash_nonempty a).
  destruct (splitSlash a); simpl in *; [lia|done].
Qed.

Lemma cleanStep_plain rooted out name :
  plain name -> cleanStep rooted out name = name :: out.
Proof. intros (_ & H1 & H2 & H3). unfold cleanStep. by rewrite H1, H2, H3. Qed.

Lemma joinSlash_last (l : list string) name :
  joinSlash (l ++ [name]) = name
  \/ (2 <= length (splitSlash (joinSlash (l ++ [name]))))%nat.
Proof.
  destruct l as [|c l]; [by left|]. right.
  change (joinSlash ((c :: l) ++ [name]))
    with (joinSlash (c :: (l ++ [name]))).
  assert (exists d l', l ++ [name] = d :: l') as (d & l' & ->)
    by (destruct l; simpl; eauto).
  change (joinSlash (c :: d :: l')) with (c +:+ String "/" (joinSlash (d :: l'))).
  rewrite splitSlash_app, length_app.
  pose proof (splitSlash_nonempty c).
  pose proof (splitSlash_nonempty (joinSlash (d :: l'))). lia.
Qed.

Lemma Clean_last p (comps : list string) name :
  p <> EmptyString -> splitSlash p = comps ++ [name] -> plain name ->
  Clean p = name \/ (2 <= length (splitSlash (Clean p)))%nat.
Proof.
  intros Hp Hsplit Hname. unfold Clean. destruct p as [|c p]; [done|].
  rewrite Hsplit, fold_left_app. cbn [fold_left].
  rewrite cleanStep_plain by done. cbn [rev].
  set (out := rev _).
  destruct (isRooted (String c p)).
  - right. change ("/" +:+ ?x) with (String "/" x). simpl.
    pose proof (splitSlash_nonempty (joinSlash (out ++ [name]))). lia.
  - assert (exists d l', out ++ [name] = d :: l') as (d & l' & Heq)
      by (destruct out; simpl; eauto).
    rewrite Heq, <- Heq. apply joinSlash_last.
Qed.

Lemma Join_plain dir name :
  plain name ->
  Join dir name = name \/ (2 <= length (splitSlash (Join dir name)))%nat.
Proof.
  intros Hname. pose proof Hname as (Hs & Hne & _).
  unfold Join. destruct dir as [|c dir].
  - destruct name as [|d name]; [discriminate|].
    apply (Clean_last _ []); done.
  - apply (Clean_last _ (splitSlash (String c dir))); [done| |done].
    change (String c dir +:+ "/" +:+ name)
      with (String c dir +:+ String "/" name).
    by rewrite splitSlash_app, Hs.
Qed.

(** The path of an overlay is never the path of a base image that has no
    directory part and another name. *)
Lemma Join_ne dir name s :
  plain name -> splitSlash s = [s] -> s <> name -> Join dir name <> s.
Proof.
  intros Hname Hs Hne Heq.
  destruct (Join_plain dir name Hname) as [H|H].
  - congruence.
  - rewrite Heq, Hs in H. simpl in H. lia.
Qed.

Lemma Join_nonempty dir name : plain name -> (Join dir name =? EmptyString)%string = false.
Proof.
  intros Hname. apply String.eqb_neq. apply Join_ne; [done|done|].
  destruct Hname as (_ & H & _). apply String.eqb_neq in H. congruence.
Qed.

Lemma plain_cow1 : plain "fs.cow1".
Proof. by vm_compute. Qed.

Lemma plain_img : plain "fs.img".
Proof. by vm_compute. Qed.

End PathFacts.

(** ** Reasoning about runs *)
Section WP.
Context {C : Type}.

Lemma wp_run {A} (m : M C A) Q w r w' :
  m w = (r, w') -> Q r w' -> wp m Q w.
Proof. unfold wp. by intros ->. Qed.

Lemma wp_elim {A} (m : M C A) (Q : outcome A -> World C -> Prop) w :
  wp m Q w -> exists r w', m w = (r, w') /\ Q r w'.
Proof. unfold wp. destruct (m w) as [r w']. eauto. Qed.

Lemma wp_bind {A B} (m : M C A) (f : A -> M C B) Q w :
  wp m (fun r w' => match r with
                    | Returned a => wp (f a) Q w'
                    | Panicked => Q Panicked w'
                    end) w ->
  wp (m ≫= f) Q w.
Proof.
  unfold wp, mbind, M_bind. destruct (m w) as [[a|] w']; simpl; auto.
Qed.

Lemma wp_ret {A} (a : A) (Q : outcome A -> World C -> Prop) w :
  Q (Returned a) w -> wp (mret a) Q w.
Proof. auto. Qed.

Lemma wp_panic {A} (Q : outcome A -> World C -> Prop) w :
  Q Panicked w -> wp panic Q w.
Proof. auto. Qed.

Lemma wp_ask (Q : outcome OS -> World C -> Prop) w :
  Q (Returned (os w)) w -> wp ask Q w.
Proof. auto. Qed.

Lemma wp_emit ev (Q : outcome unit -> World C -> Prop) w :
  Q (Returned tt)
    (mkWorld (os w) (trace w ++ [ev]) (ntemp w) (ntap w) (heap w)) ->
  wp (emit ev) Q w.
Proof. auto. Qed.

Lemma wp_load p c (Q : outcome C -> World C -> Prop) w :
  heap w !! p = Some c -> Q (Returned c) w -> wp (load p) Q w.
Proof. unfold wp, load. intros ->. auto. Qed.

Lemma wp_store p c c0 (Q : outcome unit -> World C -> Prop) w :
  heap w !! p = Some c0 ->
  Q (Returned tt)
    (mkWorld (os w) (trace w) (ntemp w) (ntap w) (<[p := c]> (heap w))) ->
  wp (store p c) Q w.
Proof. unfold wp, store. intros ->. auto. Qed.

Lemma wp_TempDir (Q : outcome (result string) -> World C -> Prop) w :
  match os_TempDir (os w) (ntemp w) with
  | Ok dir =>
      Q (Returned (Ok dir))
        (mkWorld (os w) (trace w ++ [EvTempDir dir]) (S (ntemp w)) (ntap w)
           (heap w))
  | Err e =>
      Q (Returned (Err e))
        (mkWorld (os w) (trace w) (S (ntemp w)) (ntap w) (heap w))
  end ->
  wp TempDir Q w.
Proof. unfold wp, TempDir. destruct (os_TempDir (os w) (ntemp w)); auto. Qed.

Lemma wp_NewTap uid gid (Q : outcome (option Tap * option error) -> World C -> Prop) w :
  (let w' := mkWorld (os w) (trace w ++ [EvNewTap uid gid]) (ntemp w)
               (S (ntap w)) (heap w) in
   match taps_NewTap (os w) (ntap w) uid gid with
   | Ok t => Q (Returned (Some t, None)) w'
   | Err e => Q (Returned (None, Some e)) w'
   end) ->
  wp (NewTap uid gid) Q w.
Proof.
  unfold wp, NewTap. destruct (taps_NewTap (os w) (ntap w) uid gid); auto.
Qed.

Lemma wp_defer {A B} (d : M C B) (body : M C A) Q w :
  wp body (fun r w1 =>
             wp d (fun rd w2 =>
                     match r, rd with
                     | Returned a, Returned b => Q (Returned (a, b)) w2
                     | _, _ => Q Panicked w2
                     end) w1) w ->
  wp (defer d body) Q w.
Proof.
  unfold wp, defer. destruct (body w) as [[a|] w1]; simpl;
    destruct (d w1) as [[b|] w2]; simpl; auto.
Qed.

End WP.

Arguments wp : simpl never.
Arguments M_bind : simpl never.
Arguments M_ret : simpl never.
Arguments mbind : simpl never.
Arguments mret : simpl never.
Arguments panic : simpl never.
Arguments load : simpl never.
Arguments store : simpl never.
Arguments emit : simpl never.
Arguments ask : simpl never.
Arguments defer : simpl never.
Arguments TempDir : simpl never.
Arguments NewTap : simpl never.
Arguments String.append : simpl never.
Arguments String.eqb : simpl never.
Arguments pretty : simpl never.
Arguments filepath.Join : simpl never.
Arguments Bridge.encodeReq : simpl never.
Arguments Bridge.start : simpl never.
Arguments UML.writeInterfaceConfig : simpl never.
Arguments UML.cleanup : simpl never.
Arguments UML.tempCOW : simpl never.
Arguments UML.startDrives : simpl never.
Arguments UML.removeAllOf : simpl never.
Arguments UML.appendArgs : simpl never.
Arguments UML.theTap : simpl never.
Arguments VM.writeInterfaceConfig : simpl never.
Arguments VM.cleanup : simpl never.
Arguments VM.tempCOW : simpl never.
Arguments VM.startDrives : simpl never.
Arguments VM.removeAllOf : simpl never.
Arguments VM.appendArgs : simpl never.
Arguments VM.theTap : simpl never.

Ltac heap_lookup :=
  simpl; rewrite ?lookup_insert_eq; first [eassumption | reflexivity].

(** One step of a run: the head call is replaced by its effect. *)
Ltac wp_step :=
  lazymatch goal with
  | |- wp (mbind _ _) _ _ => apply wp_bind
  | |- wp (mret _) _ _ => apply wp_ret
  | |- wp panic _ _ => apply wp_panic
  | |- wp ask _ _ => apply wp_ask
  | |- wp (emit _) _ _ => apply wp_emit
  | |- wp TempDir _ _ => apply wp_TempDir
  | |- wp (NewTap _ _) _ _ => apply wp_NewTap
  | |- wp (defer _ _) _ _ => apply wp_defer
  | |- wp (load _) _ _ => eapply wp_load; [heap_lookup|]
  | |- wp (store _ _) _ _ => eapply wp_store; [heap_lookup|]
  | |- wp (os_create_log _) _ _ => unfold os_create_log
  | |- wp (Chmod _) _ _ => unfold Chmod
  | |- wp (Chown _ _ _) _ _ => unfold Chown
  | |- wp (Create _) _ _ => unfold Create
  | |- wp (RemoveAll _) _ _ => unfold RemoveAll
  | |- wp (WriteInterfaceConfig _) _ _ => unfold WriteInterfaceConfig
  | |- wp (TapClose _) _ _ => unfold TapClose
  | |- wp (Run _) _ _ => unfold Run
  | |- wp (CmdStart _) _ _ => unfold CmdStart
  | |- wp (Bridge.start _ _) _ _ => unfold Bridge.start
  | |- wp (UML.appendArgs _ _) _ _ => unfold UML.appendArgs
  | |- wp (VM.appendArgs _ _) _ _ => unfold VM.appendArgs
  end; simpl.

Ltac wp_steps := repeat wp_step.

(** ** Backend A *)
Module UMLFacts.
Import UML.

Lemma world_eta {C} (w : World C) :
  mkWorld (os w) (trace w) (ntemp w) (ntap w) (heap w) = w.
Proof. by destruct w. Qed.

Lemma uml_eta u :
  {| ID := ID u; config := config u; tap := tap u; cmd := cmd u;
     tempFiles := tempFiles u |} = u.
Proof. by destruct u. Qed.

Lemma config_eta c :
  {| Path := Path c; User := User c; Group := Group c; Memory := Memory c;
     Drives := Drives c; Args := Args c; Out := Out c; hostFS := hostFS c |} = c.
Proof. by destruct c. Qed.

Lemma removeAllOf_run fs (w : World UMLConfig) :
  removeAllOf fs w =
  (Returned tt,
   mkWorld (os w) (trace w ++ map EvRemoveAll fs) (ntemp w) (ntap w) (heap w)).
Proof.
  revert w. induction fs as [|f fs IH]; intros w.
  - simpl. by rewrite app_nil_r, world_eta.
  - simpl. unfold removeAllOf; fold removeAllOf.
    unfold mbind, M_bind, RemoveAll, emit. rewrite IH. simpl.
    by rewrite <- app_assoc.
Qed.

Lemma cleanup_run u t (w : World UMLConfig) :
  tap u = Some t ->
  cleanup u w =
  (Returned (set_tempFiles [] u),
   mkWorld (os w)
     (trace w ++ map EvRemoveAll (tempFiles u) ++ [EvTapClose (Name t)])
     (ntemp w) (ntap w) (heap w)).
Proof.
  intros Ht. unfold cleanup, theTap, mbind, M_bind. rewrite removeAllOf_run, Ht.
  unfold mret, M_ret, TapClose, emit. simpl. by rewrite <- app_assoc.
Qed.

Lemma cleanup_nil_tap u (w : World UMLConfig) :
  tap u = None ->
  cleanup u w =
  (Panicked,
   mkWorld (os w) (trace w ++ map EvRemoveAll (tempFiles u)) (ntemp w) (ntap w)
     (heap w)).
Proof.
  intros Ht. unfold cleanup, theTap, mbind, M_bind. rewrite removeAllOf_run, Ht.
  reflexivity.
Qed.

Lemma wp_theTap u t (Q : outcome Tap -> World UMLConfig -> Prop) w :
  tap u = Some t -> Q (Returned t) w -> wp (theTap u) Q w.
Proof. intros Ht HQ. unfold theTap. rewrite Ht. by apply wp_ret. Qed.

(** [writeInterfaceConfig] always returns when there is a tap; it asks for
    one temp directory, touches no field of the config but [hostFS], and
    registers the directory when it got one. *)
Lemma wp_writeInterfaceConfig u c t
    (Q : outcome (uml * option error) -> World UMLConfig -> Prop) w :
  heap w !! config u = Some c -> tap u = Some t ->
  (forall tmp err evs h,
      Q (Returned (set_tempFiles (tempFiles u ++ tmp) u, err))
        (mkWorld (os w) (trace w ++ evs) (S (ntemp w)) (ntap w)
           (<[config u := set_hostFS h c]> (heap w)))) ->
  wp (writeInterfaceConfig u) Q w.
Proof.
  intros Hc Ht HQ. unfold writeInterfaceConfig.
  wp_step. wp_step.
  destruct (os_TempDir (os w) (ntemp w)) as [dir|e].
  - wp_steps.
    destruct (os_Chmod (os w) dir) as [e|];
      [wp_steps; rewrite <- !app_assoc; apply HQ|].
    wp_steps.
    destruct (os_Create (os w) (filepath.Join dir "eth0")) as [e|];
      [wp_steps; rewrite <- !app_assoc; apply HQ|].
    wp_step. eapply wp_theTap; [exact Ht|]. wp_steps.
    rewrite <- !app_assoc; apply HQ.
  - wp_step.
    specialize (HQ [] (Some e) [] (hostFS c)).
    rewrite !app_nil_r in HQ.
    replace (set_hostFS (hostFS c) c) with c in HQ by (by destruct c).
    rewrite insert_id in HQ by done.
    replace (set_tempFiles (tempFiles u) u) with u in HQ by (by destruct u).
    exact HQ.
Qed.

Lemma wp_cleanup u t (Q : outcome uml -> World UMLConfig -> Prop) w :
  tap u = Some t ->
  Q (Returned (set_tempFiles [] u))
    (mkWorld (os w)
       (trace w ++ map EvRemoveAll (tempFiles u) ++ [EvTapClose (Name t)])
       (ntemp w) (ntap w) (heap w)) ->
  wp (cleanup u) Q w.
Proof. intros Ht HQ. eapply wp_run; [by apply cleanup_run|exact HQ]. Qed.

(** [tempCOW] asks for one temp directory and leaves the config alone; a
    path it returns without error is not empty. *)
Lemma wp_tempCOW u c
    (Q : outcome (uml * string * option error) -> World UMLConfig -> Prop) w :
  heap w !! config u = Some c ->
  (forall u' cow err evs,
      config u' = config u -> tap u' = tap u -> ID u' = ID u ->
      cmd u' = cmd u ->
      (err = None -> (cow =? EmptyString)%string = false) ->
      Q (Returned (u', cow, err))
        (mkWorld (os w) (trace w ++ evs) (S (ntemp w)) (ntap w) (heap w))) ->
  wp (tempCOW u) Q w.
Proof.
  intros Hc HQ. unfold tempCOW. wp_step. wp_step.
  destruct (os_TempDir (os w) (ntemp w)) as [dir|e].
  - wp_steps.
    destruct (os_Chown (os w) dir (User c) (Group c)) as [e|]; wp_steps;
      rewrite <- ?app_assoc; apply HQ; try done.
    intros _. apply PathFacts.Join_nonempty, PathFacts.plain_cow1.
  - wp_step. specialize (HQ u EmptyString (Some e) []). rewrite app_nil_r in HQ.
    by apply HQ.
Qed.

Lemma set_Args_nil (c : UMLConfig) : set_Args (Args c ++ []) c = c.
Proof. rewrite app_nil_r. by destruct c. Qed.

(** The drive loop only appends to [Args]. *)
Lemma wp_startDrives ds : forall u i c t
    (Q : outcome (uml * option error) -> World UMLConfig -> Prop) w,
  heap w !! config u = Some c -> tap u = Some t ->
  (forall u' err evs n extra,
      config u' = config u -> tap u' = tap u -> ID u' = ID u ->
      cmd u' = cmd u ->
      Q (Returned (u', err))
        (mkWorld (os w) (trace w ++ evs) n (ntap w)
           (<[config u := set_Args (Args c ++ extra) c]> (heap w)))) ->
  wp (startDrives u i ds) Q w.
Proof.
  induction ds as [|d ds IH]; intros u i c t Q w Hc Ht HQ.
  - unfold startDrives. wp_step.
    specialize (HQ u None [] (ntemp w) []).
    rewrite app_nil_r, set_Args_nil, insert_id, world_eta in HQ by done.
    by apply HQ.
  - unfold startDrives; fold startDrives. wp_step.
    assert (Hbody : forall u' cow err evs n,
      config u' = config u -> tap u' = tap u -> ID u' = ID u ->
      cmd u' = cmd u ->
      wp (match err with
          | Some e => cleanup u' ≫= (fun u0 => mret (u0, Some e))
          | None =>
              appendArgs u'
                [if (cow =? EmptyString)%string
                 then "ubd" +:+ pretty i +:+ "=" +:+ FS d
                 else "ubd" +:+ pretty i +:+ "=" +:+ cow +:+ "," +:+ FS d]
              ≫= (fun _ => startDrives u' (S i) ds)
          end) Q
        (mkWorld (os w) (trace w ++ evs) n (ntap w) (heap w))).
    { intros u' cow err evs n Hcfg Htap Hid Hcmd. destruct err as [e|].
      - wp_step. eapply wp_cleanup; [by rewrite Htap|]. simpl. wp_step.
        specialize (HQ (set_tempFiles [] u') (Some e)
                      (evs ++ map EvRemoveAll (tempFiles u')
                           ++ [EvTapClose (Name t)]) n []).
        rewrite set_Args_nil, insert_id in HQ by done.
        rewrite <- !app_assoc. by apply HQ.
      - set (arg := if (cow =? EmptyString)%string then _ else _).
        wp_step. unfold appendArgs. rewrite Hcfg. wp_steps.
        eapply IH.
        + simpl. rewrite Hcfg. apply lookup_insert_eq.
        + by rewrite Htap.
        + intros u'' err' evs' n' extra Hcfg' Htap' Hid' Hcmd'. simpl.
          rewrite Hcfg, insert_insert_eq.
          replace (set_Args ((Args c ++ [arg]) ++ extra)
                     (set_Args (Args c ++ [arg]) c))
            with (set_Args (Args c ++ (arg :: extra)) c)
            by (unfold set_Args; simpl; by rewrite <- app_assoc).
          rewrite <- app_assoc. apply HQ; congruence. }
    destruct (TempCOW d).
    + eapply wp_tempCOW; [exact Hc|].
      intros u' cow err evs Hcfg Htap Hid Hcmd _. simpl. by apply Hbody.
    + wp_step. specialize (Hbody u (COW d) None [] (ntemp w)).
      rewrite app_nil_r, world_eta in Hbody. by apply Hbody.
Qed.

(** What [Start] does in any world, for an instance with a tap and a config:
    it returns; the config behind the pointer keeps its fields except
    [hostFS] and [Args], and [Args] is the old [Args] followed by the
    backend flags, the memory flag and the drive flags; when it returns no
    error it has spawned the bridge with exactly that argv. *)
Lemma wp_Start u c t
    (Q : outcome (uml * option error) -> World UMLConfig -> Prop) w :
  heap w !! config u = Some c -> tap u = Some t ->
  (forall u' err evs n h extra,
      config u' = config u -> tap u' = tap u -> ID u' = ID u ->
      let c' := set_hostFS h
                  (set_Args (Args c ++ backendFlags (ID u) (Name t) h
                               ++ memFlag c ++ extra) c) in
      (err = None ->
       exists k pid,
         cmd u' = Some k /\ Process k = Some pid
         /\ cmd_Env k
            = ["_EXEC_REQ=" +:+ Bridge.encodeReq (request c' (os_HOME (os w)))]
         /\ EvSpawn (cmd_Env k) ∈ evs) ->
      Q (Returned (u', err))
        (mkWorld (os w) (trace w ++ evs) n (ntap w)
           (<[config u := c']> (heap w)))) ->
  wp (Start u) Q w.
Proof.
  intros Hc Ht HQ. unfold Start. wp_step.
  eapply wp_writeInterfaceConfig; [exact Hc|exact Ht|].
  intros tmp err0 evs0 h. simpl. wp_step.
  eapply wp_theTap; [exact Ht|]. wp_steps.
  set (c1 := set_Args _ _).
  assert (Hmem : forall (Q' : outcome unit -> World UMLConfig -> Prop) n evs,
    Q' (Returned tt)
       (mkWorld (os w) (trace w ++ evs) n (ntap w)
          (<[config u := set_Args (Args c1 ++ memFlag c) c1]> (heap w))) ->
    wp (if (Memory c =? EmptyString)%string then mret tt
        else appendArgs (set_tempFiles (tempFiles u ++ tmp) u)
               ["mem=" +:+ Memory c]) Q'
       (mkWorld (os w) (trace w ++ evs) n (ntap w)
          (<[config u := c1]> (heap w)))).
  { intros Q' n evs HQ'. unfold memFlag in HQ'.
    destruct (Memory c =? EmptyString)%string.
    - wp_step. rewrite set_Args_nil in HQ'. exact HQ'.
    - wp_steps. by rewrite insert_insert_eq. }
  rewrite insert_insert_eq. apply Hmem. simpl. wp_step. wp_step. wp_step.
  eapply wp_startDrives; [heap_lookup|simpl; exact Ht|].
  intros u' err evs n extra Hcfg Htap Hid Hcmd. simpl in *.
  rewrite insert_insert_eq.
  set (c' := set_hostFS h
               (set_Args (Args c ++ backendFlags (ID u) (Name t) h
                            ++ memFlag c ++ extra) c)).
  replace (set_Args _ _) with c'
    by (unfold c', c1, set_Args, set_hostFS, backendFlags; simpl;
        by rewrite <- !app_assoc).
  destruct err as [e|].
  - wp_step. rewrite <- app_assoc. apply HQ; try done.
  - wp_step. rewrite Hcfg. wp_steps.
    change {| Bridge.Uid := _; Bridge.Gid := _; Bridge.Path := _;
              Bridge.Argv := _; Bridge.Env := _; Bridge.Dir := _ |}
      with (request c' (os_HOME (os w))).
    destruct (os_Start (os w) _) as [pid|e] eqn:Hstart.
    + wp_steps. rewrite <- !app_assoc. apply HQ; try done.
      intros _. eexists _, pid. simpl. repeat split.
      rewrite !elem_of_app, list_elem_of_singleton. auto.
    + wp_steps. eapply wp_cleanup; [simpl; by rewrite Htap|]. simpl. wp_step.
      rewrite <- !app_assoc. apply HQ; done.
Qed.

End UMLFacts.

Lemma UML_startDrives_cons u i d ds :
  UML.startDrives u i (d :: ds) =
  ('(u, cow, err) ← (if UML.TempCOW d then UML.tempCOW u
                     else mret (u, UML.COW d, None));
   match err with
   | Some e => u ← UML.cleanup u; mret (u, Some e)
   | None =>
       _ ← UML.appendArgs u
             [if String.eqb cow EmptyString
              then "ubd" +:+ pretty i +:+ "=" +:+ UML.FS d
              else "ubd" +:+ pretty i +:+ "=" +:+ cow +:+ "," +:+ UML.FS d];
       UML.startDrives u (S i) ds
   end).
Proof. reflexivity. Qed.

Lemma UML_startDrives_nil u i : UML.startDrives u i [] = mret (u, None).
Proof. reflexivity. Qed.

(** [Start] returns in every world in which the instance has a tap and a
    config. *)
Lemma UML_Start_run u c t (w : World UML.UMLConfig) :
  heap w !! UML.config u = Some c -> UML.tap u = Some t ->
  exists u' err evs n h extra,
    let c' := UML.set_hostFS h
                (UML.set_Args
                   (UML.Args c ++ UML.backendFlags (UML.ID u) (Name t) h
                      ++ UML.memFlag c ++ extra) c) in
    UML.Start u w =
      (Returned (u', err),
       mkWorld (os w) (trace w ++ evs) n (ntap w)
         (<[UML.config u := c']> (heap w)))
    /\ UML.config u' = UML.config u /\ UML.tap u' = UML.tap u
    /\ UML.ID u' = UML.ID u
    /\ (err = None ->
        exists k pid,
          UML.cmd u' = Some k /\ Process k = Some pid
          /\ cmd_Env k =
             ["_EXEC_REQ=" +:+ Bridge.encodeReq (UML.request c' (os_HOME (os w)))]
          /\ EvSpawn (cmd_Env k) ∈ evs).
Proof.
  intros Hc Ht.
  pose proof (UMLFacts.wp_Start u c t
    (fun r w' => exists u' err evs n h extra,
       let c' := UML.set_hostFS h
                   (UML.set_Args
                      (UML.Args c ++ UML.backendFlags (UML.ID u) (Name t) h
                         ++ UML.memFlag c ++ extra) c) in
       r = Returned (u', err)
       /\ w' = mkWorld (os w) (trace w ++ evs) n (ntap w)
                 (<[UML.config u := c']> (heap w))
       /\ UML.config u' = UML.config u /\ UML.tap u' = UML.tap u
       /\ UML.ID u' = UML.ID u
       /\ (err = None ->
           exists k pid,
             UML.cmd u' = Some k /\ Process k = Some pid
             /\ cmd_Env k =
                ["_EXEC_REQ=" +:+ Bridge.encodeReq
                                    (UML.request c' (os_HOME (os w)))]
             /\ EvSpawn (cmd_Env k) ∈ evs)) w Hc Ht) as H.
  apply wp_elim in H.
  - destruct H as (r & w' & Hrun & u' & err & evs & n & h & extra & H).
    cbv zeta in H. destruct H as (-> & -> & H).
    exists u', err, evs, n, h, extra. cbv zeta. split; [exact Hrun|exact H].
  - intros u' err evs n h extra Hcfg Htap Hid c' Hcmd.
    exists u', err, evs, n, h, extra. cbv zeta. repeat split; try done.
Qed.

(** C7. Backend A, one drive [{FS: "rootfs.img", TempCOW: true}], memory
    ["512MB"], and a world in which the overlay directory is created and
    chowned and the bridge is spawned: [Start] returns no error, and the argv
    it spawned contains [mem=512MB], [ubd0=<cow>,rootfs.img] and
    [eth0=tuntap,<tap name>], where [<cow>] is [fs.cow1] inside the
    directory created during this call and differs from [rootfs.img]. *)
Theorem uml_start_argv (u : UML.uml) (c : UML.UMLConfig) (t : Tap)
    (w : World UML.UMLConfig) (dir : string) :
  heap w !! UML.config u = Some c ->
  UML.tap u = Some t ->
  UML.Drives c =
    [{| UML.FS := "rootfs.img"; UML.COW := EmptyString; UML.TempCOW := true |}] ->
  UML.Memory c = "512MB" ->
  os_TempDir (os w) (S (ntemp w)) = Ok dir ->
  os_Chown (os w) dir (UML.User c) (UML.Group c) = None ->
  (forall env, exists pid, os_Start (os w) env = Ok pid) ->
  exists u' w' evs k req,
    UML.Start u w = (Returned (u', None), w')
    /\ trace w' = trace w ++ evs
    /\ UML.cmd u' = Some k
    /\ cmd_Env k = ["_EXEC_REQ=" +:+ Bridge.encodeReq req]
    /\ EvSpawn (cmd_Env k) ∈ evs
    /\ EvTempDir dir ∈ evs
    /\ filepath.Join dir "fs.cow1" <> "rootfs.img"
    /\ "mem=512MB" ∈ Bridge.Argv req
    /\ ("ubd0=" +:+ filepath.Join dir "fs.cow1" +:+ ",rootfs.img")
         ∈ Bridge.Argv req
    /\ ("eth0=tuntap," +:+ Name t) ∈ Bridge.Argv req.
Proof.
  intros Hc Ht Hd Hm Htmp Hown Hstart.
  cut (wp (UML.Start u)
    (fun r w' => exists u' evs k req,
       r = Returned (u', None)
       /\ trace w' = trace w ++ evs
       /\ UML.cmd u' = Some k
       /\ cmd_Env k = ["_EXEC_REQ=" +:+ Bridge.encodeReq req]
       /\ EvSpawn (cmd_Env k) ∈ evs
       /\ EvTempDir dir ∈ evs
       /\ filepath.Join dir "fs.cow1" <> "rootfs.img"
       /\ "mem=512MB" ∈ Bridge.Argv req
       /\ ("ubd0=" +:+ filepath.Join dir "fs.cow1" +:+ ",rootfs.img")
            ∈ Bridge.Argv req
       /\ ("eth0=tuntap," +:+ Name t) ∈ Bridge.Argv req) w).
  { intros Hwp. apply wp_elim in Hwp.
    destruct Hwp as (r & w' & Hrun & u' & evs & k & req & -> & H).
    exists u', w', evs, k, req. split; [exact Hrun|exact H]. }
  unfold UML.Start. wp_step.
  eapply UMLFacts.wp_writeInterfaceConfig; [exact Hc|exact Ht|].
  intros tmp err0 evs0 h. simpl. wp_step.
  eapply UMLFacts.wp_theTap; [exact Ht|]. wp_steps.
  rewrite Hm. change ("512MB" =? EmptyString)%string with false. cbv iota.
  wp_steps. rewrite Hd, UML_startDrives_cons. simpl. wp_step.
  unfold UML.tempCOW. wp_step. wp_step. rewrite Htmp. wp_steps.
  rewrite Hown. wp_steps.
  rewrite (PathFacts.Join_nonempty dir "fs.cow1" PathFacts.plain_cow1).
  wp_steps. rewrite UML_startDrives_nil. wp_steps.
  destruct (Hstart ["_EXEC_REQ=" +:+ Bridge.encodeReq
     {| Bridge.Uid := UML.User c; Bridge.Gid := UML.Group c;
        Bridge.Path := UML.Path c;
        Bridge.Argv := "linux" ::
          (((UML.Args c ++ ["umid=" +:+ UML.ID u; "con0=fd:0,fd:1"; "con=pts";
                            "rw"; "eth0=tuntap," +:+ Name t; "hostfs=" +:+ h])
            ++ ["mem=" +:+ "512MB"])
           ++ ["ubd" +:+ pretty 0%nat +:+ "=" +:+ filepath.Join dir "fs.cow1"
                 +:+ "," +:+ "rootfs.img"]);
        Bridge.Env := ["HOME=" +:+ os_HOME (os w)];
        Bridge.Dir := EmptyString |}]) as [pid Hpid].
  rewrite Hpid. wp_steps.
  rewrite <- !app_assoc.
  eexists _, _, _, _. split; [reflexivity|]. split; [reflexivity|].
  split; [reflexivity|]. split; [reflexivity|].
  split; [rewrite !elem_of_app, !elem_of_cons; tauto|].
  split; [rewrite !elem_of_app, !elem_of_cons; tauto|].
  split; [by apply PathFacts.Join_ne; [apply PathFacts.plain_cow1| |]|].
  simpl. rewrite !elem_of_cons, !elem_of_app, !elem_of_cons.
  repeat split; tauto.
Qed.

(** ** Backend B *)
Module VMFacts.
Import VM.

Lemma vm_removeAllOf_run fs (w : World VMConfig) :
  removeAllOf fs w =
  (Returned tt,
   mkWorld (os w) (trace w ++ map EvRemoveAll fs) (ntemp w) (ntap w) (heap w)).
Proof.
  revert w. induction fs as [|f fs IH]; intros w.
  - simpl. by rewrite app_nil_r, UMLFacts.world_eta.
  - simpl. unfold removeAllOf; fold removeAllOf.
    unfold mbind, M_bind, RemoveAll, emit. rewrite IH. simpl.
    by rewrite <- app_assoc.
Qed.

Lemma vm_cleanup_run u t (w : World VMConfig) :
  tap u = Some t ->
  cleanup u w =
  (Returned (set_tempFiles [] u),
   mkWorld (os w)
     (trace w ++ map EvRemoveAll (tempFiles u) ++ [EvTapClose (Name t)])
     (ntemp w) (ntap w) (heap w)).
Proof.
  intros Ht. unfold cleanup, theTap, mbind, M_bind. rewrite vm_removeAllOf_run, Ht.
  unfold mret, M_ret, TapClose, emit. simpl. by rewrite <- app_assoc.
Qed.

Lemma vm_wp_cleanup u t (Q : outcome vm -> World VMConfig -> Prop) w :
  tap u = Some t ->
  Q (Returned (set_tempFiles [] u))
    (mkWorld (os w)
       (trace w ++ map EvRemoveAll (tempFiles u) ++ [EvTapClose (Name t)])
       (ntemp w) (ntap w) (heap w)) ->
  wp (cleanup u) Q w.
Proof. intros Ht HQ. eapply wp_run; [by apply vm_cleanup_run|exact HQ]. Qed.

Lemma vm_wp_theTap u t (Q : outcome Tap -> World VMConfig -> Prop) w :
  tap u = Some t -> Q (Returned t) w -> wp (theTap u) Q w.
Proof. intros Ht HQ. unfold theTap. rewrite Ht. by apply wp_ret. Qed.

Lemma vm_wp_writeInterfaceConfig u c t
    (Q : outcome (vm * option error) -> World VMConfig -> Prop) w :
  heap w !! config u = Some c -> tap u = Some t ->
  (forall tmp err evs h,
      Q (Returned (set_tempFiles (tempFiles u ++ tmp) u, err))
        (mkWorld (os w) (trace w ++ evs) (S (ntemp w)) (ntap w)
           (<[config u := set_netFS h c]> (heap w)))) ->
  wp (writeInterfaceConfig u) Q w.
Proof.
  intros Hc Ht HQ. unfold writeInterfaceConfig.
  wp_step. wp_step.
  destruct (os_TempDir (os w) (ntemp w)) as [dir|e].
  - wp_steps.
    destruct (os_Chmod (os w) dir) as [e|];
      [wp_steps; rewrite <- !app_assoc; apply HQ|].
    wp_steps.
    destruct (os_Create (os w) (filepath.Join dir "eth0")) as [e|];
      [wp_steps; rewrite <- !app_assoc; apply HQ|].
    wp_step. eapply vm_wp_theTap; [exact Ht|]. wp_steps.
    rewrite <- !app_assoc; apply HQ.
  - wp_step.
    specialize (HQ [] (Some e) [] (netFS c)).
    rewrite !app_nil_r in HQ.
    replace (set_netFS (netFS c) c) with c in HQ by (by destruct c).
    rewrite insert_id in HQ by done.
    replace (set_tempFiles (tempFiles u) u) with u in HQ by (by destruct u).
    exact HQ.
Qed.

Lemma vm_startDrives_cons u drives i rest :
  startDrives u drives (i :: rest) =
  match drives !! i with
  | None => startDrives u drives rest
  | Some d =>
      '(u, fs, err) ← (if TempCOW d then tempCOW u (FS d)
                       else mret (u, FS d, None));
      match err with
      | Some e => u ← cleanup u; mret (u, Some e)
      | None =>
          _ ← appendArgs u ["-" +:+ i; fs];
          startDrives u drives rest
      end
  end.
Proof. reflexivity. Qed.

Lemma vm_startDrives_nil u drives : startDrives u drives [] = mret (u, None).
Proof. reflexivity. Qed.

(** [tempCOW] when the directory is created and chowned: the tool runs, and
    its exit error alone decides the result. *)
Lemma vm_tempCOW_run u c image dir (w : World VMConfig) :
  heap w !! config u = Some c ->
  os_TempDir (os w) (ntemp w) = Ok dir ->
  os_Chown (os w) dir (User c) (Group c) = None ->
  let path := filepath.Join dir "fs.img" in
  let u' := set_tempFiles (tempFiles u ++ [dir]) u in
  let evs := [EvTempDir dir; EvChown dir (User c) (Group c);
              EvRun (qemuImg image path)] in
  tempCOW u image w =
  match fst (os_Run (os w) (qemuImg image path)) with
  | Some e =>
      (Returned (u', EmptyString, Some ("failed to create COW filesystem: " +:+ e)),
       mkWorld (os w) (trace w ++ evs) (S (ntemp w)) (ntap w) (heap w))
  | None =>
      (Returned (u', match os_Chown (os w) path (User c) (Group c) with
                     | Some _ => EmptyString
                     | None => path
                     end,
                 os_Chown (os w) path (User c) (Group c)),
       mkWorld (os w)
         (trace w ++ evs ++ [EvChown path (User c) (Group c)])
         (S (ntemp w)) (ntap w) (heap w))
  end.
Proof.
  intros Hc Htmp Hown path u' evs.
  unfold tempCOW, TempDir, Chown, Run, ask, emit, load, mbind, M_bind, mret, M_ret.
  rewrite Htmp. simpl. rewrite Hc. simpl. rewrite Hown. simpl.
  unfold qemuImg, path in *.
  destruct (os_Run (os w) _) as [[e|] out]; simpl.
  - by rewrite <- !app_assoc.
  - rewrite Hc. simpl.
    destruct (os_Chown (os w) (filepath.Join dir "fs.img") _ _); simpl;
      by rewrite <- !app_assoc.
Qed.

(** A failure to create or to chown the directory ends [tempCOW] before the
    tool is run. *)
Lemma vm_tempCOW_aborts u c image (w : World VMConfig) :
  heap w !! config u = Some c ->
  (match os_TempDir (os w) (ntemp w) with
   | Ok dir => os_Chown (os w) dir (User c) (Group c) <> None
   | Err _ => True
   end) ->
  exists u' e evs,
    tempCOW u image w =
      (Returned (u', EmptyString, Some e),
       mkWorld (os w) (trace w ++ evs) (S (ntemp w)) (ntap w) (heap w))
    /\ forall argv, EvRun argv ∉ evs.
Proof.
  intros Hc Hfail.
  unfold tempCOW, TempDir, Chown, Run, ask, emit, load, mbind, M_bind, mret, M_ret.
  destruct (os_TempDir (os w) (ntemp w)) as [dir|e]; simpl.
  - rewrite Hc. simpl.
    destruct (os_Chown (os w) dir (User c) (Group c)) as [e|]; [|done].
    eexists _, e, [EvTempDir dir; EvChown dir (User c) (Group c)].
    rewrite <- !app_assoc. split; [reflexivity|].
    intros argv Hin. repeat (apply elem_of_cons in Hin as [Hin|Hin]; [done|]).
    by apply elem_of_nil in Hin.
  - eexists u, e, []. rewrite app_nil_r. split; [reflexivity|].
    intros argv Hin. by apply elem_of_nil in Hin.
Qed.

End VMFacts.

Lemma hasPair_here flag value (l : list string) :
  VM.hasPair (flag :: value :: l) flag value.
Proof. by exists [], l. Qed.

Lemma hasPair_cons x flag value (l : list string) :
  VM.hasPair l flag value -> VM.hasPair (x :: l) flag value.
Proof. intros (l1 & l2 & ->). by exists (x :: l1), l2. Qed.

Lemma hasPair_app flag value (p l : list string) :
  VM.hasPair l flag value -> VM.hasPair (p ++ l) flag value.
Proof.
  intros (l1 & l2 & ->). exists (p ++ l1), l2. by rewrite <- app_assoc.
Qed.

Ltac find_pair :=
  repeat first [apply hasPair_here | apply hasPair_cons | apply hasPair_app].

(** C8. Backend B with drives [hda] (base [rootfs.img], overlay asked for)
    and [hdb] (base [data.img]), in whatever order [range] visits them, and a
    world in which the overlay is created and the bridge is spawned: [Start]
    returns no error and the argv it spawned has [-hda] followed by the
    overlay path and [-hdb] followed by [data.img]; the overlay path is
    [fs.img] inside the directory created during this call, it is the file
    the overlay tool was run on, and it differs from [rootfs.img]. *)
Theorem vm_start_argv (u : VM.vm) (c : VM.VMConfig) (t : Tap)
    (w : World VM.VMConfig) (dir : string) (order : list string) :
  heap w !! VM.config u = Some c ->
  VM.tap u = Some t ->
  VM.Drives c =
    {[ "hda" := {| VM.FS := "rootfs.img"; VM.COW := EmptyString; VM.TempCOW := true |};
       "hdb" := {| VM.FS := "data.img"; VM.COW := EmptyString; VM.TempCOW := false |} ]} ->
  order ≡ₚ (map_to_list (VM.Drives c)).*1 ->
  os_TempDir (os w) (S (ntemp w)) = Ok dir ->
  os_Chown (os w) dir (VM.User c) (VM.Group c) = None ->
  fst (os_Run (os w) (VM.qemuImg "rootfs.img" (filepath.Join dir "fs.img")))
    = None ->
  os_Chown (os w) (filepath.Join dir "fs.img") (VM.User c) (VM.Group c) = None ->
  (forall env, exists pid, os_Start (os w) env = Ok pid) ->
  exists u' w' evs k req,
    VM.Start order u w = (Returned (u', None), w')
    /\ trace w' = trace w ++ evs
    /\ VM.cmd u' = Some k
    /\ cmd_Env k = ["_EXEC_REQ=" +:+ Bridge.encodeReq req]
    /\ EvSpawn (cmd_Env k) ∈ evs
    /\ EvTempDir dir ∈ evs
    /\ EvRun (VM.qemuImg "rootfs.img" (filepath.Join dir "fs.img")) ∈ evs
    /\ filepath.Join dir "fs.img" <> "rootfs.img"
    /\ VM.hasPair (Bridge.Argv req) "-hda" (filepath.Join dir "fs.img")
    /\ VM.hasPair (Bridge.Argv req) "-hdb" "data.img".
Proof.
  intros Hc Ht Hd Hperm Htmp Hown Hrun Hown2 Hstart.
  assert (Hhda : VM.Drives c !! "hda" =
            Some {| VM.FS := "rootfs.img"; VM.COW := EmptyString; VM.TempCOW := true |})
    by (rewrite Hd; reflexivity).
  assert (Hhdb : VM.Drives c !! "hdb" =
            Some {| VM.FS := "data.img"; VM.COW := EmptyString; VM.TempCOW := false |})
    by (rewrite Hd; reflexivity).
  assert (Horder : order = ["hda"; "hdb"] \/ order = ["hdb"; "hda"]).
  { rewrite Hd in Hperm.
    change ((map_to_list _).*1) with ["hda"; "hdb"] in Hperm.
    symmetry in Hperm. by apply Permutation_length_2_inv in Hperm. }
  clear Hperm Hd.
  cut (wp (VM.Start order u)
    (fun r w' => exists u' evs k req,
       r = Returned (u', None)
       /\ trace w' = trace w ++ evs
       /\ VM.cmd u' = Some k
       /\ cmd_Env k = ["_EXEC_REQ=" +:+ Bridge.encodeReq req]
       /\ EvSpawn (cmd_Env k) ∈ evs
       /\ EvTempDir dir ∈ evs
       /\ EvRun (VM.qemuImg "rootfs.img" (filepath.Join dir "fs.img")) ∈ evs
       /\ filepath.Join dir "fs.img" <> "rootfs.img"
       /\ VM.hasPair (Bridge.Argv req) "-hda" (filepath.Join dir "fs.img")
       /\ VM.hasPair (Bridge.Argv req) "-hdb" "data.img") w).
  { intros Hwp. apply wp_elim in Hwp.
    destruct Hwp as (r & w' & Hrun' & u' & evs & k & req & -> & H).
    exists u', w', evs, k, req. split; [exact Hrun'|exact H]. }
  assert (Hne : filepath.Join dir "fs.img" <> "rootfs.img")
    by (by apply PathFacts.Join_ne; [apply PathFacts.plain_img| |]).
  unfold VM.Start. wp_step.
  eapply VMFacts.vm_wp_writeInterfaceConfig; [exact Hc|exact Ht|].
  intros tmp err0 evs0 h. simpl. wp_step.
  eapply VMFacts.vm_wp_theTap; [exact Ht|]. wp_steps.
  assert (Hmem : forall (Q' : outcome unit -> World VM.VMConfig -> Prop) c1 n evs,
    (forall m, Q' (Returned tt)
       (mkWorld (os w) (trace w ++ evs) n (ntap w)
          (<[VM.config u := VM.set_Args (VM.Args c1 ++ m) c1]> (heap w)))) ->
    wp (if (VM.Memory c =? EmptyString)%string then mret tt
        else VM.appendArgs (VM.set_tempFiles (VM.tempFiles u ++ tmp) u)
               ["-m"; VM.Memory c]) Q'
       (mkWorld (os w) (trace w ++ evs) n (ntap w)
          (<[VM.config u := c1]> (heap w)))).
  { intros Q' c1 n evs HQ'.
    destruct (VM.Memory c =? EmptyString)%string.
    - wp_step. specialize (HQ' []). rewrite app_nil_r in HQ'.
      replace (VM.set_Args (VM.Args c1) c1) with c1 in HQ' by (by destruct c1).
      exact HQ'.
    - wp_steps. rewrite insert_insert_eq. apply HQ'. }
  rewrite insert_insert_eq. apply Hmem. intros m. simpl. wp_step. wp_step.
  wp_step.
  assert (Hexec : forall req, exists pid,
            os_Start (os w) ["_EXEC_REQ=" +:+ Bridge.encodeReq req] = Ok pid)
    by (intros req; apply Hstart).
  unfold VM.qemuImg in *.
  destruct Horder as [-> | ->].
  - rewrite VMFacts.vm_startDrives_cons, Hhda. simpl. wp_step.
    unfold VM.tempCOW. wp_step. wp_step. rewrite Htmp. wp_steps.
    rewrite Hown. wp_steps. rewrite Hrun. wp_steps. rewrite Hown2. wp_steps.
    rewrite VMFacts.vm_startDrives_cons, Hhdb. simpl. wp_steps.
    rewrite VMFacts.vm_startDrives_nil. wp_steps.
    match goal with
    | |- context [os_Start _ ["_EXEC_REQ=" +:+ Bridge.encodeReq ?r]] =>
        destruct (Hexec r) as [pid Hpid]; rewrite Hpid
    end.
    wp_steps. rewrite <- !app_assoc.
    eexists _, _, _, _. split; [reflexivity|]. split; [reflexivity|].
    split; [reflexivity|]. split; [reflexivity|].
    split; [rewrite !elem_of_app, !elem_of_cons; tauto|].
    split; [rewrite !elem_of_app, !elem_of_cons; tauto|].
    split; [rewrite !elem_of_app, !elem_of_cons; tauto|].
    split; [exact Hne|]. simpl. split; find_pair.
  - rewrite VMFacts.vm_startDrives_cons, Hhdb. simpl. wp_steps.
    rewrite VMFacts.vm_startDrives_cons, Hhda. simpl. wp_step.
    unfold VM.tempCOW. wp_step. wp_step. rewrite Htmp. wp_steps.
    rewrite Hown. wp_steps. rewrite Hrun. wp_steps. rewrite Hown2. wp_steps.
    rewrite VMFacts.vm_startDrives_nil. wp_steps.
    match goal with
    | |- context [os_Start _ ["_EXEC_REQ=" +:+ Bridge.encodeReq ?r]] =>
        destruct (Hexec r) as [pid Hpid]; rewrite Hpid
    end.
    wp_steps. rewrite <- !app_assoc.
    eexists _, _, _, _. split; [reflexivity|]. split; [reflexivity|].
    split; [reflexivity|]. split; [reflexivity|].
    split; [rewrite !elem_of_app, !elem_of_cons; tauto|].
    split; [rewrite !elem_of_app, !elem_of_cons; tauto|].
    split; [rewrite !elem_of_app, !elem_of_cons; tauto|].
    split; [exact Hne|]. simpl. split; find_pair.
Qed.

(** ** The shared config, both backends *)

Lemma VM_set_Args_nil (c : VM.VMConfig) : VM.set_Args (VM.Args c ++ []) c = c.
Proof. rewrite app_nil_r. by destruct c. Qed.

Lemma VM_wp_tempCOW u c image
    (Q : outcome (VM.vm * string * option error) -> World VM.VMConfig -> Prop)
    w :
  heap w !! VM.config u = Some c ->
  (forall u' fs err evs,
      VM.config u' = VM.config u -> VM.tap u' = VM.tap u ->
      VM.ID u' = VM.ID u -> VM.cmd u' = VM.cmd u ->
      Q (Returned (u', fs, err))
        (mkWorld (os w) (trace w ++ evs) (S (ntemp w)) (ntap w) (heap w))) ->
  wp (VM.tempCOW u image) Q w.
Proof.
  intros Hc HQ. unfold VM.tempCOW. wp_step. wp_step.
  destruct (os_TempDir (os w) (ntemp w)) as [dir|e].
  - wp_steps.
    destruct (os_Chown (os w) dir (VM.User c) (VM.Group c)) as [e|]; wp_steps;
      [rewrite <- !app_assoc; by apply HQ|].
    destruct (os_Run (os w) _) as [[e|] out]; simpl; wp_steps;
      [rewrite <- !app_assoc; by apply HQ|].
    destruct (os_Chown (os w) (filepath.Join dir "fs.img") _ _) as [e|];
      wp_steps; rewrite <- !app_assoc; by apply HQ.
  - wp_step. specialize (HQ u EmptyString (Some e) []).
    rewrite app_nil_r in HQ. by apply HQ.
Qed.

(** The drive loop of backend B only appends to [Args]. *)
Lemma VM_wp_startDrives_args drives order : forall u c t
    (Q : outcome (VM.vm * option error) -> World VM.VMConfig -> Prop) w,
  heap w !! VM.config u = Some c -> VM.tap u = Some t ->
  (forall u' err evs n extra,
      VM.config u' = VM.config u -> VM.tap u' = VM.tap u ->
      VM.ID u' = VM.ID u -> VM.cmd u' = VM.cmd u ->
      Q (Returned (u', err))
        (mkWorld (os w) (trace w ++ evs) n (ntap w)
           (<[VM.config u := VM.set_Args (VM.Args c ++ extra) c]> (heap w)))) ->
  wp (VM.startDrives u drives order) Q w.
Proof.
  induction order as [|i rest IH]; intros u c t Q w Hc Ht HQ.
  - rewrite VMFacts.vm_startDrives_nil. wp_step.
    specialize (HQ u None [] (ntemp w) []).
    rewrite app_nil_r, VM_set_Args_nil, insert_id, UMLFacts.world_eta in HQ
      by done.
    by apply HQ.
  - rewrite VMFacts.vm_startDrives_cons.
    destruct (drives !! i) as [d|]; [|by eapply IH].
    wp_step.
    assert (Hbody : forall u' fs err evs n,
      VM.config u' = VM.config u -> VM.tap u' = VM.tap u ->
      VM.ID u' = VM.ID u -> VM.cmd u' = VM.cmd u ->
      wp (match err with
          | Some e => VM.cleanup u' ≫= (fun u0 => mret (u0, Some e))
          | None =>
              VM.appendArgs u' ["-" +:+ i; fs]
              ≫= (fun _ => VM.startDrives u' drives rest)
          end) Q
        (mkWorld (os w) (trace w ++ evs) n (ntap w) (heap w))).
    { intros u' fs err evs n Hcfg Htap Hid Hcmd.
      destruct err as [e|].
      - wp_step. eapply VMFacts.vm_wp_cleanup; [by rewrite Htap|]. simpl.
        wp_step.
        specialize (HQ (VM.set_tempFiles [] u') (Some e)
                      (evs ++ map EvRemoveAll (VM.tempFiles u')
                           ++ [EvTapClose (Name t)]) n []).
        rewrite VM_set_Args_nil, insert_id in HQ by done.
        rewrite <- !app_assoc. by apply HQ.
      - wp_step. unfold VM.appendArgs. rewrite Hcfg. wp_steps.
        eapply IH.
        + simpl. rewrite Hcfg. apply lookup_insert_eq.
        + by rewrite Htap.
        + intros u'' err' evs' n' extra Hcfg' Htap' Hid' Hcmd'. simpl.
          rewrite Hcfg, insert_insert_eq.
          replace (VM.set_Args ((VM.Args c ++ ["-" +:+ i; fs]) ++ extra)
                     (VM.set_Args (VM.Args c ++ ["-" +:+ i; fs]) c))
            with (VM.set_Args (VM.Args c ++ ("-" +:+ i) :: fs :: extra) c)
            by (unfold VM.set_Args; simpl; by rewrite <- app_assoc).
          rewrite <- app_assoc.
          apply (HQ u'' err' (evs ++ evs') n' (("-" +:+ i) :: fs :: extra));
            congruence. }
    destruct (VM.TempCOW d).
    + eapply VM_wp_tempCOW; [exact Hc|].
      intros u' fs err evs Hcfg Htap Hid Hcmd. simpl. by apply Hbody.
    + wp_step. specialize (Hbody u (VM.FS d) None [] (ntemp w)).
      rewrite app_nil_r, UMLFacts.world_eta in Hbody. by apply Hbody.
Qed.

(** [Start] of backend B leaves in the config the old [Args] followed by
    the machine flags, the memory flag and the drive flags; when it returns
    no error it has spawned the bridge with exactly that argv. *)
Lemma VM_wp_Start_args order u c t
    (Q : outcome (VM.vm * option error) -> World VM.VMConfig -> Prop) w :
  heap w !! VM.config u = Some c -> VM.tap u = Some t ->
  (forall u' err evs n h extra,
      VM.config u' = VM.config u -> VM.tap u' = VM.tap u ->
      VM.ID u' = VM.ID u ->
      let c' := VM.set_netFS h
                  (VM.set_Args
                     (VM.Args c ++ VM.backendFlags (VM.Kernel c) (Name t) h
                        ++ VM.memFlag c ++ extra) c) in
      (err = None ->
       exists k pid,
         VM.cmd u' = Some k /\ Process k = Some pid
         /\ cmd_Env k
            = ["_EXEC_REQ=" +:+ Bridge.encodeReq (VM.request c' (os_HOME (os w)))]
         /\ EvSpawn (cmd_Env k) ∈ evs) ->
      Q (Returned (u', err))
        (mkWorld (os w) (trace w ++ evs) n (ntap w)
           (<[VM.config u := c']> (heap w)))) ->
  wp (VM.Start order u) Q w.
Proof.
  intros Hc Ht HQ. unfold VM.Start. wp_step.
  eapply VMFacts.vm_wp_writeInterfaceConfig; [exact Hc|exact Ht|].
  intros tmp err0 evs0 h. simpl. wp_step.
  eapply VMFacts.vm_wp_theTap; [exact Ht|]. wp_steps.
  set (c1 := VM.set_Args _ _).
  assert (Hmem : forall (Q' : outcome unit -> World VM.VMConfig -> Prop) n evs,
    Q' (Returned tt)
       (mkWorld (os w) (trace w ++ evs) n (ntap w)
          (<[VM.config u := VM.set_Args (VM.Args c1 ++ VM.memFlag c) c1]>
             (heap w))) ->
    wp (if (VM.Memory c =? EmptyString)%string then mret tt
        else VM.appendArgs (VM.set_tempFiles (VM.tempFiles u ++ tmp) u)
               ["-m"; VM.Memory c]) Q'
       (mkWorld (os w) (trace w ++ evs) n (ntap w)
          (<[VM.config u := c1]> (heap w)))).
  { intros Q' n evs HQ'. unfold VM.memFlag in HQ'.
    destruct (VM.Memory c =? EmptyString)%string.
    - wp_step. rewrite VM_set_Args_nil in HQ'. exact HQ'.
    - wp_steps. by rewrite insert_insert_eq. }
  rewrite insert_insert_eq. apply Hmem. simpl. wp_step. wp_step. wp_step.
  eapply VM_wp_startDrives_args; [heap_lookup|simpl; exact Ht|].
  intros u' err evs n extra Hcfg Htap Hid Hcmd. simpl in *.
  rewrite insert_insert_eq.
  set (c' := VM.set_netFS h
               (VM.set_Args
                  (VM.Args c ++ VM.backendFlags (VM.Kernel c) (Name t) h
                     ++ VM.memFlag c ++ extra) c)).
  replace (VM.set_Args _ _) with c'
    by (unfold c', c1, VM.set_Args, VM.set_netFS, VM.backendFlags; simpl;
        by rewrite <- !app_assoc).
  destruct err as [e|].
  - wp_step. rewrite <- app_assoc. apply HQ; try done.
  - wp_step. rewrite Hcfg. wp_steps.
    change {| Bridge.Uid := _; Bridge.Gid := _; Bridge.Path := _;
              Bridge.Argv := _; Bridge.Env := _; Bridge.Dir := _ |}
      with (VM.request c' (os_HOME (os w))).
    destruct (os_Start (os w) _) as [pid|e] eqn:Hstart.
    + wp_steps. rewrite <- !app_assoc. apply HQ; try done.
      intros _. eexists _, pid. simpl. repeat split.
      rewrite !elem_of_app, list_elem_of_singleton. auto.
    + wp_steps. eapply VMFacts.vm_wp_cleanup; [simpl; by rewrite Htap|].
      simpl. wp_step. rewrite <- !app_assoc. apply HQ; done.
Qed.

(** [Start] of backend B returns in every world in which the instance has
    a tap and a config, whatever the order in which the drives are
    visited. *)
Lemma VM_Start_run order u c t (w : World VM.VMConfig) :
  heap w !! VM.config u = Some c -> VM.tap u = Some t ->
  exists u' err evs n h extra,
    let c' := VM.set_netFS h
                (VM.set_Args
                   (VM.Args c ++ VM.backendFlags (VM.Kernel c) (Name t) h
                      ++ VM.memFlag c ++ extra) c) in
    VM.Start order u w =
      (Returned (u', err),
       mkWorld (os w) (trace w ++ evs) n (ntap w)
         (<[VM.config u := c']> (heap w)))
    /\ VM.config u' = VM.config u /\ VM.tap u' = VM.tap u
    /\ VM.ID u' = VM.ID u
    /\ (err = None ->
        exists k pid,
          VM.cmd u' = Some k /\ Process k = Some pid
          /\ cmd_Env k =
             ["_EXEC_REQ=" +:+ Bridge.encodeReq (VM.request c' (os_HOME (os w)))]
          /\ EvSpawn (cmd_Env k) ∈ evs).
Proof.
  intros Hc Ht.
  pose proof (VM_wp_Start_args order u c t
    (fun r w' => exists u' err evs n h extra,
       let c' := VM.set_netFS h
                   (VM.set_Args
                      (VM.Args c ++ VM.backendFlags (VM.Kernel c) (Name t) h
                         ++ VM.memFlag c ++ extra) c) in
       r = Returned (u', err)
       /\ w' = mkWorld (os w) (trace w ++ evs) n (ntap w)
                 (<[VM.config u := c']> (heap w))
       /\ VM.config u' = VM.config u /\ VM.tap u' = VM.tap u
       /\ VM.ID u' = VM.ID u
       /\ (err = None ->
           exists k pid,
             VM.cmd u' = Some k /\ Process k = Some pid
             /\ cmd_Env k =
                ["_EXEC_REQ=" +:+ Bridge.encodeReq
                                    (VM.request c' (os_HOME (os w)))]
             /\ EvSpawn (cmd_Env k) ∈ evs)) w Hc Ht) as Hwp.
  apply wp_elim in Hwp.
  - destruct Hwp as (r & w' & Hrun & u' & err & evs & n & h & extra & H).
    cbv zeta in H. destruct H as (-> & -> & H).
    exists u', err, evs, n, h, extra. cbv zeta. by split.
  - intros u' err evs n h extra Hcfg Htap Hid c' Hspawn.
    exists u', err, evs, n, h, extra. cbv zeta. repeat split; try done.
Qed.

(** C10. [Start] of either backend writes through the config pointer:
    after it returns, the config the caller passed holds the old [Args]
    followed by the flags [Start] assembled. A further [Start], on the same
    instance or on any instance that shares the pointer, appends its flags
    once more behind them, and the argv it spawns is that doubled list.
    For backend B this holds for every order in which the two calls visit
    the drives. *)
Theorem Start_appends_to_shared_config :
  (forall (u : UML.uml) (c : UML.UMLConfig) (t : Tap)
          (w : World UML.UMLConfig),
     heap w !! UML.config u = Some c -> UML.tap u = Some t ->
     exists u' err w1 c1 h1 x1,
       UML.Start u w = (Returned (u', err), w1)
       /\ UML.config u' = UML.config u /\ UML.tap u' = Some t
       /\ heap w1 !! UML.config u = Some c1
       /\ UML.Args c1 = UML.Args c ++ UML.backendFlags (UML.ID u) (Name t) h1
                          ++ UML.memFlag c ++ x1
       /\ forall u2 t2,
           UML.config u2 = UML.config u -> UML.tap u2 = Some t2 ->
           exists u2' err2 w2 c2 h2 x2,
             UML.Start u2 w1 = (Returned (u2', err2), w2)
             /\ heap w2 !! UML.config u = Some c2
             /\ UML.Args c2 =
                  (UML.Args c ++ UML.backendFlags (UML.ID u) (Name t) h1
                     ++ UML.memFlag c ++ x1)
                  ++ UML.backendFlags (UML.ID u2) (Name t2) h2
                  ++ UML.memFlag c ++ x2
             /\ (err2 = None ->
                 exists k,
                   UML.cmd u2' = Some k
                   /\ cmd_Env k =
                      ["_EXEC_REQ=" +:+ Bridge.encodeReq
                                          (UML.request c2 (os_HOME (os w)))]
                   /\ Bridge.Argv (UML.request c2 (os_HOME (os w)))
                      = "linux" :: UML.Args c2
                   /\ EvSpawn (cmd_Env k) ∈ trace w2))
  /\ (forall (order : list string) (u : VM.vm) (c : VM.VMConfig) (t : Tap)
             (w : World VM.VMConfig),
        heap w !! VM.config u = Some c -> VM.tap u = Some t ->
        exists u' err w1 c1 h1 x1,
          VM.Start order u w = (Returned (u', err), w1)
          /\ VM.config u' = VM.config u /\ VM.tap u' = Some t
          /\ heap w1 !! VM.config u = Some c1
          /\ VM.Args c1 = VM.Args c
                            ++ VM.backendFlags (VM.Kernel c) (Name t) h1
                            ++ VM.memFlag c ++ x1
          /\ forall order2 u2 t2,
              VM.config u2 = VM.config u -> VM.tap u2 = Some t2 ->
              exists u2' err2 w2 c2 h2 x2,
                VM.Start order2 u2 w1 = (Returned (u2', err2), w2)
                /\ heap w2 !! VM.config u = Some c2
                /\ VM.Args c2 =
                     (VM.Args c ++ VM.backendFlags (VM.Kernel c) (Name t) h1
                        ++ VM.memFlag c ++ x1)
                     ++ VM.backendFlags (VM.Kernel c) (Name t2) h2
                     ++ VM.memFlag c ++ x2
                /\ (err2 = None ->
                    exists k,
                      VM.cmd u2' = Some k
                      /\ cmd_Env k =
                         ["_EXEC_REQ=" +:+ Bridge.encodeReq
                                             (VM.request c2 (os_HOME (os w)))]
                      /\ Bridge.Argv (VM.request c2 (os_HOME (os w)))
                         = VM.qemu :: VM.Args c2
                      /\ EvSpawn (cmd_Env k) ∈ trace w2)).
Proof.
  split.
  - intros u c t w Hc Ht.
    destruct (UML_Start_run u c t w Hc Ht)
      as (u' & err & evs & n & h1 & x1 & Hrun & Hcfg & Htap & Hid & _).
    cbv zeta in Hrun.
    eexists u', err, _, _, h1, x1. split; [exact Hrun|].
    split; [exact Hcfg|]. split; [congruence|].
    split; [simpl; apply lookup_insert_eq|]. split; [reflexivity|].
    intros u2 t2 Hcfg2 Htap2.
    set (c1 := UML.set_hostFS h1 _) in *.
    set (w1 := mkWorld _ _ _ _ _) in *.
    assert (Hc1 : heap w1 !! UML.config u2 = Some c1)
      by (rewrite Hcfg2; apply lookup_insert_eq).
    destruct (UML_Start_run u2 c1 t2 w1 Hc1 Htap2)
      as (u2' & err2 & evs2 & n2 & h2 & x2 & Hrun2 & _ & _ & _ & Hspawn).
    cbv zeta in Hrun2, Hspawn.
    eexists u2', err2, _, _, h2, x2. split; [exact Hrun2|].
    split; [simpl; rewrite Hcfg2; apply lookup_insert_eq|].
    split; [reflexivity|].
    intros He. destruct (Hspawn He) as (k & pid & Hk & _ & Henv & Hin).
    exists k. split; [exact Hk|]. split; [exact Henv|]. split; [reflexivity|].
    simpl. apply elem_of_app. by right.
  - intros order u c t w Hc Ht.
    destruct (VM_Start_run order u c t w Hc Ht)
      as (u' & err & evs & n & h1 & x1 & Hrun & Hcfg & Htap & Hid & _).
    cbv zeta in Hrun.
    eexists u', err, _, _, h1, x1. split; [exact Hrun|].
    split; [exact Hcfg|]. split; [congruence|].
    split; [simpl; apply lookup_insert_eq|]. split; [reflexivity|].
    intros order2 u2 t2 Hcfg2 Htap2.
    set (c1 := VM.set_netFS h1 _) in *.
    set (w1 := mkWorld _ _ _ _ _) in *.
    assert (Hc1 : heap w1 !! VM.config u2 = Some c1)
      by (rewrite Hcfg2; apply lookup_insert_eq).
    destruct (VM_Start_run order2 u2 c1 t2 w1 Hc1 Htap2)
      as (u2' & err2 & evs2 & n2 & h2 & x2 & Hrun2 & _ & _ & _ & Hspawn).
    cbv zeta in Hrun2, Hspawn.
    eexists u2', err2, _, _, h2, x2. split; [exact Hrun2|].
    split; [simpl; rewrite Hcfg2; apply lookup_insert_eq|].
    split; [reflexivity|].
    intros He. destruct (Hspawn He) as (k & pid & Hk & _ & Henv & Hin).
    exists k. split; [exact Hk|]. split; [exact Henv|]. split; [reflexivity|].
    simpl. apply elem_of_app. by right.
Qed.

(** ** Teardown and failure paths *)

(** [Kill] on an instance whose command was never created: the deferred
    cleanup runs and closes the tap, then the nil dereference of [u.cmd]
    panics. *)
Lemma UML_Kill_without_cmd u t (w : World UML.UMLConfig) :
  UML.tap u = Some t -> UML.cmd u = None ->
  UML.Kill u w =
  (Panicked,
   mkWorld (os w)
     (trace w ++ map EvRemoveAll (UML.tempFiles u) ++ [EvTapClose (Name t)])
     (ntemp w) (ntap w) (heap w)).
Proof.
  intros Ht Hcmd. unfold UML.Kill, defer, ProcessKill. rewrite Hcmd.
  unfold panic. simpl. by rewrite (UMLFacts.cleanup_run u t).
Qed.

Lemma VM_Kill_without_cmd u t (w : World VM.VMConfig) :
  VM.tap u = Some t -> VM.cmd u = None ->
  VM.Kill u w =
  (Panicked,
   mkWorld (os w)
     (trace w ++ map EvRemoveAll (VM.tempFiles u) ++ [EvTapClose (Name t)])
     (ntemp w) (ntap w) (heap w)).
Proof.
  intros Ht Hcmd. unfold VM.Kill, defer, ProcessKill. rewrite Hcmd.
  unfold panic. simpl. by rewrite (VMFacts.vm_cleanup_run u t).
Qed.

(** An instance that [NewInstance] returns has no command and no temp
    files, and it has a tap exactly when no error is returned with it. *)
Lemma UML_NewInstance_fresh m p (w : World UML.UMLConfig) m' u err w' :
  UML.NewInstance m p w = (Returned (m', Some u, err), w') ->
  UML.cmd u = None /\ UML.tempFiles u = [] /\ UML.config u = p
  /\ (err = None -> exists t, UML.tap u = Some t)
  /\ (err <> None -> UML.tap u = None).
Proof.
  intros H.
  set (post := fun (r : outcome (UML.UMLManager * option UML.uml * option error))
                   (_ : World UML.UMLConfig) =>
    forall m' u err, r = Returned (m', Some u, err) ->
      UML.cmd u = None /\ UML.tempFiles u = [] /\ UML.config u = p
      /\ (err = None -> exists t, UML.tap u = Some t)
      /\ (err <> None -> UML.tap u = None)).
  cut (wp (UML.NewInstance m p) post w).
  { unfold wp. rewrite H. simpl. intros Hwp. by apply (Hwp m' u err). }
  clear H m' u err w'.
  unfold UML.NewInstance. cbv zeta. wp_step.
  destruct (heap w !! p) as [c|] eqn:Hc;
    [|unfold wp, load; rewrite Hc; simpl; intros m' u err Heq; discriminate].
  wp_step.
  destruct (UML.Path c =? EmptyString)%string; wp_steps;
    (destruct (UML.Out c); wp_steps;
     [|destruct (os_Create _ _); wp_steps;
       [intros m' u err Heq; discriminate|]]);
    (destruct (taps_NewTap _ _ _ _); wp_steps;
     intros m' u err Heq; inversion Heq; subst; simpl;
     repeat split; try done; eauto).
Qed.

(** C1 (the code departs from it). On a fresh instance of either backend,
    [Kill] without [Start] does release the tap, in the deferred cleanup,
    and then panics instead of returning. *)
Theorem kill_before_start_panics :
  (let r := UML.NewInstance Sample.umlManager 1
              (Sample.umlWorld Sample.osOk Sample.umlConfig) in
   match fst r with
   | Returned (_, Some u, None) =>
       Sample.observe (UML.Kill u (snd r)) =
       (Panicked,
        [EvCreateLog "flynn0.log"; EvNewTap 1000 1000; EvTapClose "flynntap0"])
   | _ => False
   end)
  /\ (let r := VM.NewInstance {| VM.nextID := 0 |} 1
                 (Sample.vmWorld Sample.osOk) in
      match fst r with
      | Returned (_, Some u, None) =>
          Sample.observe (VM.Kill u (snd r)) =
          (Panicked, [EvNewTap 1000 1000; EvTapClose "flynntap0"])
      | _ => False
      end).
Proof. split; vm_compute; reflexivity. Qed.

(** When the tap allocator fails after the log file is in place,
    [NewInstance] returns its error together with the instance it had
    built, which has no tap. *)
Lemma UML_NewInstance_tap_error m p c e (w : World UML.UMLConfig) :
  heap w !! p = Some c ->
  (UML.Out c <> None \/ forall path, os_Create (os w) path = None) ->
  taps_NewTap (os w) (ntap w) (UML.User c) (UML.Group c) = Err e ->
  exists m' inst w',
    UML.NewInstance m p w = (Returned (m', Some inst, Some e), w')
    /\ UML.tap inst = None.
Proof.
  intros Hc Hlog Htap.
  cut (wp (UML.NewInstance m p)
         (fun r _ => exists m' inst,
            r = Returned (m', Some inst, Some e) /\ UML.tap inst = None) w).
  { intros Hwp. apply wp_elim in Hwp.
    destruct Hwp as (r & w' & Hrun & m' & inst & -> & Hinst).
    by exists m', inst, w'. }
  unfold UML.NewInstance. cbv zeta. wp_step. wp_step. wp_step.
  destruct (UML.Path c =? EmptyString)%string; wp_steps;
    (destruct (UML.Out c) eqn:Hout; wp_steps;
     [|destruct Hlog as [Hlog|Hlog]; [done|]; rewrite Hlog; wp_steps]);
    rewrite Htap; wp_steps; eexists _, _; split; reflexivity.
Qed.

(** C2 (the code departs from it). With no tap device left, [NewInstance]
    of either backend returns a non-nil instance along with the error; the
    path on which the log file cannot be created returns nil. *)
Theorem NewInstance_returns_instance_with_error :
  fst (UML.NewInstance Sample.umlManager 1
         (Sample.umlWorld Sample.osNoTap Sample.umlConfig))
  = Returned ({| UML.nextID := 1 |},
              Some {| UML.ID := "flynn0"; UML.config := 1; UML.tap := None;
                      UML.cmd := None; UML.tempFiles := [] |},
              Some "no tap device available")
  /\ fst (VM.NewInstance {| VM.nextID := 0 |} 1 (Sample.vmWorld Sample.osNoTap))
     = Returned ({| VM.nextID := 1 |},
                 Some {| VM.ID := "flynn0"; VM.config := 1; VM.tap := None;
                         VM.cmd := None; VM.tempFiles := [] |},
                 Some "no tap device available").
Proof. split; vm_compute; reflexivity. Qed.

(** [tempCOW] of backend A when the owner of the new directory cannot be
    changed: the directory exists and is not among the temp files, so no
    later cleanup removes it. *)
Lemma UML_tempCOW_chown_error u c dir e (w : World UML.UMLConfig) :
  heap w !! UML.config u = Some c ->
  os_TempDir (os w) (ntemp w) = Ok dir ->
  os_Chown (os w) dir (UML.User c) (UML.Group c) = Some e ->
  UML.tempCOW u w =
  (Returned (u, EmptyString, Some e),
   mkWorld (os w)
     (trace w ++ [EvTempDir dir; EvChown dir (UML.User c) (UML.Group c)])
     (S (ntemp w)) (ntap w) (heap w)).
Proof.
  intros Hc Htmp Hown.
  unfold UML.tempCOW, TempDir, Chown, ask, emit, load, mbind, M_bind, mret, M_ret.
  rewrite Htmp. simpl. rewrite Hc. simpl. rewrite Hown. simpl.
  by rewrite <- !app_assoc.
Qed.

(** C5 (the code departs from it). Backend A: when the scratch directory
    for the interface descriptor cannot be created, [Start] goes on, spawns
    the bridge and returns no error; when the overlay directory cannot be
    chowned, [Start] returns the error after a cleanup that removes the
    scratch directory and closes the tap but leaves the overlay directory
    [/tmp/1] behind. Backend B registers the overlay directory first and
    removes both. *)
Theorem Start_failure_paths :
  (match Sample.observe
           (UML.Start Sample.umlInst
              (Sample.umlWorld Sample.osNoScratch Sample.umlConfigNoDrives))
   with
   | (Returned (u', None), [EvSpawn _]) => UML.tempFiles u' = []
   | _ => False
   end)
  /\ (match Sample.observe
              (UML.Start Sample.umlInst
                 (Sample.umlWorld Sample.osNoChown Sample.umlConfig))
      with
      | (Returned (u', err), tr) =>
          err = Some "chown: operation not permitted"
          /\ UML.tempFiles u' = []
          /\ tr = [EvTempDir "/tmp/0"; EvChmod "/tmp/0";
                   EvCreate "/tmp/0/eth0"; EvTapWrite "flynntap0";
                   EvTempDir "/tmp/1"; EvChown "/tmp/1" 1000 1000;
                   EvRemoveAll "/tmp/0"; EvTapClose "flynntap0"]
      | _ => False
      end)
  /\ (match Sample.observe
              (VM.Start ["hda"; "hdb"] Sample.vmInst
                 (Sample.vmWorld Sample.osNoChown))
      with
      | (Returned (u', err), tr) =>
          err = Some "chown: operation not permitted"
          /\ tr = [EvTempDir "/tmp/0"; EvChmod "/tmp/0";
                   EvCreate "/tmp/0/eth0"; EvTapWrite "flynntap0";
                   EvTempDir "/tmp/1"; EvChown "/tmp/1" 1000 1000;
                   EvRemoveAll "/tmp/0"; EvRemoveAll "/tmp/1";
                   EvTapClose "flynntap0"]
      | _ => False
      end).
Proof.
  split; [|split]; vm_compute; repeat split; reflexivity.
Qed.

(** [Wait] and then [Kill] on a started instance: every temp file is
    removed once, by the first cleanup, and the tap is closed by both. *)
Lemma UML_Wait_then_Kill u t k pid (w : World UML.UMLConfig) :
  UML.tap u = Some t -> UML.cmd u = Some k -> Process k = Some pid ->
  exists u1 w1 u2,
    UML.Wait u w = (Returned (os_Wait (os w) pid, u1), w1)
    /\ UML.tempFiles u1 = []
    /\ UML.Kill u1 w1 =
       (Returned (os_Kill (os w) pid, u2),
        mkWorld (os w)
          (trace w ++ [EvWait pid] ++ map EvRemoveAll (UML.tempFiles u)
             ++ [EvTapClose (Name t)] ++ [EvKill pid] ++ [EvTapClose (Name t)])
          (ntemp w) (ntap w) (heap w)).
Proof.
  intros Ht Hk Hpid.
  unfold UML.Wait, UML.Kill, defer, CmdWait, ProcessKill.
  rewrite Hk, Hpid. unfold mbind, M_bind, ask, emit, mret, M_ret. simpl.
  rewrite (UMLFacts.cleanup_run u t) by done. simpl.
  eexists _, _, _. split; [reflexivity|]. split; [reflexivity|].
  simpl. rewrite Hk, Hpid. simpl.
  rewrite (UMLFacts.cleanup_run _ t) by done. simpl.
  by rewrite <- !app_assoc.
Qed.

Lemma UML_Kill_then_Wait u t k pid (w : World UML.UMLConfig) :
  UML.tap u = Some t -> UML.cmd u = Some k -> Process k = Some pid ->
  exists u1 w1 u2,
    UML.Kill u w = (Returned (os_Kill (os w) pid, u1), w1)
    /\ UML.tempFiles u1 = []
    /\ UML.Wait u1 w1 =
       (Returned (os_Wait (os w) pid, u2),
        mkWorld (os w)
          (trace w ++ [EvKill pid] ++ map EvRemoveAll (UML.tempFiles u)
             ++ [EvTapClose (Name t)] ++ [EvWait pid] ++ [EvTapClose (Name t)])
          (ntemp w) (ntap w) (heap w)).
Proof.
  intros Ht Hk Hpid.
  unfold UML.Wait, UML.Kill, defer, CmdWait, ProcessKill.
  rewrite Hk, Hpid. unfold mbind, M_bind, ask, emit, mret, M_ret. simpl.
  rewrite (UMLFacts.cleanup_run u t) by done. simpl.
  eexists _, _, _. split; [reflexivity|]. split; [reflexivity|].
  simpl. rewrite Hk, Hpid. simpl.
  rewrite (UMLFacts.cleanup_run _ t) by done. simpl.
  by rewrite <- !app_assoc.
Qed.

(** C6 (the code departs from it). A started instance of either backend,
    waited for and then killed: both calls return, each temp directory is
    removed once, and the tap is closed twice. *)
Theorem cleanup_twice_closes_tap_twice :
  (match fst (UML.Start Sample.umlInst
                (Sample.umlWorld Sample.osOk Sample.umlConfig)) with
   | Returned (u, None) =>
       let w := snd (UML.Start Sample.umlInst
                       (Sample.umlWorld Sample.osOk Sample.umlConfig)) in
       match UML.Wait u w with
       | (Returned (None, u1), w1) =>
           match Sample.observe (UML.Kill u1 w1) with
           | (Returned (None, _), tr) =>
               Sample.count Sample.isTapClose tr = 2%nat
               /\ Sample.count (Sample.isRemoveAll "/tmp/0") tr = 1%nat
               /\ Sample.count (Sample.isRemoveAll "/tmp/1") tr = 1%nat
           | _ => False
           end
       | _ => False
       end
   | _ => False
   end)
  /\ (match fst (VM.Start ["hda"; "hdb"] Sample.vmInst
                   (Sample.vmWorld Sample.osOk)) with
      | Returned (u, None) =>
          let w := snd (VM.Start ["hda"; "hdb"] Sample.vmInst
                          (Sample.vmWorld Sample.osOk)) in
          match VM.Kill u w with
          | (Returned (None, u1), w1) =>
              match Sample.observe (VM.Wait u1 w1) with
              | (Returned (None, _), tr) =>
                  Sample.count Sample.isTapClose tr = 2%nat
                  /\ Sample.count (Sample.isRemoveAll "/tmp/0") tr = 1%nat
                  /\ Sample.count (Sample.isRemoveAll "/tmp/1") tr = 1%nat
              | _ => False
              end
          | _ => False
          end
      | _ => False
      end).
Proof.
  split; vm_compute; repeat split; reflexivity.
Qed.

(** C9 (the code departs from it). The overlay tool exits with status 1
    after printing [Sample.toolOutput]: the error [tempCOW] returns names
    the exit status only. The tool had been run, after the directory was
    created and chowned. *)
Theorem tempCOW_drops_tool_output :
  fst (os_Run Sample.osToolFails (VM.qemuImg "rootfs.img" "/tmp/0/fs.img"))
  = Some "exit status 1"
  /\ snd (os_Run Sample.osToolFails (VM.qemuImg "rootfs.img" "/tmp/0/fs.img"))
     = Sample.toolOutput
  /\ Sample.observe
       (VM.tempCOW Sample.vmInst "rootfs.img" (Sample.vmWorld Sample.osToolFails))
     = (Returned
          (VM.set_tempFiles ["/tmp/0"] Sample.vmInst, EmptyString,
           Some "failed to create COW filesystem: exit status 1"),
        [EvTempDir "/tmp/0"; EvChown "/tmp/0" 1000 1000;
         EvRun (VM.qemuImg "rootfs.img" "/tmp/0/fs.img")]).
Proof.
  split; [|split]; vm_compute; reflexivity.
Qed.

(** ** Instances on the sample worlds *)

Lemma sample_req_wf : Bridge.wfReq Sample.req.
Proof.
  unfold Bridge.wfReq, Gob.int64.
  split_and!.
  - vm_compute. discriminate.
  - vm_compute. reflexivity.
  - vm_compute. discriminate.
  - vm_compute. reflexivity.
  - vm_compute. reflexivity.
  - vm_compute. reflexivity.
  - repeat (apply Forall_cons; split; [vm_compute; reflexivity|]).
    apply Forall_nil_2.
  - vm_compute. reflexivity.
  - repeat (apply Forall_cons; split; [vm_compute; reflexivity|]).
    apply Forall_nil_2.
  - vm_compute. reflexivity.
  - vm_compute. reflexivity.
Qed.

Lemma exec_request_round_trip_witness :
  Bridge.wfReq Sample.req
  /\ exists cmd err w',
       Bridge.start Sample.req None
         (Sample.umlWorld Sample.osOk Sample.umlConfig)
       = (Returned (Some cmd, err), w')
       /\ Getenv (cmd_Env cmd) "_EXEC_REQ" = Bridge.encodeReq Sample.req
       /\ Getenv (cmd_Env cmd) "_EXEC_REQ" <> EmptyString
       /\ Bridge.decodeReq (Getenv (cmd_Env cmd) "_EXEC_REQ") = Some Sample.req.
Proof.
  split; [exact sample_req_wf|].
  apply (exec_request_round_trip _ Sample.req None
           (Sample.umlWorld Sample.osOk Sample.umlConfig)).
  exact sample_req_wf.
Defined.

Lemma sample_environ_set :
  Getenv ["_EXEC_REQ=" +:+ Bridge.encodeReq Sample.req] "_EXEC_REQ"
  <> EmptyString.
Proof. rewrite BridgeFacts.Getenv_exec_req. apply BridgeFacts.encodeReq_nonempty. Qed.

Lemma sample_environ_decodes :
  Bridge.decodeReq
    (Getenv ["_EXEC_REQ=" +:+ Bridge.encodeReq Sample.req] "_EXEC_REQ")
  = Some Sample.req.
Proof. vm_compute. reflexivity. Qed.

Lemma maybeExec_privilege_drop_witness :
  exists tr h,
    Bridge.maybeExec Sample.sysOk
      ["_EXEC_REQ=" +:+ Bridge.encodeReq Sample.req] []
    = (inr h, tr)
    /\ Bridge.attempt Sample.sysOk (Bridge.plan Sample.req) = (tr, h)
    /\ h = Bridge.Replaced.
Proof.
  destruct (maybeExec_privilege_drop Sample.sysOk
              ["_EXEC_REQ=" +:+ Bridge.encodeReq Sample.req] Sample.req
              sample_environ_set sample_environ_decodes)
    as (tr & h & Hrun & Hatt & _).
  exists tr, h. split; [exact Hrun|]. split; [exact Hatt|].
  vm_compute in Hatt. congruence.
Defined.

Lemma Start_appends_to_shared_config_witness :
  (exists u' err w1 c1,
     UML.Start Sample.umlInst (Sample.umlWorld Sample.osOk Sample.umlConfig)
     = (Returned (u', err), w1)
     /\ heap w1 !! 1%nat = Some c1
     /\ exists h1 x1,
         UML.Args c1 = UML.Args Sample.umlConfig
                         ++ UML.backendFlags "flynn0" "flynntap0" h1
                         ++ UML.memFlag Sample.umlConfig ++ x1)
  /\ (exists u' err w1 c1,
        VM.Start ["hdb"; "hda"] Sample.vmInst (Sample.vmWorld Sample.osOk)
        = (Returned (u', err), w1)
        /\ heap w1 !! 1%nat = Some c1
        /\ exists h1 x1,
            VM.Args c1 = VM.Args Sample.vmConfig
                           ++ VM.backendFlags "vmlinuz" "flynntap0" h1
                           ++ VM.memFlag Sample.vmConfig ++ x1).
Proof.
  split.
  - destruct (proj1 Start_appends_to_shared_config Sample.umlInst
                Sample.umlConfig (Sample.tapOf 0)
                (Sample.umlWorld Sample.osOk Sample.umlConfig)
                eq_refl eq_refl)
      as (u' & err & w1 & c1 & h1 & x1 & Hrun & _ & _ & Hc1 & Hargs & _).
    exists u', err, w1, c1. split; [exact Hrun|]. split; [exact Hc1|].
    exists h1, x1. exact Hargs.
  - destruct (proj2 Start_appends_to_shared_config ["hdb"; "hda"]
                Sample.vmInst Sample.vmConfig (Sample.tapOf 0)
                (Sample.vmWorld Sample.osOk) eq_refl eq_refl)
      as (u' & err & w1 & c1 & h1 & x1 & Hrun & _ & _ & Hc1 & Hargs & _).
    exists u', err, w1, c1. split; [exact Hrun|]. split; [exact Hc1|].
    exists h1, x1. exact Hargs.
Defined.

Lemma sample_spawns (o : OS) :
  os_Start o = (fun _ => Ok 42%nat) ->
  forall env, exists pid, os_Start o env = Ok pid.
Proof. intros -> env. by exists 42%nat. Qed.

Lemma uml_start_argv_witness :
  exists u' w' evs k req,
    UML.Start Sample.umlInst (Sample.umlWorld Sample.osOk Sample.umlConfig)
    = (Returned (u', None), w')
    /\ trace w' = evs
    /\ UML.cmd u' = Some k
    /\ cmd_Env k = ["_EXEC_REQ=" +:+ Bridge.encodeReq req]
    /\ "mem=512MB" ∈ Bridge.Argv req
    /\ ("ubd0=" +:+ filepath.Join "/tmp/1" "fs.cow1" +:+ ",rootfs.img")
         ∈ Bridge.Argv req
    /\ "eth0=tuntap,flynntap0" ∈ Bridge.Argv req.
Proof.
  destruct (uml_start_argv Sample.umlInst Sample.umlConfig (Sample.tapOf 0)
              (Sample.umlWorld Sample.osOk Sample.umlConfig) "/tmp/1"
              eq_refl eq_refl eq_refl eq_refl eq_refl eq_refl
              (sample_spawns Sample.osOk eq_refl))
    as (u' & w' & evs & k & req & Hrun & Htr & Hk & Henv & _ & _ & _
        & Hmem & Hubd & Heth).
  exists u', w', evs, k, req. repeat split; assumption.
Defined.

Lemma sample_order :
  ["hdb"; "hda"] ≡ₚ (map_to_list (VM.Drives Sample.vmConfig)).*1.
Proof.
  change ((map_to_list (VM.Drives Sample.vmConfig)).*1) with ["hda"; "hdb"].
  apply perm_swap.
Qed.

Lemma vm_start_argv_witness :
  exists u' w' k req,
    VM.Start ["hdb"; "hda"] Sample.vmInst (Sample.vmWorld Sample.osOk)
    = (Returned (u', None), w')
    /\ VM.cmd u' = Some k
    /\ cmd_Env k = ["_EXEC_REQ=" +:+ Bridge.encodeReq req]
    /\ VM.hasPair (Bridge.Argv req) "-hda" (filepath.Join "/tmp/1" "fs.img")
    /\ VM.hasPair (Bridge.Argv req) "-hdb" "data.img".
Proof.
  destruct (vm_start_argv Sample.vmInst Sample.vmConfig (Sample.tapOf 0)
              (Sample.vmWorld Sample.osOk) "/tmp/1" ["hdb"; "hda"]
              eq_refl eq_refl eq_refl sample_order eq_refl eq_refl eq_refl
              eq_refl (sample_spawns Sample.osOk eq_refl))
    as (u' & w' & evs & k & req & Hrun & _ & Hk & Henv & _ & _ & _ & _
        & Hhda & Hhdb).
  exists u', w', k, req. repeat split; assumption.
Defined.

(** * Further properties *)

(** ** The receiving side of the bridge *)

(** X1. [maybeExec] gives control back to [main] exactly when [_EXEC_REQ]
    is unset or empty, and then it has made no call. *)
Theorem maybeExec_returns_iff_unset (sys : Bridge.Sys) (environ : list string) :
  ((exists tr, Bridge.maybeExec sys environ [] = (inl tt, tr))
   <-> Getenv environ "_EXEC_REQ" = EmptyString)
  /\ (forall tr, Bridge.maybeExec sys environ [] = (inl tt, tr) -> tr = []).
Proof.
  assert (Hret : forall tr, Bridge.maybeExec sys environ [] = (inl tt, tr) ->
                            Getenv environ "_EXEC_REQ" = EmptyString).
  { intros tr Hrun.
    destruct (String.eqb_spec (Getenv environ "_EXEC_REQ") EmptyString)
      as [Heq|Hne]; [exact Heq|exfalso].
    destruct (Bridge.decodeReq (Getenv environ "_EXEC_REQ")) as [req|] eqn:Hdec.
    - rewrite (BridgeFacts.maybeExec_attempt sys environ req Hne Hdec) in Hrun.
      discriminate.
    - unfold Bridge.maybeExec in Hrun. apply String.eqb_neq in Hne.
      rewrite Hne, Hdec in Hrun. discriminate. }
  split; [split|].
  - intros [tr Hrun]. by apply (Hret tr).
  - intros Heq. exists []. by apply BridgeFacts.maybeExec_absent.
  - intros tr Hrun. pose proof (Hret tr Hrun) as Heq.
    rewrite (BridgeFacts.maybeExec_absent sys environ [] Heq) in Hrun.
    congruence.
Qed.

(** X2. With [_EXEC_REQ] set, [maybeExec] never returns: the process ends
    in [exec] or in a fatal exit with status 1, whatever the variable holds
    and whatever the system answers. *)
Theorem maybeExec_never_falls_through (sys : Bridge.Sys)
    (environ : list string) :
  Getenv environ "_EXEC_REQ" <> EmptyString ->
  exists h tr,
    Bridge.maybeExec sys environ [] = (inr h, tr)
    /\ (h = Bridge.Replaced \/ Bridge.exitStatus h = Some 1%Z).
Proof.
  intros Hne.
  destruct (Bridge.decodeReq (Getenv environ "_EXEC_REQ")) as [req|] eqn:Hdec.
  - rewrite (BridgeFacts.maybeExec_attempt sys environ req Hne Hdec).
    eexists _, _. split; [reflexivity|].
    destruct (snd _); [by right|by left].
  - unfold Bridge.maybeExec. apply String.eqb_neq in Hne. rewrite Hne, Hdec.
    eexists _, _. split; [reflexivity|]. by right.
Qed.

(** X3. A value of [_EXEC_REQ] that does not decode is fatal before any
    system call: no setgid, setuid, chdir or exec is attempted. *)
Theorem maybeExec_corrupt_request (sys : Bridge.Sys) (environ : list string) :
  Getenv environ "_EXEC_REQ" <> EmptyString ->
  Bridge.decodeReq (Getenv environ "_EXEC_REQ") = None ->
  Bridge.maybeExec sys environ [] = (inr (Bridge.Fatal Bridge.FatalDecode), []).
Proof.
  intros Hne Hdec. unfold Bridge.maybeExec.
  apply String.eqb_neq in Hne. by rewrite Hne, Hdec.
Qed.

Lemma corrupt_environ_set : Getenv ["_EXEC_REQ=%%%"] "_EXEC_REQ" <> EmptyString.
Proof. vm_compute. discriminate. Qed.

Lemma corrupt_environ_fails :
  Bridge.decodeReq (Getenv ["_EXEC_REQ=%%%"] "_EXEC_REQ") = None.
Proof. vm_compute. reflexivity. Qed.

Lemma maybeExec_never_falls_through_witness :
  exists h tr,
    Bridge.maybeExec Sample.sysOk ["_EXEC_REQ=%%%"] [] = (inr h, tr)
    /\ (h = Bridge.Replaced \/ Bridge.exitStatus h = Some 1%Z).
Proof.
  exact (maybeExec_never_falls_through Sample.sysOk ["_EXEC_REQ=%%%"]
           corrupt_environ_set).
Defined.

Lemma maybeExec_corrupt_request_witness :
  Bridge.maybeExec Sample.sysOk ["_EXEC_REQ=%%%"] []
  = (inr (Bridge.Fatal Bridge.FatalDecode), []).
Proof.
  exact (maybeExec_corrupt_request Sample.sysOk ["_EXEC_REQ=%%%"]
           corrupt_environ_set corrupt_environ_fails).
Defined.

(** ** The instance manager *)

Lemma counter_step (n : N) :
  (n < 2 ^ 64)%N ->
  ((((n + 1) mod 2 ^ 64) + 2 ^ 64 - 1) mod 2 ^ 64 = n)%N.
Proof.
  change (2 ^ 64)%N with 18446744073709551616%N. intros Hn. lia.
Qed.

(** What [NewInstance] does when the config pointer is valid: the config
    it leaves behind, and the three ways it can end. *)
Lemma UML_NewInstance_run m p c (w : World UML.UMLConfig) :
  heap w !! p = Some c -> (UML.nextID m < 2 ^ 64)%N ->
  let id := "flynn" +:+ pretty (UML.nextID m) in
  let m' := {| UML.nextID := ((UML.nextID m + 1) mod 2 ^ 64)%N |} in
  let inst t := {| UML.ID := id; UML.config := p; UML.tap := t;
                   UML.cmd := None; UML.tempFiles := [] |} in
  let tapped (evs : list Event) (c' : UML.UMLConfig) :=
    (Returned (m',
               Some (inst (match taps_NewTap (os w) (ntap w) (UML.User c)
                                   (UML.Group c) with
                           | Ok t => Some t
                           | Err _ => None
                           end)),
               match taps_NewTap (os w) (ntap w) (UML.User c) (UML.Group c) with
               | Ok _ => None
               | Err e => Some e
               end),
     mkWorld (os w) (trace w ++ evs ++ [EvNewTap (UML.User c) (UML.Group c)])
       (ntemp w) (S (ntap w)) (<[p := c']> (heap w))) in
  UML.NewInstance m p w =
  match UML.Out c with
  | Some _ => tapped [] (defaulted c)
  | None =>
      match os_Create (os w) (id +:+ ".log") with
      | Some e =>
          (Returned (m', None, Some e),
           mkWorld (os w) (trace w ++ [EvCreateLog (id +:+ ".log")])
             (ntemp w) (ntap w)
             (<[p := UML.set_Out (Some NilFile) (defaulted c)]> (heap w)))
      | None =>
          tapped [EvCreateLog (id +:+ ".log")]
            (UML.set_Out (Some (File (id +:+ ".log"))) (defaulted c))
      end
  end.
Proof.
  intros Hc Hn. cbv zeta.
  match goal with
  | |- _ = ?rhs =>
      cut (wp (UML.NewInstance m p) (fun r w' => (r, w') = rhs) w)
  end.
  { unfold wp. destruct (UML.NewInstance m p w). simpl. done. }
  unfold UML.NewInstance, defaulted. cbv zeta.
  rewrite (counter_step _ Hn). wp_step. wp_step. wp_step.
  destruct (UML.Path c =? EmptyString)%string; wp_steps;
    (destruct (UML.Out c) as [o|] eqn:Hout; wp_steps;
     [|destruct (os_Create _ _) as [e|]; wp_steps]);
    try (destruct (taps_NewTap _ _ _ _); wp_steps);
    rewrite ?insert_insert_eq, <- ?app_assoc; simpl;
    rewrite ?(insert_id (heap w) p c Hc); reflexivity.
Qed.

Lemma UML_NewInstance_nil m p (w : World UML.UMLConfig) :
  heap w !! p = None -> UML.NewInstance m p w = (Panicked, w).
Proof.
  intros Hc. unfold UML.NewInstance, load, mbind, M_bind. by rewrite Hc.
Qed.

Lemma flynn_id_inj (a b : N) :
  "flynn" +:+ pretty a = "flynn" +:+ pretty b -> a = b.
Proof.
  intros H. apply (inj (String.append "flynn")) in H. by apply (inj pretty) in H.
Qed.

(** X4. Every call of [NewInstance] that finds its config advances the
    counter of the manager by one, whether or not it returns an instance,
    and an instance it returns is named [flynn<n>] for the value [n] the
    counter had; two consecutive calls never give the same name. *)
Theorem NewInstance_ids (m : UML.UMLManager) (p1 p2 : nat)
    (w1 w2 : World UML.UMLConfig) m1 r1 e1 w1' m2 r2 e2 w2' :
  (UML.nextID m < 2 ^ 64)%N ->
  UML.NewInstance m p1 w1 = (Returned (m1, r1, e1), w1') ->
  UML.NewInstance m1 p2 w2 = (Returned (m2, r2, e2), w2') ->
  UML.nextID m1 = ((UML.nextID m + 1) mod 2 ^ 64)%N
  /\ UML.nextID m2 = ((UML.nextID m1 + 1) mod 2 ^ 64)%N
  /\ (forall u1, r1 = Some u1 ->
                 UML.ID u1 = "flynn" +:+ pretty (UML.nextID m))
  /\ (forall u2, r2 = Some u2 ->
                 UML.ID u2 = "flynn" +:+ pretty (UML.nextID m1))
  /\ (forall u1 u2, r1 = Some u1 -> r2 = Some u2 -> UML.ID u1 <> UML.ID u2).
Proof.
  intros Hn H1 H2.
  assert (Hn1 : (((UML.nextID m + 1) mod 2 ^ 64) < 2 ^ 64)%N)
    by (apply N.mod_lt; discriminate).
  assert (Hcall : forall m0 p (w : World UML.UMLConfig) m' r e w',
    (UML.nextID m0 < 2 ^ 64)%N ->
    UML.NewInstance m0 p w = (Returned (m', r, e), w') ->
    UML.nextID m' = ((UML.nextID m0 + 1) mod 2 ^ 64)%N
    /\ forall u, r = Some u -> UML.ID u = "flynn" +:+ pretty (UML.nextID m0)).
  { intros m0 p w m' r e w' Hm0 Hrun.
    destruct (heap w !! p) as [c|] eqn:Hc;
      [|by rewrite (UML_NewInstance_nil m0 p w Hc) in Hrun].
    rewrite (UML_NewInstance_run m0 p c w Hc Hm0) in Hrun. cbv zeta in Hrun.
    destruct (UML.Out c); [|destruct (os_Create _ _)];
      inversion Hrun; subst; simpl; split; try done;
      intros u Hu; by inversion Hu. }
  destruct (Hcall _ _ _ _ _ _ _ Hn H1) as [Hm1 Hid1].
  rewrite <- Hm1 in Hn1.
  destruct (Hcall _ _ _ _ _ _ _ Hn1 H2) as [Hm2 Hid2].
  split; [exact Hm1|]. split; [exact Hm2|]. split; [exact Hid1|].
  split; [exact Hid2|].
  intros u1 u2 Hu1 Hu2 Heq.
  rewrite (Hid1 u1 Hu1), (Hid2 u2 Hu2) in Heq.
  apply flynn_id_inj in Heq. rewrite Hm1 in Heq.
  revert Heq Hn. change (2 ^ 64)%N with 18446744073709551616%N. lia.
Qed.

(** X5. What [NewInstance] does to the config of the caller: an empty
    [Path] becomes [linux] and any other is kept; a given [Out] is kept and
    no log file is created, a nil [Out] is replaced after creating
    [<ID>.log]; user, group, memory, drives, args and [hostFS] are as
    before, and so is every other config. *)
Theorem NewInstance_defaults (m : UML.UMLManager) (p : nat)
    (c : UML.UMLConfig) (w : World UML.UMLConfig) m' r e w' :
  heap w !! p = Some c -> (UML.nextID m < 2 ^ 64)%N ->
  UML.NewInstance m p w = (Returned (m', r, e), w') ->
  exists c' evs,
    heap w' !! p = Some c'
    /\ trace w' = trace w ++ evs
    /\ UML.Path c' = (if (UML.Path c =? EmptyString)%string then "linux"
                      else UML.Path c)
    /\ UML.Path c' <> EmptyString
    /\ UML.Out c' <> None
    /\ (forall o, UML.Out c = Some o ->
                  UML.Out c' = Some o /\ forall path, EvCreateLog path ∉ evs)
    /\ (UML.Out c = None ->
        EvCreateLog (("flynn" +:+ pretty (UML.nextID m)) +:+ ".log") ∈ evs)
    /\ UML.User c' = UML.User c /\ UML.Group c' = UML.Group c
    /\ UML.Memory c' = UML.Memory c /\ UML.Drives c' = UML.Drives c
    /\ UML.Args c' = UML.Args c /\ UML.hostFS c' = UML.hostFS c
    /\ (forall q, q <> p -> heap w' !! q = heap w !! q).
Proof.
  intros Hc Hn Hrun.
  rewrite (UML_NewInstance_run m p c w Hc Hn) in Hrun. cbv zeta in Hrun.
  assert (Hpath : UML.Path (defaulted c) =
                  (if (UML.Path c =? EmptyString)%string then "linux"
                   else UML.Path c)
                  /\ UML.Path (defaulted c) <> EmptyString).
  { unfold defaulted.
    destruct (UML.Path c =? EmptyString)%string eqn:Hp; simpl; [done|].
    split; [done|]. by apply String.eqb_neq. }
  assert (Hsame : UML.User (defaulted c) = UML.User c
                  /\ UML.Group (defaulted c) = UML.Group c
                  /\ UML.Memory (defaulted c) = UML.Memory c
                  /\ UML.Drives (defaulted c) = UML.Drives c
                  /\ UML.Args (defaulted c) = UML.Args c
                  /\ UML.hostFS (defaulted c) = UML.hostFS c
                  /\ UML.Out (defaulted c) = UML.Out c)
    by (unfold defaulted; destruct (UML.Path c =? EmptyString)%string; done).
  destruct Hpath as [Hp1 Hp2].
  destruct Hsame as (H1 & H2 & H3 & H4 & H5 & H6 & H7).
  destruct (UML.Out c) as [o|] eqn:Hout;
    [|destruct (os_Create _ _) as [err|]];
    inversion Hrun; subst; clear Hrun; simpl;
    eexists _, _; (split; [apply lookup_insert_eq|]); simpl;
    (split; [reflexivity|]); (split; [exact Hp1|]); (split; [exact Hp2|]).
  - split; [by rewrite H7|]. split.
    { intros o' Ho'. split; [congruence|]. intros path Hin.
      apply elem_of_cons in Hin as [Hin|Hin]; [done|].
      by apply elem_of_nil in Hin. }
    split; [done|].
    repeat (split; [assumption|]). intros q Hq. by apply lookup_insert_ne.
  - split; [done|]. split; [done|]. split.
    { intros _. by apply list_elem_of_singleton. }
    repeat (split; [assumption|]). intros q Hq. by apply lookup_insert_ne.
  - split; [done|]. split; [done|]. split.
    { intros _. rewrite !elem_of_cons. tauto. }
    repeat (split; [assumption|]). intros q Hq. by apply lookup_insert_ne.
Qed.

(** X6. [NewInstance] asks the allocator for a tap exactly when it returns
    an instance: when the log file cannot be created it returns nil with
    that error and has asked for no tap; otherwise asking for the tap is
    the last thing it did, and the instance holds the tap unless the
    allocator failed. *)
Theorem NewInstance_tap_accounting (m : UML.UMLManager) (p : nat)
    (c : UML.UMLConfig) (w : World UML.UMLConfig) m' r e w' :
  heap w !! p = Some c -> (UML.nextID m < 2 ^ 64)%N ->
  UML.NewInstance m p w = (Returned (m', r, e), w') ->
  exists evs,
    trace w' = trace w ++ evs
    /\ (r = None ->
        ntap w' = ntap w /\ UML.Out c = None
        /\ e = os_Create (os w)
                 (("flynn" +:+ pretty (UML.nextID m)) +:+ ".log")
        /\ e <> None
        /\ forall uid gid, EvNewTap uid gid ∉ evs)
    /\ (forall u, r = Some u ->
          ntap w' = S (ntap w)
          /\ last evs = Some (EvNewTap (UML.User c) (UML.Group c))
          /\ match taps_NewTap (os w) (ntap w) (UML.User c) (UML.Group c) with
             | Ok t => UML.tap u = Some t /\ e = None
             | Err x => UML.tap u = None /\ e = Some x
             end).
Proof.
  intros Hc Hn Hrun.
  rewrite (UML_NewInstance_run m p c w Hc Hn) in Hrun. cbv zeta in Hrun.
  destruct (UML.Out c) as [o|] eqn:Hout;
    [|destruct (os_Create _ _) as [err|] eqn:Hcreate];
    inversion Hrun; subst; clear Hrun; simpl;
    eexists; (split; [reflexivity|]); split;
    try (intros Hr; discriminate);
    try (intros u Hu; inversion Hu; subst; simpl;
         destruct (taps_NewTap _ _ _ _); done).
  intros _. repeat split; try done.
  intros uid gid Hin. apply list_elem_of_singleton in Hin. discriminate.
Qed.

(** ** Start and teardown, backend A *)

Lemma cleanedUp_app t files (evs0 evs : list Event) :
  cleanedUp t files evs -> cleanedUp t files (evs0 ++ evs).
Proof. intros [pre ->]. exists (evs0 ++ pre). by rewrite <- app_assoc. Qed.

Lemma created_app_l (evs evs' : list Event) (dirs : list string) :
  Forall (fun d => EvTempDir d ∈ evs) dirs ->
  Forall (fun d => EvTempDir d ∈ evs ++ evs') dirs.
Proof. intros H. eapply Forall_impl; [exact H|]. intros d Hd. apply elem_of_app. by left. Qed.

Lemma created_app_r (evs evs' : list Event) (dirs : list string) :
  Forall (fun d => EvTempDir d ∈ evs') dirs ->
  Forall (fun d => EvTempDir d ∈ evs ++ evs') dirs.
Proof. intros H. eapply Forall_impl; [exact H|]. intros d Hd. apply elem_of_app. by right. Qed.

(** [writeInterfaceConfig] with its calls: the directory it registers is
    one it created, and it registers every directory it creates. *)
Lemma UML_wp_writeInterfaceConfig_dirs u c t
    (Q : outcome (UML.uml * option error) -> World UML.UMLConfig -> Prop) w :
  heap w !! UML.config u = Some c -> UML.tap u = Some t ->
  (forall tmp err evs h,
      Forall (fun d => EvTempDir d ∈ evs) tmp ->
      (forall d, EvTempDir d ∈ evs -> d ∈ tmp) ->
      (forall n, EvTapClose n ∉ evs) ->
      (tmp = [] -> h = UML.hostFS c /\ err <> None) ->
      (forall d, d ∈ tmp -> h = d) ->
      Q (Returned (UML.set_tempFiles (UML.tempFiles u ++ tmp) u, err))
        (mkWorld (os w) (trace w ++ evs) (S (ntemp w)) (ntap w)
           (<[UML.config u := UML.set_hostFS h c]> (heap w)))) ->
  wp (UML.writeInterfaceConfig u) Q w.
Proof.
  intros Hc Ht HQ. unfold UML.writeInterfaceConfig.
  wp_step. wp_step.
  assert (Hdir : forall dir (evs : list Event),
    (forall d, EvTempDir d ∈ EvTempDir dir :: evs -> d = dir) ->
    (forall n, EvTapClose n ∉ EvTempDir dir :: evs) ->
    forall err,
    Q (Returned (UML.set_tempFiles (UML.tempFiles u ++ [dir]) u, err))
      (mkWorld (os w) (trace w ++ EvTempDir dir :: evs) (S (ntemp w)) (ntap w)
         (<[UML.config u := UML.set_hostFS dir c]> (heap w)))).
  { intros dir evs Honly Hnc err. apply HQ.
    - apply Forall_singleton. apply elem_of_cons. by left.
    - intros d Hd. apply list_elem_of_singleton. by apply Honly.
    - exact Hnc.
    - discriminate.
    - intros d Hd. by apply list_elem_of_singleton in Hd. }
  destruct (os_TempDir (os w) (ntemp w)) as [dir|e].
  - wp_steps.
    destruct (os_Chmod (os w) dir) as [e|].
    { wp_steps. rewrite <- !app_assoc. apply Hdir.
      - intros d Hd. repeat (apply elem_of_cons in Hd as [Hd|Hd];
          [by inversion Hd|]). by apply elem_of_nil in Hd.
      - intros n Hn. repeat (apply elem_of_cons in Hn as [Hn|Hn];
          [by inversion Hn|]). by apply elem_of_nil in Hn. }
    wp_steps.
    destruct (os_Create (os w) (filepath.Join dir "eth0")) as [e|].
    { wp_steps. rewrite <- !app_assoc. apply Hdir.
      - intros d Hd. repeat (apply elem_of_cons in Hd as [Hd|Hd];
          [by inversion Hd|]). by apply elem_of_nil in Hd.
      - intros n Hn. repeat (apply elem_of_cons in Hn as [Hn|Hn];
          [by inversion Hn|]). by apply elem_of_nil in Hn. }
    wp_step. eapply UMLFacts.wp_theTap; [exact Ht|]. wp_steps.
    rewrite <- !app_assoc. apply Hdir.
    + intros d Hd. repeat (apply elem_of_cons in Hd as [Hd|Hd];
        [by inversion Hd|]). by apply elem_of_nil in Hd.
    + intros n Hn. repeat (apply elem_of_cons in Hn as [Hn|Hn];
        [by inversion Hn|]). by apply elem_of_nil in Hn.
  - wp_step.
    specialize (HQ [] (Some e) [] (UML.hostFS c)).
    rewrite !app_nil_r in HQ.
    replace (UML.set_hostFS (UML.hostFS c) c) with c in HQ by (by destruct c).
    rewrite insert_id in HQ by done.
    replace (UML.set_tempFiles (UML.tempFiles u) u) with u in HQ
      by (by destruct u).
    apply HQ; try done.
    + intros d Hd. by apply elem_of_nil in Hd.
    + intros n Hn. by apply elem_of_nil in Hn.
    + intros d Hd. by apply elem_of_nil in Hd.
Qed.

(** X7. Whatever fails inside [writeInterfaceConfig], it returns, and the
    directories it has created are exactly those it has added to
    [tempFiles] (at most one), which is then what [hostFS] names; when it
    created none, [hostFS] is as before and the error is returned. It never
    closes the tap and touches no other field of the config. *)
Theorem writeInterfaceConfig_registers (u : UML.uml) (c : UML.UMLConfig)
    (t : Tap) (w : World UML.UMLConfig) :
  heap w !! UML.config u = Some c -> UML.tap u = Some t ->
  exists u' err w' tmp evs h,
    UML.writeInterfaceConfig u w = (Returned (u', err), w')
    /\ trace w' = trace w ++ evs
    /\ UML.tempFiles u' = UML.tempFiles u ++ tmp
    /\ heap w' = <[UML.config u := UML.set_hostFS h c]> (heap w)
    /\ (forall d, EvTempDir d ∈ evs <-> d ∈ tmp)
    /\ (forall d, d ∈ tmp -> h = d)
    /\ (tmp = [] -> h = UML.hostFS c /\ err <> None)
    /\ (forall n, EvTapClose n ∉ evs)
    /\ UML.tap u' = UML.tap u /\ UML.cmd u' = UML.cmd u
    /\ UML.ID u' = UML.ID u /\ UML.config u' = UML.config u.
Proof.
  intros Hc Ht.
  cut (wp (UML.writeInterfaceConfig u)
         (fun r w' => exists u' err tmp evs h,
            r = Returned (u', err)
            /\ trace w' = trace w ++ evs
            /\ UML.tempFiles u' = UML.tempFiles u ++ tmp
            /\ heap w' = <[UML.config u := UML.set_hostFS h c]> (heap w)
            /\ (forall d, EvTempDir d ∈ evs <-> d ∈ tmp)
            /\ (forall d, d ∈ tmp -> h = d)
            /\ (tmp = [] -> h = UML.hostFS c /\ err <> None)
            /\ (forall n, EvTapClose n ∉ evs)
            /\ UML.tap u' = UML.tap u /\ UML.cmd u' = UML.cmd u
            /\ UML.ID u' = UML.ID u /\ UML.config u' = UML.config u) w).
  { intros Hwp. apply wp_elim in Hwp.
    destruct Hwp as (r & w' & Hrun & u' & err & tmp & evs & h & -> & H).
    by exists u', err, w', tmp, evs, h. }
  eapply UML_wp_writeInterfaceConfig_dirs; [exact Hc|exact Ht|].
  intros tmp err evs h Hcreated Hreg Hnc Hnone Hhost.
  exists (UML.set_tempFiles (UML.tempFiles u ++ tmp) u), err, tmp, evs, h.
  simpl. repeat split; try done.
  - apply Hreg.
  - intros Hd. by apply (proj1 (Forall_forall _ _) Hcreated).
  - by apply Hnone.
  - by apply Hnone.
Qed.

Lemma UML_wp_tempCOW_dirs u c
    (Q : outcome (UML.uml * string * option error) -> World UML.UMLConfig -> Prop)
    w :
  heap w !! UML.config u = Some c ->
  (forall u' cow err evs newdirs,
      UML.config u' = UML.config u -> UML.tap u' = UML.tap u ->
      UML.ID u' = UML.ID u -> UML.cmd u' = UML.cmd u ->
      UML.tempFiles u' = UML.tempFiles u ++ newdirs ->
      Forall (fun d => EvTempDir d ∈ evs) newdirs ->
      (forall n, EvTapClose n ∉ evs) ->
      (err = None -> (cow =? EmptyString)%string = false) ->
      Q (Returned (u', cow, err))
        (mkWorld (os w) (trace w ++ evs) (S (ntemp w)) (ntap w) (heap w))) ->
  wp (UML.tempCOW u) Q w.
Proof.
  intros Hc HQ. unfold UML.tempCOW. wp_step. wp_step.
  destruct (os_TempDir (os w) (ntemp w)) as [dir|e].
  - wp_steps.
    destruct (os_Chown (os w) dir (UML.User c) (UML.Group c)) as [e|]; wp_steps;
      rewrite <- ?app_assoc.
    + apply (HQ u EmptyString (Some e) _ []); try done.
      * by rewrite app_nil_r.
      * intros n Hn. repeat (apply elem_of_cons in Hn as [Hn|Hn];
          [by inversion Hn|]). by apply elem_of_nil in Hn.
    + apply (HQ _ _ None _ [dir]); try done.
      * apply Forall_singleton. apply elem_of_cons. by left.
      * intros n Hn. repeat (apply elem_of_cons in Hn as [Hn|Hn];
          [by inversion Hn|]). by apply elem_of_nil in Hn.
      * intros _. apply PathFacts.Join_nonempty, PathFacts.plain_cow1.
  - wp_step. specialize (HQ u EmptyString (Some e) [] []).
    rewrite !app_nil_r in HQ. apply HQ; try done.
    intros n Hn. by apply elem_of_nil in Hn.
Qed.

(** The drive loop with its calls. On an error everything registered so
    far has been removed and the tap closed; otherwise the new directories
    are registered and the tap is still open. *)
Lemma UML_wp_startDrives_dirs ds : forall u i c t
    (Q : outcome (UML.uml * option error) -> World UML.UMLConfig -> Prop) w,
  heap w !! UML.config u = Some c -> UML.tap u = Some t ->
  (forall u' err evs n extra newdirs,
      UML.config u' = UML.config u -> UML.tap u' = UML.tap u ->
      UML.ID u' = UML.ID u -> UML.cmd u' = UML.cmd u ->
      Forall (fun d => EvTempDir d ∈ evs) newdirs ->
      match err with
      | None => UML.tempFiles u' = UML.tempFiles u ++ newdirs
                /\ forall n, EvTapClose n ∉ evs
      | Some _ => UML.tempFiles u' = []
                  /\ cleanedUp t (UML.tempFiles u ++ newdirs) evs
      end ->
      Q (Returned (u', err))
        (mkWorld (os w) (trace w ++ evs) n (ntap w)
           (<[UML.config u := UML.set_Args (UML.Args c ++ extra) c]> (heap w)))) ->
  wp (UML.startDrives u i ds) Q w.
Proof.
  induction ds as [|d ds IH]; intros u i c t Q w Hc Ht HQ.
  - rewrite UML_startDrives_nil. wp_step.
    specialize (HQ u None [] (ntemp w) [] []).
    rewrite (app_nil_r (trace w)), UMLFacts.set_Args_nil, insert_id,
      UMLFacts.world_eta in HQ by done.
    apply HQ; try done. split; [by rewrite app_nil_r|].
    intros n Hn. by apply elem_of_nil in Hn.
  - rewrite UML_startDrives_cons. wp_step.
    assert (Hbody : forall u' cow err evs n newdirs,
      UML.config u' = UML.config u -> UML.tap u' = UML.tap u ->
      UML.ID u' = UML.ID u -> UML.cmd u' = UML.cmd u ->
      UML.tempFiles u' = UML.tempFiles u ++ newdirs ->
      Forall (fun d => EvTempDir d ∈ evs) newdirs ->
      (forall n, EvTapClose n ∉ evs) ->
      wp (match err with
          | Some e => UML.cleanup u' ≫= (fun u0 => mret (u0, Some e))
          | None =>
              UML.appendArgs u'
                [if (cow =? EmptyString)%string
                 then "ubd" +:+ pretty i +:+ "=" +:+ UML.FS d
                 else "ubd" +:+ pretty i +:+ "=" +:+ cow +:+ "," +:+ UML.FS d]
              ≫= (fun _ => UML.startDrives u' (S i) ds)
          end) Q
        (mkWorld (os w) (trace w ++ evs) n (ntap w) (heap w))).
    { intros u' cow err evs n newdirs Hcfg Htap Hid Hcmd Hfiles Hcreated Hnc.
      destruct err as [e|].
      - wp_step. eapply UMLFacts.wp_cleanup; [by rewrite Htap|]. simpl. wp_step.
        specialize (HQ (UML.set_tempFiles [] u') (Some e)
                      (evs ++ map EvRemoveAll (UML.tempFiles u')
                           ++ [EvTapClose (Name t)]) n [] newdirs).
        rewrite UMLFacts.set_Args_nil, insert_id in HQ by done.
        rewrite <- !app_assoc. apply HQ; try done.
        + by apply created_app_l.
        + split; [done|]. exists evs. by rewrite Hfiles.
      - set (arg := if (cow =? EmptyString)%string then _ else _).
        wp_step. unfold UML.appendArgs. rewrite Hcfg. wp_steps.
        eapply IH.
        + simpl. rewrite Hcfg. apply lookup_insert_eq.
        + by rewrite Htap.
        + intros u'' err' evs' n' extra newdirs' Hcfg' Htap' Hid' Hcmd'
            Hcreated' Hpost. simpl.
          rewrite Hcfg, insert_insert_eq.
          replace (UML.set_Args ((UML.Args c ++ [arg]) ++ extra)
                     (UML.set_Args (UML.Args c ++ [arg]) c))
            with (UML.set_Args (UML.Args c ++ (arg :: extra)) c)
            by (unfold UML.set_Args; simpl; by rewrite <- app_assoc).
          rewrite <- app_assoc.
          apply (HQ u'' err' (evs ++ evs') n' (arg :: extra)
                   (newdirs ++ newdirs')); try congruence.
          * apply Forall_app. split;
              [by apply created_app_l|by apply created_app_r].
          * rewrite Hfiles in Hpost. rewrite app_assoc.
            destruct err' as [e'|].
            -- destruct Hpost as [Hf Hclean]. split; [done|].
               by apply cleanedUp_app.
            -- destruct Hpost as [Hf Hno]. split; [done|].
               intros k Hk. apply elem_of_app in Hk as [Hk|Hk];
                 [by apply Hnc in Hk|by apply Hno in Hk]. }
    destruct (UML.TempCOW d).
    + eapply UML_wp_tempCOW_dirs; [exact Hc|].
      intros u' cow err evs newdirs Hcfg Htap Hid Hcmd Hfiles Hcreated Hnc _.
      simpl. by apply (Hbody u' cow err evs _ newdirs).
    + wp_step. specialize (Hbody u (UML.COW d) None [] (ntemp w) []).
      rewrite !app_nil_r, UMLFacts.world_eta in Hbody. apply Hbody; try done.
      intros n Hn. by apply elem_of_nil in Hn.
Qed.

(** [Start] with its calls. *)
Lemma UML_wp_Start_dirs u c t
    (Q : outcome (UML.uml * option error) -> World UML.UMLConfig -> Prop) w :
  heap w !! UML.config u = Some c -> UML.tap u = Some t ->
  (forall u' err evs n c' newdirs,
      UML.config u' = UML.config u -> UML.tap u' = UML.tap u ->
      UML.ID u' = UML.ID u ->
      Forall (fun d => EvTempDir d ∈ evs) newdirs ->
      match err with
      | None =>
          UML.tempFiles u' = UML.tempFiles u ++ newdirs
          /\ (forall n, EvTapClose n ∉ evs)
          /\ exists k pid,
               UML.cmd u' = Some k /\ Process k = Some pid
               /\ os_Start (os w) (cmd_Env k) = Ok pid
               /\ exists pre, evs = pre ++ [EvSpawn (cmd_Env k)]
      | Some e =>
          UML.tempFiles u' = []
          /\ cleanedUp t (UML.tempFiles u ++ newdirs) evs
          /\ (UML.cmd u' = UML.cmd u
              \/ exists k, UML.cmd u' = Some k /\ Process k = None
                           /\ os_Start (os w) (cmd_Env k) = Err e)
      end ->
      Q (Returned (u', err))
        (mkWorld (os w) (trace w ++ evs) n (ntap w)
           (<[UML.config u := c']> (heap w)))) ->
  wp (UML.Start u) Q w.
Proof.
  intros Hc Ht HQ. unfold UML.Start. wp_step.
  eapply UML_wp_writeInterfaceConfig_dirs; [exact Hc|exact Ht|].
  intros tmp err0 evs0 h Hcreated0 _ Hnc0 _ _. simpl. wp_step.
  eapply UMLFacts.wp_theTap; [exact Ht|]. wp_steps.
  set (c1 := UML.set_Args _ _).
  assert (Hmem : exists c2, forall (Q' : outcome unit -> World UML.UMLConfig -> Prop),
    Q' (Returned tt)
       (mkWorld (os w) (trace w ++ evs0) (S (ntemp w)) (ntap w)
          (<[UML.config u := c2]> (heap w))) ->
    wp (if (UML.Memory c =? EmptyString)%string then mret tt
        else UML.appendArgs (UML.set_tempFiles (UML.tempFiles u ++ tmp) u)
               ["mem=" +:+ UML.Memory c]) Q'
       (mkWorld (os w) (trace w ++ evs0) (S (ntemp w)) (ntap w)
          (<[UML.config u := c1]> (heap w)))).
  { destruct (UML.Memory c =? EmptyString)%string.
    - exists c1. intros Q' HQ'. by wp_step.
    - eexists. intros Q' HQ'. wp_steps. rewrite insert_insert_eq. exact HQ'. }
  destruct Hmem as [c2 Hmem].
  rewrite insert_insert_eq. apply Hmem. simpl. wp_step. wp_step. wp_step.
  eapply UML_wp_startDrives_dirs; [heap_lookup|simpl; exact Ht|].
  intros u' err evs n extra newdirs Hcfg Htap Hid Hcmd Hcreated Hpost.
  simpl in *. rewrite insert_insert_eq.
  set (c' := UML.set_Args _ c2).
  assert (Hall : Forall (fun d => EvTempDir d ∈ evs0 ++ evs) (tmp ++ newdirs)).
  { apply Forall_app. split; [by apply created_app_l|by apply created_app_r]. }
  destruct err as [e|].
  - wp_step. rewrite <- app_assoc.
    apply (HQ u' (Some e) (evs0 ++ evs) n c' (tmp ++ newdirs)); try done.
    destruct Hpost as [Hf Hclean]. split; [done|]. split.
    + rewrite app_assoc. by apply cleanedUp_app.
    + by left.
  - destruct Hpost as [Hf Hno].
    wp_step. rewrite Hcfg. wp_steps.
    destruct (os_Start (os w) _) as [pid|e] eqn:Hstart.
    + wp_steps. rewrite <- !app_assoc.
      apply (HQ _ None _ n c' (tmp ++ newdirs)); try done.
      * rewrite app_assoc. by apply created_app_l.
      * simpl. split; [by rewrite Hf, app_assoc|]. split.
        -- intros k Hk. rewrite app_assoc in Hk.
           apply elem_of_app in Hk as [Hk|Hk].
           ++ apply elem_of_app in Hk as [Hk|Hk];
                [by apply Hnc0 in Hk|by apply Hno in Hk].
           ++ apply list_elem_of_singleton in Hk. discriminate.
        -- eexists _, pid. simpl. repeat split; [exact Hstart|].
           exists (evs0 ++ evs). by rewrite <- app_assoc.
    + wp_steps. eapply UMLFacts.wp_cleanup; [simpl; by rewrite Htap|].
      simpl. wp_step. rewrite <- !app_assoc.
      apply (HQ _ (Some e) _ n c' (tmp ++ newdirs)); try done.
      * rewrite !app_assoc. apply created_app_l.
        rewrite <- !app_assoc. rewrite app_assoc. by apply created_app_l.
      * simpl. split; [done|]. split.
        -- exists (evs0 ++ evs ++ [EvSpawn
             ["_EXEC_REQ=" +:+ Bridge.encodeReq
                {| Bridge.Uid := UML.User c'; Bridge.Gid := UML.Group c';
                   Bridge.Path := UML.Path c';
                   Bridge.Argv := "linux" :: UML.Args c';
                   Bridge.Env := ["HOME=" +:+ os_HOME (os w)];
                   Bridge.Dir := EmptyString |}]]).
           rewrite Hf. by rewrite <- !app_assoc.
        -- right. eexists. simpl. repeat split. exact Hstart.
Qed.

(** X8. [Start] of backend A always returns. When it returns an error it
    has run [cleanup]: the last calls it made remove, in order, every temp
    file the instance had and every directory [Start] registered, and then
    close the tap, and [tempFiles] is empty. When it returns no error it has
    closed nothing: the directories it registered are appended to
    [tempFiles] and the instance holds the started process. The
    directories it registered are directories it created. *)
Theorem Start_error_has_cleaned_up (u : UML.uml) (c : UML.UMLConfig)
    (t : Tap) (w : World UML.UMLConfig) :
  heap w !! UML.config u = Some c -> UML.tap u = Some t ->
  exists u' err w' evs newdirs,
    UML.Start u w = (Returned (u', err), w')
    /\ trace w' = trace w ++ evs
    /\ Forall (fun d => EvTempDir d ∈ evs) newdirs
    /\ UML.tap u' = Some t /\ UML.ID u' = UML.ID u
    /\ UML.config u' = UML.config u
    /\ match err with
       | None =>
           UML.tempFiles u' = UML.tempFiles u ++ newdirs
           /\ (forall n, EvTapClose n ∉ evs)
           /\ exists k pid, UML.cmd u' = Some k /\ Process k = Some pid
       | Some _ =>
           UML.tempFiles u' = []
           /\ cleanedUp t (UML.tempFiles u ++ newdirs) evs
       end.
Proof.
  intros Hc Ht.
  cut (wp (UML.Start u)
         (fun r w' => exists u' err evs newdirs,
            r = Returned (u', err)
            /\ trace w' = trace w ++ evs
            /\ Forall (fun d => EvTempDir d ∈ evs) newdirs
            /\ UML.tap u' = Some t /\ UML.ID u' = UML.ID u
            /\ UML.config u' = UML.config u
            /\ match err with
               | None =>
                   UML.tempFiles u' = UML.tempFiles u ++ newdirs
                   /\ (forall n, EvTapClose n ∉ evs)
                   /\ exists k pid, UML.cmd u' = Some k /\ Process k = Some pid
               | Some _ =>
                   UML.tempFiles u' = []
                   /\ cleanedUp t (UML.tempFiles u ++ newdirs) evs
               end) w).
  { intros Hwp. apply wp_elim in Hwp.
    destruct Hwp as (r & w' & Hrun & u' & err & evs & newdirs & -> & H).
    by exists u', err, w', evs, newdirs. }
  eapply UML_wp_Start_dirs; [exact Hc|exact Ht|].
  intros u' err evs n c' newdirs Hcfg Htap Hid Hcreated Hpost.
  exists u', err, evs, newdirs. simpl.
  split; [done|]. split; [done|]. split; [done|].
  split; [congruence|]. split; [done|]. split; [done|].
  destruct err as [e|].
  - destruct Hpost as (Hf & Hclean & _). by split.
  - destruct Hpost as (Hf & Hno & k & pid & Hk & Hpid & _).
    split; [done|]. split; [done|]. by exists k, pid.
Qed.

Lemma Start_error_has_cleaned_up_witness :
  exists u' err w' evs newdirs,
    UML.Start Sample.umlInst (Sample.umlWorld Sample.osNoChown Sample.umlConfig)
    = (Returned (u', err), w')
    /\ trace w' = trace (Sample.umlWorld Sample.osNoChown Sample.umlConfig) ++ evs
    /\ Forall (fun d => EvTempDir d ∈ evs) newdirs
    /\ UML.tap u' = Some (Sample.tapOf 0) /\ UML.ID u' = UML.ID Sample.umlInst
    /\ UML.config u' = UML.config Sample.umlInst
    /\ match err with
       | None =>
           UML.tempFiles u' = UML.tempFiles Sample.umlInst ++ newdirs
           /\ (forall n, EvTapClose n ∉ evs)
           /\ exists k pid, UML.cmd u' = Some k /\ Process k = Some pid
       | Some _ =>
           UML.tempFiles u' = []
           /\ cleanedUp (Sample.tapOf 0)
                (UML.tempFiles Sample.umlInst ++ newdirs) evs
       end.
Proof.
  exact (Start_error_has_cleaned_up Sample.umlInst Sample.umlConfig
           (Sample.tapOf 0) (Sample.umlWorld Sample.osNoChown Sample.umlConfig)
           eq_refl eq_refl).
Defined.

(** X9. A [Start] of backend A that returned no error, followed by [Kill]:
    [Kill] signals the process that [Start] spawned, returns what the
    signal returned, and its deferred cleanup removes exactly the temp
    files the instance holds, in order, and closes the tap once; nothing
    is left registered. The same holds for [Wait]. *)
Theorem Start_then_teardown (u u' : UML.uml) (c : UML.UMLConfig) (t : Tap)
    (w w' : World UML.UMLConfig) :
  heap w !! UML.config u = Some c -> UML.tap u = Some t ->
  UML.Start u w = (Returned (u', None), w') ->
  exists k pid,
    UML.cmd u' = Some k /\ Process k = Some pid
    /\ os_Start (os w) (cmd_Env k) = Ok pid
    /\ (exists uk,
          UML.Kill u' w' =
            (Returned (os_Kill (os w) pid, uk),
             mkWorld (os w)
               (trace w' ++ [EvKill pid] ++ map EvRemoveAll (UML.tempFiles u')
                  ++ [EvTapClose (Name t)])
               (ntemp w') (ntap w') (heap w'))
          /\ UML.tempFiles uk = [])
    /\ (exists uw,
          UML.Wait u' w' =
            (Returned (os_Wait (os w) pid, uw),
             mkWorld (os w)
               (trace w' ++ [EvWait pid] ++ map EvRemoveAll (UML.tempFiles u')
                  ++ [EvTapClose (Name t)])
               (ntemp w') (ntap w') (heap w'))
          /\ UML.tempFiles uw = []).
Proof.
  intros Hc Ht Hrun.
  assert (Hwp : wp (UML.Start u)
    (fun r w1 => forall u1, r = Returned (u1, None) ->
       os w1 = os w /\ UML.tap u1 = Some t
       /\ exists k pid, UML.cmd u1 = Some k /\ Process k = Some pid
                        /\ os_Start (os w) (cmd_Env k) = Ok pid) w).
  { eapply UML_wp_Start_dirs; [exact Hc|exact Ht|].
    intros u1 err evs n c' newdirs Hcfg Htap Hid Hcreated Hpost u2 Heq.
    inversion Heq; subst. simpl.
    destruct Hpost as (_ & _ & k & pid & Hk & Hpid & Hst & _).
    split; [done|]. split; [congruence|]. by exists k, pid. }
  unfold wp in Hwp. rewrite Hrun in Hwp. simpl in Hwp.
  destruct (Hwp u' eq_refl) as (Hos & Htap & k & pid & Hk & Hpid & Hst).
  exists k, pid. split; [done|]. split; [done|]. split; [done|].
  unfold UML.Wait, UML.Kill, defer, CmdWait, ProcessKill.
  rewrite Hk, Hpid. unfold mbind, M_bind, ask, emit, mret, M_ret. simpl.
  rewrite !(UMLFacts.cleanup_run u' t) by done. simpl. rewrite Hos.
  split; eexists; (split; [by rewrite <- !app_assoc|reflexivity]).
Qed.

(** ** Start and teardown, backend B *)

Lemma created_iff_app (evs evs' : list Event) (dirs dirs' : list string) :
  (forall d, EvTempDir d ∈ evs <-> d ∈ dirs) ->
  (forall d, EvTempDir d ∈ evs' <-> d ∈ dirs') ->
  forall d, EvTempDir d ∈ evs ++ evs' <-> d ∈ dirs ++ dirs'.
Proof. intros H H' d. rewrite !elem_of_app, H, H'. tauto. Qed.

Lemma created_iff_nil (d : string) : EvTempDir d ∈ @nil Event <-> d ∈ @nil string.
Proof. split; intros H; by apply elem_of_nil in H. Qed.

Lemma cleanup_creates_nothing (files : list string) (n d : string) :
  EvTempDir d ∉ map EvRemoveAll files ++ [EvTapClose n].
Proof.
  intros H. apply elem_of_app in H as [H|H].
  - apply list_elem_of_fmap in H as (f & Hf & _). discriminate.
  - apply list_elem_of_singleton in H. discriminate.
Qed.

Lemma created_iff_cleanup (evs : list Event) (dirs files : list string) n :
  (forall d, EvTempDir d ∈ evs <-> d ∈ dirs) ->
  forall d, EvTempDir d ∈ evs ++ map EvRemoveAll files ++ [EvTapClose n]
            <-> d ∈ dirs.
Proof.
  intros H d. rewrite elem_of_app, H. split; [|tauto].
  intros [Hd|Hd]; [done|]. by apply cleanup_creates_nothing in Hd.
Qed.

Ltac no_such_event H :=
  repeat (apply elem_of_cons in H as [H|H]; [by inversion H|]);
  by apply elem_of_nil in H.

Ltac only_dir dir :=
  let d := fresh "d" in let H := fresh "H" in
  intros d; rewrite list_elem_of_singleton; split;
  [intros H; apply elem_of_cons in H as [H|H]; [by inversion H|no_such_event H]
  |intros ->; apply elem_of_cons; by left].

(** [writeInterfaceConfig] of backend B with its calls. *)
Lemma VM_wp_writeInterfaceConfig_dirs u c t
    (Q : outcome (VM.vm * option error) -> World VM.VMConfig -> Prop) w :
  heap w !! VM.config u = Some c -> VM.tap u = Some t ->
  (forall tmp err evs c',
      (forall d, EvTempDir d ∈ evs <-> d ∈ tmp) ->
      (forall n, EvTapClose n ∉ evs) ->
      Q (Returned (VM.set_tempFiles (VM.tempFiles u ++ tmp) u, err))
        (mkWorld (os w) (trace w ++ evs) (S (ntemp w)) (ntap w)
           (<[VM.config u := c']> (heap w)))) ->
  wp (VM.writeInterfaceConfig u) Q w.
Proof.
  intros Hc Ht HQ. unfold VM.writeInterfaceConfig.
  wp_step. wp_step.
  destruct (os_TempDir (os w) (ntemp w)) as [dir|e].
  - wp_steps.
    destruct (os_Chmod (os w) dir) as [e|].
    { wp_steps. rewrite <- !app_assoc. apply (HQ [dir]).
      - only_dir dir.
      - intros n Hn. no_such_event Hn. }
    wp_steps.
    destruct (os_Create (os w) (filepath.Join dir "eth0")) as [e|].
    { wp_steps. rewrite <- !app_assoc. apply (HQ [dir]).
      - only_dir dir.
      - intros n Hn. no_such_event Hn. }
    wp_step. eapply VMFacts.vm_wp_theTap; [exact Ht|]. wp_steps.
    rewrite <- !app_assoc. apply (HQ [dir]).
    + only_dir dir.
    + intros n Hn. no_such_event Hn.
  - wp_step.
    specialize (HQ [] (Some e) [] c).
    rewrite !app_nil_r in HQ. rewrite insert_id in HQ by done.
    replace (VM.set_tempFiles (VM.tempFiles u) u) with u in HQ
      by (by destruct u).
    apply HQ.
    + apply created_iff_nil.
    + intros n Hn. by apply elem_of_nil in Hn.
Qed.

(** [tempCOW] of backend B with its calls: the directory is registered as
    soon as it exists. *)
Lemma VM_wp_tempCOW_dirs u c image
    (Q : outcome (VM.vm * string * option error) -> World VM.VMConfig -> Prop)
    w :
  heap w !! VM.config u = Some c ->
  (forall u' fs err evs newdirs,
      VM.config u' = VM.config u -> VM.tap u' = VM.tap u ->
      VM.ID u' = VM.ID u -> VM.cmd u' = VM.cmd u ->
      VM.tempFiles u' = VM.tempFiles u ++ newdirs ->
      (forall d, EvTempDir d ∈ evs <-> d ∈ newdirs) ->
      (forall n, EvTapClose n ∉ evs) ->
      Q (Returned (u', fs, err))
        (mkWorld (os w) (trace w ++ evs) (S (ntemp w)) (ntap w) (heap w))) ->
  wp (VM.tempCOW u image) Q w.
Proof.
  intros Hc HQ. unfold VM.tempCOW. wp_step. wp_step.
  destruct (os_TempDir (os w) (ntemp w)) as [dir|e].
  - wp_steps.
    destruct (os_Chown (os w) dir (VM.User c) (VM.Group c)) as [e|]; wp_steps.
    { rewrite <- !app_assoc. apply (HQ _ _ _ _ [dir]); try done.
      - only_dir dir.
      - intros n Hn. no_such_event Hn. }
    destruct (os_Run (os w) _) as [[e|] out]; simpl; wp_steps.
    { rewrite <- !app_assoc. apply (HQ _ _ _ _ [dir]); try done.
      - only_dir dir.
      - intros n Hn. no_such_event Hn. }
    destruct (os_Chown (os w) (filepath.Join dir "fs.img") _ _) as [e|];
      wp_steps; rewrite <- !app_assoc; apply (HQ _ _ _ _ [dir]); try done;
      first [only_dir dir | intros n Hn; no_such_event Hn].
  - wp_step. specialize (HQ u EmptyString (Some e) [] []).
    rewrite !app_nil_r in HQ. apply HQ; try done.
    + apply created_iff_nil.
    + intros n Hn. by apply elem_of_nil in Hn.
Qed.

(** The drive loop of backend B with its calls. *)
Lemma VM_wp_startDrives_dirs drives order : forall u c t
    (Q : outcome (VM.vm * option error) -> World VM.VMConfig -> Prop) w,
  heap w !! VM.config u = Some c -> VM.tap u = Some t ->
  (forall u' err evs n c' newdirs,
      VM.config u' = VM.config u -> VM.tap u' = VM.tap u ->
      VM.ID u' = VM.ID u -> VM.cmd u' = VM.cmd u ->
      (forall d, EvTempDir d ∈ evs <-> d ∈ newdirs) ->
      match err with
      | None => VM.tempFiles u' = VM.tempFiles u ++ newdirs
                /\ forall n, EvTapClose n ∉ evs
      | Some _ => VM.tempFiles u' = []
                  /\ cleanedUp t (VM.tempFiles u ++ newdirs) evs
      end ->
      Q (Returned (u', err))
        (mkWorld (os w) (trace w ++ evs) n (ntap w)
           (<[VM.config u := c']> (heap w)))) ->
  wp (VM.startDrives u drives order) Q w.
Proof.
  induction order as [|i rest IH]; intros u c t Q w Hc Ht HQ.
  - rewrite VMFacts.vm_startDrives_nil. wp_step.
    specialize (HQ u None [] (ntemp w) c []).
    rewrite (app_nil_r (trace w)), insert_id, UMLFacts.world_eta in HQ by done.
    apply HQ; try done.
    + apply created_iff_nil.
    + split; [by rewrite app_nil_r|]. intros n Hn. by apply elem_of_nil in Hn.
  - rewrite VMFacts.vm_startDrives_cons.
    destruct (drives !! i) as [d|]; [|by eapply IH].
    wp_step.
    assert (Hbody : forall u' fs err evs n newdirs,
      VM.config u' = VM.config u -> VM.tap u' = VM.tap u ->
      VM.ID u' = VM.ID u -> VM.cmd u' = VM.cmd u ->
      VM.tempFiles u' = VM.tempFiles u ++ newdirs ->
      (forall d, EvTempDir d ∈ evs <-> d ∈ newdirs) ->
      (forall n, EvTapClose n ∉ evs) ->
      wp (match err with
          | Some e => VM.cleanup u' ≫= (fun u0 => mret (u0, Some e))
          | None =>
              VM.appendArgs u' ["-" +:+ i; fs]
              ≫= (fun _ => VM.startDrives u' drives rest)
          end) Q
        (mkWorld (os w) (trace w ++ evs) n (ntap w) (heap w))).
    { intros u' fs err evs n newdirs Hcfg Htap Hid Hcmd Hfiles Hcreated Hnc.
      destruct err as [e|].
      - wp_step. eapply VMFacts.vm_wp_cleanup; [by rewrite Htap|]. simpl.
        wp_step.
        specialize (HQ (VM.set_tempFiles [] u') (Some e)
                      (evs ++ map EvRemoveAll (VM.tempFiles u')
                           ++ [EvTapClose (Name t)]) n c newdirs).
        rewrite insert_id in HQ by done.
        rewrite <- !app_assoc. apply HQ; try done.
        + by apply created_iff_cleanup.
        + split; [done|]. exists evs. by rewrite Hfiles.
      - wp_step. unfold VM.appendArgs. rewrite Hcfg. wp_steps.
        eapply IH.
        + simpl. rewrite Hcfg. apply lookup_insert_eq.
        + by rewrite Htap.
        + intros u'' err' evs' n' c' newdirs' Hcfg' Htap' Hid' Hcmd'
            Hcreated' Hpost. simpl.
          rewrite Hcfg, insert_insert_eq. rewrite <- app_assoc.
          apply (HQ u'' err' (evs ++ evs') n' c' (newdirs ++ newdirs'));
            try congruence.
          * by apply created_iff_app.
          * rewrite Hfiles in Hpost. rewrite app_assoc.
            destruct err' as [e'|].
            -- destruct Hpost as [Hf Hclean]. split; [done|].
               by apply cleanedUp_app.
            -- destruct Hpost as [Hf Hno]. split; [done|].
               intros k Hk. apply elem_of_app in Hk as [Hk|Hk];
                 [by apply Hnc in Hk|by apply Hno in Hk]. }
    destruct (VM.TempCOW d).
    + eapply VM_wp_tempCOW_dirs; [exact Hc|].
      intros u' fs err evs newdirs Hcfg Htap Hid Hcmd Hfiles Hcreated Hnc.
      simpl. by apply (Hbody u' fs err evs _ newdirs).
    + wp_step. specialize (Hbody u (VM.FS d) None [] (ntemp w) []).
      rewrite (app_nil_r (trace w)), UMLFacts.world_eta in Hbody.
      apply Hbody; try done.
      * by rewrite app_nil_r.
      * apply created_iff_nil.
      * intros n Hn. by apply elem_of_nil in Hn.
Qed.

(** [Start] of backend B with its calls. *)
Lemma VM_wp_Start_dirs order u c t
    (Q : outcome (VM.vm * option error) -> World VM.VMConfig -> Prop) w :
  heap w !! VM.config u = Some c -> VM.tap u = Some t ->
  (forall u' err evs n c' newdirs,
      VM.config u' = VM.config u -> VM.tap u' = VM.tap u ->
      VM.ID u' = VM.ID u ->
      (forall d, EvTempDir d ∈ evs <-> d ∈ newdirs) ->
      match err with
      | None =>
          VM.tempFiles u' = VM.tempFiles u ++ newdirs
          /\ (forall n, EvTapClose n ∉ evs)
          /\ exists k pid,
               VM.cmd u' = Some k /\ Process k = Some pid
               /\ os_Start (os w) (cmd_Env k) = Ok pid
      | Some e =>
          VM.tempFiles u' = []
          /\ cleanedUp t (VM.tempFiles u ++ newdirs) evs
          /\ (VM.cmd u' = VM.cmd u
              \/ exists k, VM.cmd u' = Some k /\ Process k = None)
      end ->
      Q (Returned (u', err))
        (mkWorld (os w) (trace w ++ evs) n (ntap w)
           (<[VM.config u := c']> (heap w)))) ->
  wp (VM.Start order u) Q w.
Proof.
  intros Hc Ht HQ. unfold VM.Start. wp_step.
  eapply VM_wp_writeInterfaceConfig_dirs; [exact Hc|exact Ht|].
  intros tmp err0 evs0 c0 Hcreated0 Hnc0. simpl. wp_step.
  eapply VMFacts.vm_wp_theTap; [exact Ht|]. wp_steps.
  set (c1 := VM.set_Args _ _).
  assert (Hmem : exists c2, VM.Drives c2 = VM.Drives c0 /\
    forall (Q' : outcome unit -> World VM.VMConfig -> Prop),
    Q' (Returned tt)
       (mkWorld (os w) (trace w ++ evs0) (S (ntemp w)) (ntap w)
          (<[VM.config u := c2]> (heap w))) ->
    wp (if (VM.Memory c0 =? EmptyString)%string then mret tt
        else VM.appendArgs (VM.set_tempFiles (VM.tempFiles u ++ tmp) u)
               ["-m"; VM.Memory c0]) Q'
       (mkWorld (os w) (trace w ++ evs0) (S (ntemp w)) (ntap w)
          (<[VM.config u := c1]> (heap w)))).
  { destruct (VM.Memory c0 =? EmptyString)%string.
    - exists c1. split; [done|]. intros Q' HQ'. by wp_step.
    - eexists. split; [|intros Q' HQ'; wp_steps; rewrite insert_insert_eq;
                         exact HQ']. done. }
  destruct Hmem as (c2 & _ & Hmem).
  rewrite insert_insert_eq. apply Hmem. simpl. wp_step. wp_step. wp_step.
  eapply VM_wp_startDrives_dirs; [heap_lookup|simpl; exact Ht|].
  intros u' err evs n c' newdirs Hcfg Htap Hid Hcmd Hcreated Hpost.
  simpl in *. rewrite insert_insert_eq.
  assert (Hall : forall d, EvTempDir d ∈ evs0 ++ evs <-> d ∈ tmp ++ newdirs)
    by (by apply created_iff_app).
  destruct err as [e|].
  - wp_step. rewrite <- app_assoc.
    apply (HQ u' (Some e) (evs0 ++ evs) n c' (tmp ++ newdirs)); try done.
    destruct Hpost as [Hf Hclean]. split; [done|]. split.
    + rewrite app_assoc. by apply cleanedUp_app.
    + by left.
  - destruct Hpost as [Hf Hno].
    wp_step. rewrite Hcfg. wp_steps.
    destruct (os_Start (os w) _) as [pid|e] eqn:Hstart.
    + wp_steps. rewrite <- !app_assoc.
      apply (HQ _ None _ n c' (tmp ++ newdirs)); try done.
      * intros d. rewrite app_assoc, elem_of_app, Hall.
        rewrite list_elem_of_singleton. split; [|tauto].
        intros [Hd|Hd]; [done|discriminate].
      * simpl. split; [by rewrite Hf, app_assoc|]. split.
        -- intros k Hk. rewrite app_assoc in Hk.
           apply elem_of_app in Hk as [Hk|Hk].
           ++ apply elem_of_app in Hk as [Hk|Hk];
                [by apply Hnc0 in Hk|by apply Hno in Hk].
           ++ apply list_elem_of_singleton in Hk. discriminate.
        -- eexists _, pid. simpl. repeat split. exact Hstart.
    + wp_steps. eapply VMFacts.vm_wp_cleanup; [simpl; by rewrite Htap|].
      simpl. wp_step. rewrite <- !app_assoc.
      apply (HQ _ (Some e) _ n c' (tmp ++ newdirs)); try done.
      * intros d. rewrite (app_assoc evs0), (app_assoc (evs0 ++ evs)).
        rewrite created_iff_cleanup; [reflexivity|].
        intros d'. rewrite elem_of_app, Hall, list_elem_of_singleton.
        split; [|tauto]. intros [Hd|Hd]; [done|discriminate].
      * simpl. split; [done|]. split.
        -- eexists (evs0 ++ evs ++ [_]). rewrite Hf, <- !app_assoc.
           reflexivity.
        -- right. eexists. simpl. by split.
Qed.

(** X10. [Start] of backend B always returns, whatever the order in which
    the drives are visited. The directories it creates are exactly those it
    registers. When it returns an error it has run [cleanup], so every
    directory it created has been removed and the tap is closed; when it
    returns no error it has closed nothing and holds the started process. *)
Theorem vm_Start_leaves_no_directory (order : list string) (u : VM.vm)
    (c : VM.VMConfig) (t : Tap) (w : World VM.VMConfig) :
  heap w !! VM.config u = Some c -> VM.tap u = Some t ->
  exists u' err w' evs newdirs,
    VM.Start order u w = (Returned (u', err), w')
    /\ trace w' = trace w ++ evs
    /\ (forall d, EvTempDir d ∈ evs <-> d ∈ newdirs)
    /\ VM.tap u' = Some t /\ VM.ID u' = VM.ID u
    /\ VM.config u' = VM.config u
    /\ match err with
       | None =>
           VM.tempFiles u' = VM.tempFiles u ++ newdirs
           /\ (forall n, EvTapClose n ∉ evs)
           /\ exists k pid, VM.cmd u' = Some k /\ Process k = Some pid
       | Some _ =>
           VM.tempFiles u' = []
           /\ cleanedUp t (VM.tempFiles u ++ newdirs) evs
           /\ forall d, EvTempDir d ∈ evs -> EvRemoveAll d ∈ evs
       end.
Proof.
  intros Hc Ht.
  cut (wp (VM.Start order u)
         (fun r w' => exists u' err evs newdirs,
            r = Returned (u', err)
            /\ trace w' = trace w ++ evs
            /\ (forall d, EvTempDir d ∈ evs <-> d ∈ newdirs)
            /\ VM.tap u' = Some t /\ VM.ID u' = VM.ID u
            /\ VM.config u' = VM.config u
            /\ match err with
               | None =>
                   VM.tempFiles u' = VM.tempFiles u ++ newdirs
                   /\ (forall n, EvTapClose n ∉ evs)
                   /\ exists k pid, VM.cmd u' = Some k /\ Process k = Some pid
               | Some _ =>
                   VM.tempFiles u' = []
                   /\ cleanedUp t (VM.tempFiles u ++ newdirs) evs
                   /\ forall d, EvTempDir d ∈ evs -> EvRemoveAll d ∈ evs
               end) w).
  { intros Hwp. apply wp_elim in Hwp.
    destruct Hwp as (r & w' & Hrun & u' & err & evs & newdirs & -> & H).
    by exists u', err, w', evs, newdirs. }
  eapply VM_wp_Start_dirs; [exact Hc|exact Ht|].
  intros u' err evs n c' newdirs Hcfg Htap Hid Hcreated Hpost.
  exists u', err, evs, newdirs. simpl.
  split; [done|]. split; [done|]. split; [done|].
  split; [congruence|]. split; [done|]. split; [done|].
  destruct err as [e|].
  - destruct Hpost as (Hf & Hclean & _). split; [done|]. split; [done|].
    intros d Hd. apply Hcreated in Hd. destruct Hclean as [pre ->].
    apply elem_of_app. right. apply elem_of_app. left.
    apply list_elem_of_fmap. exists d. split; [done|].
    apply elem_of_app. by right.
  - destruct Hpost as (Hf & Hno & k & pid & Hk & Hpid & _).
    split; [done|]. split; [done|]. by exists k, pid.
Qed.

Lemma vm_Start_leaves_no_directory_witness :
  exists u' err w' evs newdirs,
    VM.Start ["hda"; "hdb"] Sample.vmInst (Sample.vmWorld Sample.osToolFails)
    = (Returned (u', err), w')
    /\ trace w' = trace (Sample.vmWorld Sample.osToolFails) ++ evs
    /\ (forall d, EvTempDir d ∈ evs <-> d ∈ newdirs)
    /\ VM.tap u' = Some (Sample.tapOf 0) /\ VM.ID u' = VM.ID Sample.vmInst
    /\ VM.config u' = VM.config Sample.vmInst
    /\ match err with
       | None =>
           VM.tempFiles u' = VM.tempFiles Sample.vmInst ++ newdirs
           /\ (forall n, EvTapClose n ∉ evs)
           /\ exists k pid, VM.cmd u' = Some k /\ Process k = Some pid
       | Some _ =>
           VM.tempFiles u' = []
           /\ cleanedUp (Sample.tapOf 0)
                (VM.tempFiles Sample.vmInst ++ newdirs) evs
           /\ forall d, EvTempDir d ∈ evs -> EvRemoveAll d ∈ evs
       end.
Proof.
  exact (vm_Start_leaves_no_directory ["hda"; "hdb"] Sample.vmInst
           Sample.vmConfig (Sample.tapOf 0)
           (Sample.vmWorld Sample.osToolFails) eq_refl eq_refl).
Defined.

(** X11. After a [Start] of backend A that returned an error, on an
    instance that had no command, the instance cannot be torn down in
    peace: [Kill] panics, either on the nil command or on the nil process
    of the command that failed to start; its deferred cleanup still runs
    and closes the tap a second time, with nothing left to remove. [Wait]
    panics too, or returns the error of a command that was not started. *)
Theorem Kill_after_failed_Start_panics (u u' : UML.uml) (c : UML.UMLConfig)
    (t : Tap) (e : error) (w w' : World UML.UMLConfig) :
  heap w !! UML.config u = Some c -> UML.tap u = Some t ->
  UML.cmd u = None ->
  UML.Start u w = (Returned (u', Some e), w') ->
  UML.Kill u' w' =
    (Panicked,
     mkWorld (os w') (trace w' ++ [EvTapClose (Name t)])
       (ntemp w') (ntap w') (heap w'))
  /\ (exists pre, trace w' = pre ++ [EvTapClose (Name t)])
  /\ (fst (UML.Wait u' w') = Panicked
      \/ exists uw, fst (UML.Wait u' w')
                    = Returned (Some "exec: not started", uw))
  /\ trace (snd (UML.Wait u' w')) = trace w' ++ [EvTapClose (Name t)].
Proof.
  intros Hc Ht Hcmd Hrun.
  assert (Hwp : wp (UML.Start u)
    (fun r w1 => forall u1 e1, r = Returned (u1, Some e1) ->
       UML.tap u1 = Some t /\ UML.tempFiles u1 = []
       /\ (exists pre, trace w1 = pre ++ [EvTapClose (Name t)])
       /\ (UML.cmd u1 = None
           \/ exists k, UML.cmd u1 = Some k /\ Process k = None)) w).
  { eapply UML_wp_Start_dirs; [exact Hc|exact Ht|].
    intros u1 err evs n c' newdirs Hcfg Htap Hid Hcreated Hpost u2 e2 Heq.
    inversion Heq; subst. simpl.
    destruct Hpost as (Hf & [pre ->] & Hk).
    split; [congruence|]. split; [done|]. split.
    - exists (trace w ++ pre ++ map EvRemoveAll (UML.tempFiles u ++ newdirs)).
      by rewrite <- !app_assoc.
    - destruct Hk as [Hk|(k & Hk & Hp & _)]; [left; congruence|right].
      by exists k. }
  unfold wp in Hwp. rewrite Hrun in Hwp. simpl in Hwp.
  destruct (Hwp u' e eq_refl) as (Htap & Hfiles & Hclosed & Hk).
  split; [|split; [exact Hclosed|]].
  - unfold UML.Kill, defer, ProcessKill.
    destruct Hk as [Hk|(k & Hk & Hp)]; rewrite Hk; [|rewrite Hp];
      unfold panic; simpl; rewrite (UMLFacts.cleanup_run u' t) by done;
      by rewrite Hfiles.
  - unfold UML.Wait, defer, CmdWait.
    destruct Hk as [Hk|(k & Hk & Hp)]; rewrite Hk; [|rewrite Hp];
      unfold panic, mret, M_ret; simpl;
      rewrite (UMLFacts.cleanup_run u' t) by done; rewrite Hfiles; simpl.
    + split; [by left|done].
    + split; [right; by eexists|done].
Qed.

(** ** Drives without overlay, instances without tap *)

Lemma imap_driveFlag_cons (i : nat) (d : UML.UMLDrive) (ds : list UML.UMLDrive) :
  imap (fun j x => driveFlag (i + j) x) (d :: ds)
  = driveFlag i d :: imap (fun j x => driveFlag (S i + j) x) ds.
Proof.
  simpl. f_equal; [by rewrite Nat.add_0_r|].
  apply imap_ext. intros j x _. simpl. f_equal. lia.
Qed.

Lemma UML_wp_startDrives_plain ds : forall u i c
    (Q : outcome (UML.uml * option error) -> World UML.UMLConfig -> Prop) w,
  Forall (fun d => UML.TempCOW d = false) ds ->
  heap w !! UML.config u = Some c ->
  Q (Returned (u, None))
    (mkWorld (os w) (trace w) (ntemp w) (ntap w)
       (<[UML.config u :=
            UML.set_Args
              (UML.Args c ++ imap (fun j d => driveFlag (i + j) d) ds) c]>
          (heap w))) ->
  wp (UML.startDrives u i ds) Q w.
Proof.
  induction ds as [|d ds IH]; intros u i c Q w Hds Hc HQ.
  - rewrite UML_startDrives_nil. wp_step. simpl in HQ.
    by rewrite UMLFacts.set_Args_nil, insert_id, UMLFacts.world_eta in HQ.
  - apply Forall_cons in Hds as [Hd Hds].
    rewrite UML_startDrives_cons, Hd. wp_steps.
    eapply IH; [exact Hds|heap_lookup|]. simpl.
    rewrite insert_insert_eq. rewrite imap_driveFlag_cons in HQ.
    replace (UML.set_Args _ (UML.set_Args _ c))
      with (UML.set_Args
              (UML.Args c
                 ++ driveFlag i d
                 :: imap (fun j x => driveFlag (S i + j) x) ds) c);
      [exact HQ|].
    unfold UML.set_Args. simpl. f_equal. by rewrite <- app_assoc.
Qed.

(** X12. The drive loop of backend A over drives none of which asks for a
    temp overlay: it makes no call, cannot fail, leaves the instance as it
    is and appends one flag per drive, in the order of the drives and
    numbered from the index it starts at. *)
Theorem startDrives_without_overlays (ds : list UML.UMLDrive)
    (u : UML.uml) (i : nat) (c : UML.UMLConfig) (w : World UML.UMLConfig) :
  Forall (fun d => UML.TempCOW d = false) ds ->
  heap w !! UML.config u = Some c ->
  UML.startDrives u i ds w =
    (Returned (u, None),
     mkWorld (os w) (trace w) (ntemp w) (ntap w)
       (<[UML.config u :=
            UML.set_Args
              (UML.Args c ++ imap (fun j d => driveFlag (i + j) d) ds) c]>
          (heap w))).
Proof.
  intros Hds Hc.
  pose proof (UML_wp_startDrives_plain ds u i c
    (fun r w' =>
       (r, w') =
       (Returned (u, None),
        mkWorld (os w) (trace w) (ntemp w) (ntap w)
          (<[UML.config u :=
               UML.set_Args
                 (UML.Args c ++ imap (fun j d => driveFlag (i + j) d) ds) c]>
             (heap w)))) w Hds Hc eq_refl) as Hwp.
  unfold wp in Hwp. by destruct (UML.startDrives u i ds w).
Qed.

Lemma startDrives_without_overlays_witness :
  UML.startDrives Sample.umlInst 0
    [{| UML.FS := "rootfs.img"; UML.COW := "base.cow"; UML.TempCOW := false |};
     {| UML.FS := "data.img"; UML.COW := EmptyString; UML.TempCOW := false |}]
    (Sample.umlWorld Sample.osOk Sample.umlConfig)
  = (Returned (Sample.umlInst, None),
     mkWorld Sample.osOk [] 0 0
       (<[1%nat := UML.set_Args
                     (UML.Args Sample.umlConfig
                        ++ imap (fun j d => driveFlag (0 + j) d)
                             [{| UML.FS := "rootfs.img"; UML.COW := "base.cow";
                                 UML.TempCOW := false |};
                              {| UML.FS := "data.img"; UML.COW := EmptyString;
                                 UML.TempCOW := false |}])
                     Sample.umlConfig]>
          (heap (Sample.umlWorld Sample.osOk Sample.umlConfig)))).
Proof.
  apply (startDrives_without_overlays _ Sample.umlInst 0 Sample.umlConfig
           (Sample.umlWorld Sample.osOk Sample.umlConfig)).
  - repeat (apply Forall_cons; split; [reflexivity|]). apply Forall_nil_2.
  - reflexivity.
Defined.

(** X13. [Start] of backend A on an instance without tap, which is what
    [NewInstance] returns along with the error of the tap allocator: it
    panics on the first use of the tap, before any flag is appended to the
    config and before anything is spawned; [IP] panics as well. *)
Theorem Start_without_tap_panics (u : UML.uml) (c : UML.UMLConfig)
    (w : World UML.UMLConfig) :
  heap w !! UML.config u = Some c -> UML.tap u = None ->
  exists w' evs c',
    UML.Start u w = (Panicked, w')
    /\ trace w' = trace w ++ evs
    /\ (forall env, EvSpawn env ∉ evs)
    /\ heap w' !! UML.config u = Some c'
    /\ UML.Args c' = UML.Args c
    /\ UML.IP u w = (Panicked, w).
Proof.
  intros Hc Ht.
  cut (wp (UML.Start u)
         (fun r w' => exists evs c',
            r = Panicked
            /\ trace w' = trace w ++ evs
            /\ (forall env, EvSpawn env ∉ evs)
            /\ heap w' !! UML.config u = Some c'
            /\ UML.Args c' = UML.Args c) w).
  { intros Hwp. apply wp_elim in Hwp.
    destruct Hwp as (r & w' & Hrun & evs & c' & -> & H).
    exists w', evs, c'. split; [exact Hrun|].
    destruct H as (H1 & H2 & H3 & H4). repeat split; try done.
    unfold UML.IP, UML.theTap. by rewrite Ht. }
  unfold UML.Start. wp_step. unfold UML.writeInterfaceConfig.
  wp_step. wp_step.
  destruct (os_TempDir (os w) (ntemp w)) as [dir|e].
  - wp_steps.
    destruct (os_Chmod (os w) dir) as [e|].
    { wp_steps. unfold UML.theTap. simpl. rewrite Ht. apply wp_panic.
      rewrite <- !app_assoc. eexists _, _. split; [done|].
      split; [done|]. split; [|split; [apply lookup_insert_eq|done]].
      intros env Hn. no_such_event Hn. }
    wp_steps.
    destruct (os_Create (os w) (filepath.Join dir "eth0")) as [e|].
    { wp_steps. unfold UML.theTap. simpl. rewrite Ht. apply wp_panic.
      rewrite <- !app_assoc. eexists _, _. split; [done|].
      split; [done|]. split; [|split; [apply lookup_insert_eq|done]].
      intros env Hn. no_such_event Hn. }
    wp_step. unfold UML.theTap. simpl. rewrite Ht. apply wp_panic.
    rewrite <- !app_assoc. eexists _, _. split; [done|].
    split; [done|]. split; [|split; [apply lookup_insert_eq|done]].
    intros env Hn. no_such_event Hn.
  - wp_steps. unfold UML.theTap. rewrite Ht. apply wp_panic.
    exists [], c. rewrite app_nil_r. repeat split; try done.
    intros env Hn. by apply elem_of_nil in Hn.
Qed.

Lemma Start_without_tap_panics_witness :
  exists w' evs c',
    UML.Start (UML.set_tap None Sample.umlInst)
      (Sample.umlWorld Sample.osOk Sample.umlConfig) = (Panicked, w')
    /\ trace w' = trace (Sample.umlWorld Sample.osOk Sample.umlConfig) ++ evs
    /\ (forall env, EvSpawn env ∉ evs)
    /\ heap w' !! UML.config (UML.set_tap None Sample.umlInst) = Some c'
    /\ UML.Args c' = UML.Args Sample.umlConfig
    /\ UML.IP (UML.set_tap None Sample.umlInst)
         (Sample.umlWorld Sample.osOk Sample.umlConfig)
       = (Panicked, Sample.umlWorld Sample.osOk Sample.umlConfig).
Proof.
  exact (Start_without_tap_panics (UML.set_tap None Sample.umlInst)
           Sample.umlConfig (Sample.umlWorld Sample.osOk Sample.umlConfig)
           eq_refl eq_refl).
Defined.

(** ** From [Start] to the child *)

Lemma plan_no_dir (req : Bridge.execReq) :
  Bridge.Dir req = EmptyString ->
  forall d, Bridge.SysChdir d ∉ Bridge.plan req.
Proof.
  intros Hdir d Hin. unfold Bridge.plan in Hin. rewrite Hdir in Hin.
  simpl in Hin.
  destruct (0 <? Bridge.Gid req)%Z, (0 <? Bridge.Uid req)%Z; simpl in Hin;
    repeat (apply elem_of_cons in Hin as [Hin|Hin]; [discriminate|]);
    by apply elem_of_nil in Hin.
Qed.

Lemma plan_exec (req : Bridge.execReq) p a e :
  Bridge.SysExec p a e ∈ Bridge.plan req ->
  p = Bridge.Path req /\ a = Bridge.Argv req /\ e = Bridge.Env req.
Proof.
  intros Hin. unfold Bridge.plan in Hin.
  destruct (0 <? Bridge.Gid req)%Z, (0 <? Bridge.Uid req)%Z,
    (Bridge.Dir req =? EmptyString)%string; simpl in Hin;
    repeat (apply elem_of_cons in Hin as [Hin|Hin];
            [first [discriminate | by inversion Hin]|]);
    by apply elem_of_nil in Hin.
Qed.

Lemma plan_last (req : Bridge.execReq) :
  last (Bridge.plan req)
  = Some (Bridge.SysExec (Bridge.Path req) (Bridge.Argv req) (Bridge.Env req)).
Proof.
  unfold Bridge.plan. rewrite !app_assoc.
  change [Bridge.SysPrintln (Bridge.Path req) (Bridge.Argv req);
          Bridge.SysExec (Bridge.Path req) (Bridge.Argv req) (Bridge.Env req)]
    with ([Bridge.SysPrintln (Bridge.Path req) (Bridge.Argv req)]
          ++ [Bridge.SysExec (Bridge.Path req) (Bridge.Argv req)
                (Bridge.Env req)]).
  rewrite app_assoc. apply last_snoc.
Qed.

(** X14. From [Start] of backend A to the process it spawns. When [Start]
    returns no error and the request of the final config is one a Go
    program can hold, [maybeExec] run on the environment of the spawned
    command decodes that request and takes its plan: it never changes
    directory, every exec it attempts is of [Path] with [linux] as argv[0]
    followed by the [Args] of the config, in an environment that holds
    [HOME] only, and when no call fails the process is replaced by that
    exec. *)
Theorem Start_child_execs_backend (sys : Bridge.Sys) (u u' : UML.uml)
    (c c' : UML.UMLConfig) (t : Tap) (w w' : World UML.UMLConfig) :
  heap w !! UML.config u = Some c -> UML.tap u = Some t ->
  UML.Start u w = (Returned (u', None), w') ->
  heap w' !! UML.config u = Some c' ->
  Bridge.wfReq (UML.request c' (os_HOME (os w))) ->
  exists k tr h,
    UML.cmd u' = Some k
    /\ Bridge.maybeExec sys (cmd_Env k) [] = (inr h, tr)
    /\ Bridge.attempt sys (Bridge.plan (UML.request c' (os_HOME (os w))))
       = (tr, h)
    /\ (forall d, Bridge.SysChdir d ∉ tr)
    /\ (forall p a e, Bridge.SysExec p a e ∈ tr ->
          p = UML.Path c' /\ a = "linux" :: UML.Args c'
          /\ e = ["HOME=" +:+ os_HOME (os w)])
    /\ ((forall ev, Bridge.stepError sys ev = None) ->
        h = Bridge.Replaced
        /\ last tr = Some (Bridge.SysExec (UML.Path c') ("linux" :: UML.Args c')
                             ["HOME=" +:+ os_HOME (os w)])).
Proof.
  intros Hc Ht Hrun Hc' Hwf.
  destruct (UML_Start_run u c t w Hc Ht)
    as (u1 & err & evs & n & h1 & x1 & Hrun1 & _ & _ & _ & Hk).
  cbv zeta in Hrun1, Hk. rewrite Hrun in Hrun1.
  inversion Hrun1; subst u1 err w'. clear Hrun1.
  simpl in Hc'. rewrite lookup_insert_eq in Hc'. inversion Hc'; subst c'.
  clear Hc'.
  destruct (Hk eq_refl) as (k & pid & Hcmd & _ & Henv & _).
  set (c' := UML.set_hostFS h1 _) in *.
  set (req := UML.request c' (os_HOME (os w))) in *.
  assert (Hget : Getenv (cmd_Env k) "_EXEC_REQ" = Bridge.encodeReq req)
    by (rewrite Henv; apply BridgeFacts.Getenv_exec_req).
  assert (Hne : Getenv (cmd_Env k) "_EXEC_REQ" <> EmptyString)
    by (rewrite Hget; apply BridgeFacts.encodeReq_nonempty).
  assert (Hdec : Bridge.decodeReq (Getenv (cmd_Env k) "_EXEC_REQ") = Some req)
    by (rewrite Hget; by apply BridgeFacts.decodeReq_encodeReq).
  pose proof (BridgeFacts.maybeExec_attempt sys (cmd_Env k) req Hne Hdec)
    as Hexec.
  pose proof (BridgeFacts.attempt_prefix sys (Bridge.plan req)) as Hpre.
  pose proof (BridgeFacts.attempt_outcome sys (Bridge.plan req)) as Hout.
  cbv zeta in Hout.
  destruct (Bridge.attempt sys (Bridge.plan req)) as [tr h] eqn:Hatt.
  simpl in *. destruct Hpre as [rest Hplan].
  exists k, tr, h. split; [exact Hcmd|]. split; [exact Hexec|].
  split; [reflexivity|]. split; [|split].
  - intros d Hin. apply (plan_no_dir req eq_refl d).
    rewrite Hplan. apply elem_of_app. by left.
  - intros p a e Hin.
    apply (plan_exec req p a e). rewrite Hplan. apply elem_of_app. by left.
  - intros Hall. destruct Hout as [_ [(-> & -> & _)|(ev & f & _ & _ & Hf)]].
    + split; [done|]. apply plan_last.
    + by rewrite Hall in Hf.
Qed.

Lemma sample_start_request_wf u' w' c' :
  UML.Start Sample.umlInst (Sample.umlWorld Sample.osOk Sample.umlConfig)
  = (Returned (u', None), w') ->
  heap w' !! 1%nat = Some c' ->
  Bridge.wfReq (UML.request c' "/root").
Proof.
  intros Hrun Hc'. vm_compute in Hrun. inversion Hrun; subst u' w'. clear Hrun.
  vm_compute in Hc'. inversion Hc'; subst c'. clear Hc'.
  unfold Bridge.wfReq, Gob.int64.
  split_and!.
  - vm_compute. discriminate.
  - vm_compute. reflexivity.
  - vm_compute. discriminate.
  - vm_compute. reflexivity.
  - vm_compute. reflexivity.
  - vm_compute. reflexivity.
  - repeat (apply Forall_cons; split; [vm_compute; reflexivity|]).
    apply Forall_nil_2.
  - vm_compute. reflexivity.
  - repeat (apply Forall_cons; split; [vm_compute; reflexivity|]).
    apply Forall_nil_2.
  - vm_compute. reflexivity.
  - vm_compute. reflexivity.
Qed.

Lemma Start_child_execs_backend_witness :
  exists u' w' c' k tr,
    UML.Start Sample.umlInst (Sample.umlWorld Sample.osOk Sample.umlConfig)
    = (Returned (u', None), w')
    /\ heap w' !! 1%nat = Some c'
    /\ UML.cmd u' = Some k
    /\ Bridge.maybeExec Sample.sysOk (cmd_Env k) [] = (inr Bridge.Replaced, tr)
    /\ last tr = Some (Bridge.SysExec (UML.Path c') ("linux" :: UML.Args c')
                         ["HOME=/root"]).
Proof.
  destruct (UML.Start Sample.umlInst
              (Sample.umlWorld Sample.osOk Sample.umlConfig))
    as [[[u' [e|]]|] w'] eqn:H1;
    [vm_compute in H1; discriminate H1| |vm_compute in H1; discriminate H1].
  destruct (heap w' !! 1%nat) as [c'|] eqn:Hc';
    [|vm_compute in H1; inversion H1; subst; vm_compute in Hc';
      discriminate Hc'].
  destruct (Start_child_execs_backend Sample.sysOk Sample.umlInst u'
              Sample.umlConfig c' (Sample.tapOf 0)
              (Sample.umlWorld Sample.osOk Sample.umlConfig) w'
              eq_refl eq_refl H1 Hc' (sample_start_request_wf u' w' c' H1 Hc'))
    as (k & tr & h & Hk & Hexec & _ & _ & _ & Hok).
  destruct (Hok (fun ev => match ev with
                           | Bridge.SysSetgid _ | Bridge.SysSetuid _
                           | Bridge.SysChdir _ | Bridge.SysPrintln _ _
                           | Bridge.SysExec _ _ _ => eq_refl
                           end)) as [-> Hlast].
  exists u', w', c', k, tr. by repeat split.
Defined.

(** ** The image file *)

(** X15. [createFS] for either tool returns the name of the temp file and
    no error exactly when the file could be created, the seek and the
    write went through and the tool exited cleanly; otherwise it returns
    the empty name with an error, which for the tool is a message that
    starts with the name of the tool. When the file could not be created
    nothing else is attempted. *)
Theorem createFS_outcome (tool : string) (flags : list string)
    (quote : list ascii -> string) (o : Image.Files) (size uid gid : Z) :
  let r := Image.createFS tool flags quote o size uid gid in
  (snd (fst r) = None <->
   exists name,
     Image.io_TempFile o = Ok name
     /\ Image.f_Seek o name size = None
     /\ Image.f_Write o name ["000"%char] = None
     /\ snd (Image.cmd_CombinedOutput o (Image.mkfs tool flags name)) = None)
  /\ (snd (fst r) = None -> Image.io_TempFile o = Ok (fst (fst r)))
  /\ (snd (fst r) <> None -> fst (fst r) = EmptyString)
  /\ (forall e, Image.io_TempFile o = Err e -> r = ((EmptyString, Some e), []))
  /\ (forall argv e, Image.FCommand argv ∈ snd r ->
        snd (Image.cmd_CombinedOutput o argv) = Some e ->
        exists msg, snd (fst r) = Some (tool +:+ " error " +:+ msg)).
Proof.
  unfold Image.createFS.
  destruct (Image.io_TempFile o) as [name|e0] eqn:Htmp; simpl.
  2:{ split_and!; try done.
      - split; [done|]. by intros (n & Hn & _).
      - by intros e [= ->].
      - intros argv e Hin. by apply elem_of_nil in Hin. }
  destruct (Image.f_Seek o name size) as [e1|] eqn:Hseek; simpl.
  { split_and!; try done.
    - split; [done|]. intros (n & [= <-] & Hs & _). congruence.
    - intros argv e Hin.
      repeat (apply elem_of_cons in Hin as [Hin|Hin]; [discriminate|]).
      by apply elem_of_nil in Hin. }
  destruct (Image.f_Write o name ["000"%char]) as [e2|] eqn:Hwrite; simpl.
  { split_and!; try done.
    - split; [done|]. intros (n & [= <-] & _ & Hw & _). congruence.
    - intros argv e Hin.
      repeat (apply elem_of_cons in Hin as [Hin|Hin]; [discriminate|]).
      by apply elem_of_nil in Hin. }
  destruct (Image.cmd_CombinedOutput o (Image.mkfs tool flags name))
    as [res [e3|]] eqn:Hcmd; simpl.
  - split_and!; try done.
    + split; [done|]. intros (n & [= <-] & _ & _ & Hc).
      rewrite Hcmd in Hc. discriminate.
    + intros argv e _ _. by exists (e3 +:+ " - " +:+ quote res).
  - split_and!; try done.
    + split; [|done]. intros _. exists name. by rewrite Hcmd.
    + intros argv e Hin.
      repeat (apply elem_of_cons in Hin as [Hin|Hin];
              [try discriminate|]); [|by apply elem_of_nil in Hin].
      inversion Hin; subst. rewrite Hcmd. discriminate.
Qed.

(** X16. What becomes of the file that [createFS] creates. It is closed
    exactly once on every path. It is removed exactly when the seek or the
    write failed, and then nothing is run. The tool is run only on the
    closed file, as the last call, with the file name as its last
    argument, and a failure of the tool leaves the file in place although
    no name is returned for it. *)
Theorem createFS_file_fate (tool : string) (flags : list string)
    (quote : list ascii -> string) (o : Image.Files) (size uid gid : Z)
    (name : string) :
  Image.io_TempFile o = Ok name ->
  let r := Image.createFS tool flags quote o size uid gid in
  (exists pre post,
     snd r = Image.FTempFile name :: pre ++ Image.FClose name :: post
     /\ (forall n, Image.FClose n ∉ pre ++ post)
     /\ (forall n, Image.FRemove n ∉ pre)
     /\ (forall argv, Image.FCommand argv ∉ pre))
  /\ (Image.FRemove name ∈ snd r <->
      Image.f_Seek o name size <> None
      \/ Image.f_Write o name ["000"%char] <> None)
  /\ (forall argv, Image.FCommand argv ∈ snd r ->
        argv = tool :: flags ++ [name]
        /\ last (snd r) = Some (Image.FCommand argv)
        /\ Image.FRemove name ∉ snd r)
  /\ (Image.FChown name uid gid ∈ snd r <->
      exists argv, Image.FCommand argv ∈ snd r).
Proof.
  intros Htmp. unfold Image.createFS. rewrite Htmp.
  destruct (Image.f_Seek o name size) as [e1|] eqn:Hseek; simpl.
  { split_and!.
    - exists [Image.FSeek name size], [Image.FRemove name].
      split; [done|]. split_and!; intros n Hin;
        repeat (apply elem_of_cons in Hin as [Hin|Hin]; [discriminate|]);
        by apply elem_of_nil in Hin.
    - split; [intros _; by left|]. intros _.
      do 3 (apply elem_of_cons; right). apply elem_of_cons. by left.
    - intros argv Hin.
      repeat (apply elem_of_cons in Hin as [Hin|Hin]; [discriminate|]).
      by apply elem_of_nil in Hin.
    - split.
      + intros Hin.
        repeat (apply elem_of_cons in Hin as [Hin|Hin]; [discriminate|]).
        by apply elem_of_nil in Hin.
      + intros [argv Hin].
        repeat (apply elem_of_cons in Hin as [Hin|Hin]; [discriminate|]).
        by apply elem_of_nil in Hin. }
  destruct (Image.f_Write o name ["000"%char]) as [e2|] eqn:Hwrite; simpl.
  { split_and!.
    - exists [Image.FSeek name size; Image.FWrite name ["000"%char]],
        [Image.FRemove name].
      split; [done|]. split_and!; intros n Hin;
        repeat (apply elem_of_cons in Hin as [Hin|Hin]; [discriminate|]);
        by apply elem_of_nil in Hin.
    - split; [intros _; by right|]. intros _.
      do 4 (apply elem_of_cons; right). apply elem_of_cons. by left.
    - intros argv Hin.
      repeat (apply elem_of_cons in Hin as [Hin|Hin]; [discriminate|]).
      by apply elem_of_nil in Hin.
    - split.
      + intros Hin.
        repeat (apply elem_of_cons in Hin as [Hin|Hin]; [discriminate|]).
        by apply elem_of_nil in Hin.
      + intros [argv Hin].
        repeat (apply elem_of_cons in Hin as [Hin|Hin]; [discriminate|]).
        by apply elem_of_nil in Hin. }
  destruct (Image.cmd_CombinedOutput o (Image.mkfs tool flags name))
    as [res [e3|]]; simpl;
    (split_and!;
     [exists [Image.FSeek name size; Image.FWrite name ["000"%char];
              Image.FChown name uid gid],
        [Image.FCommand (Image.mkfs tool flags name)];
      split; [done|]; split_and!; intros n Hin;
      repeat (apply elem_of_cons in Hin as [Hin|Hin]; [discriminate|]);
      by apply elem_of_nil in Hin
     |split;
      [intros Hin;
       repeat (apply elem_of_cons in Hin as [Hin|Hin]; [discriminate|]);
       by apply elem_of_nil in Hin
      |intros [H|H]; by destruct H]
     |intros argv Hin;
      repeat (apply elem_of_cons in Hin as [Hin|Hin]; [try discriminate|]);
      [|by apply elem_of_nil in Hin];
      inversion Hin; subst; split; [done|]; split; [done|];
      intros Hr;
      repeat (apply elem_of_cons in Hr as [Hr|Hr]; [discriminate|]);
      by apply elem_of_nil in Hr
     |split;
      [intros _; exists (Image.mkfs tool flags name);
       do 5 (apply elem_of_cons; right); apply elem_of_cons; by left
      |intros _; do 3 (apply elem_of_cons; right); apply elem_of_cons;
       by left]]).
Qed.

Lemma createFS_file_fate_witness :
  let r := UMLRunner.createFS string_of_list_ascii Cases.filesToolFails
             17179869184 1000 1000 in
  (exists pre post,
     snd r = Image.FTempFile "/tmp/img"
             :: pre ++ Image.FClose "/tmp/img" :: post
     /\ (forall n, Image.FClose n ∉ pre ++ post)
     /\ (forall n, Image.FRemove n ∉ pre)
     /\ (forall argv, Image.FCommand argv ∉ pre))
  /\ (Image.FRemove "/tmp/img" ∈ snd r <->
      Image.f_Seek Cases.filesToolFails "/tmp/img" 17179869184 <> None
      \/ Image.f_Write Cases.filesToolFails "/tmp/img" ["000"%char] <> None)
  /\ (forall argv, Image.FCommand argv ∈ snd r ->
        argv = "mkfs.ext4" :: ["-Fq"] ++ ["/tmp/img"]
        /\ last (snd r) = Some (Image.FCommand argv)
        /\ Image.FRemove "/tmp/img" ∉ snd r)
  /\ (Image.FChown "/tmp/img" 1000 1000 ∈ snd r <->
      exists argv, Image.FCommand argv ∈ snd r).
Proof.
  exact (createFS_file_fate "mkfs.ext4" ["-Fq"] string_of_list_ascii
           Cases.filesToolFails 17179869184 1000 1000 "/tmp/img" eq_refl).
Defined.

(** ** The drive loop of backend B *)

Lemma VM_wp_startDrives_plain drives order : forall u c
    (Q : outcome (VM.vm * option error) -> World VM.VMConfig -> Prop) w,
  (forall i d, i ∈ order -> drives !! i = Some d -> VM.TempCOW d = false) ->
  heap w !! VM.config u = Some c ->
  Q (Returned (u, None))
    (mkWorld (os w) (trace w) (ntemp w) (ntap w)
       (<[VM.config u :=
            VM.set_Args
              (VM.Args c ++ concat (map (vmDriveFlags drives) order)) c]>
          (heap w))) ->
  wp (VM.startDrives u drives order) Q w.
Proof.
  induction order as [|i rest IH]; intros u c Q w Hplain Hc HQ.
  - rewrite VMFacts.vm_startDrives_nil. wp_step. simpl in HQ.
    rewrite app_nil_r in HQ.
    replace (VM.set_Args (VM.Args c) c) with c in HQ by (by destruct c).
    by rewrite insert_id, UMLFacts.world_eta in HQ.
  - rewrite VMFacts.vm_startDrives_cons.
    assert (Hrest : forall j d, j ∈ rest -> drives !! j = Some d ->
                                VM.TempCOW d = false)
      by (intros j d Hj; apply Hplain; apply elem_of_cons; by right).
    simpl in HQ. unfold vmDriveFlags at 1 in HQ.
    destruct (drives !! i) as [d|] eqn:Hd; [|by eapply IH].
    rewrite (Hplain i d) by (done || (apply elem_of_cons; by left)).
    wp_steps. eapply IH; [exact Hrest|heap_lookup|]. simpl.
    rewrite insert_insert_eq.
    replace (VM.set_Args _ (VM.set_Args _ c))
      with (VM.set_Args
              (VM.Args c
                 ++ ["-" +:+ i; VM.FS d]
                 ++ concat (map (vmDriveFlags drives) rest)) c);
      [exact HQ|].
    unfold VM.set_Args. simpl. f_equal. by rewrite <- app_assoc.
Qed.

(** X17. The drive loop of backend B over keys none of whose drives asks
    for a temp overlay: it makes no call, cannot fail and appends, key by
    key in the order of the visit, the flag of the key and the image of
    its drive; keys without drive add nothing. The argv thus depends on
    the order in which the map is visited. *)
Theorem vm_startDrives_without_overlays (drives : gmap string VM.VMDrive)
    (order : list string) (u : VM.vm) (c : VM.VMConfig)
    (w : World VM.VMConfig) :
  (forall i d, i ∈ order -> drives !! i = Some d -> VM.TempCOW d = false) ->
  heap w !! VM.config u = Some c ->
  VM.startDrives u drives order w =
    (Returned (u, None),
     mkWorld (os w) (trace w) (ntemp w) (ntap w)
       (<[VM.config u :=
            VM.set_Args
              (VM.Args c ++ concat (map (vmDriveFlags drives) order)) c]>
          (heap w))).
Proof.
  intros Hplain Hc.
  pose proof (VM_wp_startDrives_plain drives order u c
    (fun r w' =>
       (r, w') =
       (Returned (u, None),
        mkWorld (os w) (trace w) (ntemp w) (ntap w)
          (<[VM.config u :=
               VM.set_Args
                 (VM.Args c ++ concat (map (vmDriveFlags drives) order)) c]>
             (heap w)))) w Hplain Hc eq_refl) as Hwp.
  unfold wp in Hwp. by destruct (VM.startDrives u drives order w).
Qed.

Lemma vm_startDrives_without_overlays_witness :
  VM.startDrives Sample.vmInst (VM.Drives Sample.vmConfig) ["hdb"; "hdc"]
    (Sample.vmWorld Sample.osOk)
  = (Returned (Sample.vmInst, None),
     mkWorld Sample.osOk [] 0 0
       (<[1%nat :=
            VM.set_Args
              (VM.Args Sample.vmConfig
                 ++ concat (map (vmDriveFlags (VM.Drives Sample.vmConfig))
                              ["hdb"; "hdc"]))
              Sample.vmConfig]>
          (heap (Sample.vmWorld Sample.osOk)))).
Proof.
  apply (vm_startDrives_without_overlays (VM.Drives Sample.vmConfig)
           ["hdb"; "hdc"] Sample.vmInst Sample.vmConfig
           (Sample.vmWorld Sample.osOk)).
  - intros i d Hi Hd.
    apply elem_of_cons in Hi as [->|Hi];
      [vm_compute in Hd; by inversion Hd|].
    apply elem_of_cons in Hi as [->|Hi];
      [vm_compute in Hd; discriminate Hd|].
    by apply elem_of_nil in Hi.
  - reflexivity.
Defined.

(** ** The statements above on sample worlds *)

Lemma NewInstance_ids_witness :
  exists m1 r1 e1 w1 m2 r2 e2 w2,
    UML.NewInstance Sample.umlManager 1
      (Sample.umlWorld Sample.osOk Sample.umlConfig)
    = (Returned (m1, r1, e1), w1)
    /\ UML.NewInstance m1 1 w1 = (Returned (m2, r2, e2), w2)
    /\ UML.nextID m2 = ((UML.nextID m1 + 1) mod 2 ^ 64)%N
    /\ forall u1 u2, r1 = Some u1 -> r2 = Some u2 -> UML.ID u1 <> UML.ID u2.
Proof.
  destruct (UML.NewInstance Sample.umlManager 1
              (Sample.umlWorld Sample.osOk Sample.umlConfig))
    as [[[[m1 r1] e1]|] w1] eqn:H1; [|vm_compute in H1; discriminate H1].
  destruct (UML.NewInstance m1 1 w1) as [[[[m2 r2] e2]|] w2] eqn:H2;
    [|vm_compute in H1; inversion H1; subst; vm_compute in H2;
      discriminate H2].
  exists m1, r1, e1, w1, m2, r2, e2, w2.
  split; [reflexivity|]. split; [exact H2|].
  destruct (NewInstance_ids Sample.umlManager 1 1
              (Sample.umlWorld Sample.osOk Sample.umlConfig) w1
              m1 r1 e1 w1 m2 r2 e2 w2 eq_refl H1 H2)
    as (_ & Hm2 & _ & _ & Hne).
  split; [exact Hm2|exact Hne].
Defined.

Lemma NewInstance_defaults_witness :
  exists m' r e w' c',
    UML.NewInstance Sample.umlManager 1
      (Sample.umlWorld Sample.osOk Sample.umlConfig)
    = (Returned (m', r, e), w')
    /\ heap w' !! 1%nat = Some c'
    /\ UML.Path c' <> EmptyString /\ UML.Out c' <> None
    /\ UML.Drives c' = UML.Drives Sample.umlConfig.
Proof.
  destruct (UML.NewInstance Sample.umlManager 1
              (Sample.umlWorld Sample.osOk Sample.umlConfig))
    as [[[[m' r] e]|] w'] eqn:H1; [|vm_compute in H1; discriminate H1].
  destruct (NewInstance_defaults Sample.umlManager 1 Sample.umlConfig
              (Sample.umlWorld Sample.osOk Sample.umlConfig)
              m' r e w' eq_refl eq_refl H1)
    as (c' & evs & Hc' & _ & _ & Hp & Ho & _ & _ & _ & _ & _ & Hd & _).
  exists m', r, e, w', c'. by repeat split.
Defined.

Lemma NewInstance_tap_accounting_witness :
  exists m' r e w' evs,
    UML.NewInstance Sample.umlManager 1
      (Sample.umlWorld Sample.osNoTap Sample.umlConfig)
    = (Returned (m', r, e), w')
    /\ trace w' = evs
    /\ forall u, r = Some u -> ntap w' = 1%nat.
Proof.
  destruct (UML.NewInstance Sample.umlManager 1
              (Sample.umlWorld Sample.osNoTap Sample.umlConfig))
    as [[[[m' r] e]|] w'] eqn:H1; [|vm_compute in H1; discriminate H1].
  destruct (NewInstance_tap_accounting Sample.umlManager 1 Sample.umlConfig
              (Sample.umlWorld Sample.osNoTap Sample.umlConfig)
              m' r e w' eq_refl eq_refl H1)
    as (evs & Htr & _ & Hsome).
  exists m', r, e, w', evs. split; [reflexivity|]. split; [exact Htr|].
  intros u Hu. by destruct (Hsome u Hu) as [Hn _].
Defined.

Lemma writeInterfaceConfig_registers_witness :
  exists u' err w' tmp (evs : list Event),
    UML.writeInterfaceConfig Sample.umlInst
      (Sample.umlWorld Sample.osOk Sample.umlConfig)
    = (Returned (u', err), w')
    /\ UML.tempFiles u' = UML.tempFiles Sample.umlInst ++ tmp
    /\ (forall d, EvTempDir d ∈ evs <-> d ∈ tmp).
Proof.
  destruct (writeInterfaceConfig_registers Sample.umlInst Sample.umlConfig
              (Sample.tapOf 0) (Sample.umlWorld Sample.osOk Sample.umlConfig)
              eq_refl eq_refl)
    as (u' & err & w' & tmp & evs & h & Hrun & _ & Hf & _ & Hiff & _).
  by exists u', err, w', tmp, evs.
Defined.

Lemma Start_then_teardown_witness :
  exists u' w' k pid uk wk,
    UML.Start Sample.umlInst (Sample.umlWorld Sample.osOk Sample.umlConfig)
    = (Returned (u', None), w')
    /\ UML.cmd u' = Some k /\ Process k = Some pid
    /\ UML.Kill u' w' = (Returned (None, uk), wk)
    /\ UML.tempFiles uk = [].
Proof.
  destruct (UML.Start Sample.umlInst
              (Sample.umlWorld Sample.osOk Sample.umlConfig))
    as [[[u' [e|]]|] w'] eqn:H1;
    [vm_compute in H1; discriminate H1| |vm_compute in H1; discriminate H1].
  destruct (Start_then_teardown Sample.umlInst u' Sample.umlConfig
              (Sample.tapOf 0) (Sample.umlWorld Sample.osOk Sample.umlConfig)
              w' eq_refl eq_refl H1)
    as (k & pid & Hk & Hp & _ & (uk & Hkill & Hf) & _).
  exists u', w', k, pid, uk. eexists. split; [reflexivity|].
  split; [exact Hk|]. split; [exact Hp|]. split; [exact Hkill|exact Hf].
Defined.

Lemma Kill_after_failed_Start_panics_witness :
  exists u' e w',
    UML.Start Sample.umlInst (Sample.umlWorld Cases.osNoSpawn Sample.umlConfig)
    = (Returned (u', Some e), w')
    /\ fst (UML.Kill u' w') = Panicked.
Proof.
  destruct (UML.Start Sample.umlInst
              (Sample.umlWorld Cases.osNoSpawn Sample.umlConfig))
    as [[[u' [e|]]|] w'] eqn:H1;
    [|vm_compute in H1; discriminate H1|vm_compute in H1; discriminate H1].
  destruct (Kill_after_failed_Start_panics Sample.umlInst u' Sample.umlConfig
              (Sample.tapOf 0) e
              (Sample.umlWorld Cases.osNoSpawn Sample.umlConfig) w'
              eq_refl eq_refl eq_refl H1) as (Hkill & _).
  exists u', e, w'. split; [reflexivity|]. by rewrite Hkill.
Defined.
